(** * WhatsApp chat analyzer: parser, filters and chunker

    A shallow embedding of the text-parsing and chunking core of the
    repository ([parsers/text_parser.py], [models/message.py],
    [analyzer/filters.py], [analyzer/chunker.py], [analyzer/core.py]) and the
    properties its specification states about it; then, under
    "More properties", of the analysis itself ([ChatAnalyzer.analyze] with
    [llm/prompts.py] and [models/analysis.py]) and further properties that
    the code shows.

    Python values are modelled as follows.
    - [str] is a sequence of Unicode code points: [pystr := list N].
    - [int] is [Z]; [len] of a string is the length of the list.
    - [None]-returning functions return [option]; a caught [ValueError] is
      [None]; an exception that reaches the caller is the [Raise]
      case of [result].
    - The two Unicode database lookups CPython performs on the way
      ([str.lower] and the decimal-digit property behind [\d] and [int]) are
      not part of the repository; they are the fields of [Unicode], and every
      general theorem holds for all of their values.  Closed examples use
      [ascii_unicode], which agrees with CPython on ASCII text; on such
      text the parser computes the same with every table that does
      ([parse_text_ascii]). *)

From Stdlib Require Import String Ascii.
From Stdlib Require Import List ZArith NArith Lia Bool Sorted.
Import ListNotations.

Set Implicit Arguments.
Local Open Scope Z_scope.

(* ================================================================= *)
(** ** Python strings *)

Definition char := N.
Definition pystr := list char.

(** An ASCII literal as a Python string. *)
Definition lit (s : string) : pystr :=
  map N_of_ascii (list_ascii_of_string s).

Definition NL : char := 10%N.

Definition len (s : pystr) : Z := Z.of_nat (length s).

Definition char_in (cs : list char) (c : char) : bool :=
  existsb (N.eqb c) cs.

Fixpoint pystr_eqb (a b : pystr) : bool :=
  match a, b with
  | [], [] => true
  | x :: a', y :: b' => N.eqb x y && pystr_eqb a' b'
  | _, _ => false
  end.

(** [str.isspace] on one code point ([Py_UNICODE_ISSPACE]); the same set is
    what [\s] matches in a [str] pattern and what [str.strip()] removes. *)
Definition py_isspace (c : char) : bool :=
  ((9 <=? c) && (c <=? 13) || (28 <=? c) && (c <=? 32)
   || (c =? 133) || (c =? 160) || (c =? 5760)
   || (8192 <=? c) && (c <=? 8202)
   || (c =? 8232) || (c =? 8233) || (c =? 8239) || (c =? 8287)
   || (c =? 12288))%N.

Fixpoint lstrip (s : pystr) : pystr :=
  match s with
  | c :: s' => if py_isspace c then lstrip s' else s
  | [] => []
  end.

Definition rstrip (s : pystr) : pystr := rev (lstrip (rev s)).

(** [s.strip()] *)
Definition strip (s : pystr) : pystr := rstrip (lstrip s).

(** [s.split(sep)] for a one-character separator: never the empty list. *)
Fixpoint split (sep : char) (s : pystr) : list pystr :=
  match s with
  | [] => [[]]
  | c :: s' =>
      if N.eqb c sep then [] :: split sep s'
      else match split sep s' with
           | l :: ls => (c :: l) :: ls
           | [] => [[c]]
           end
  end.

(** [sep.join(parts)] for a one-character separator. *)
Fixpoint join (sep : char) (parts : list pystr) : pystr :=
  match parts with
  | [] => []
  | [p] => p
  | p :: ps => p ++ sep :: join sep ps
  end.

Fixpoint startswith (s prefix : pystr) : bool :=
  match prefix, s with
  | [], _ => true
  | p :: prefix', c :: s' => N.eqb p c && startswith s' prefix'
  | _ :: _, [] => false
  end.

(** [needle in hay] *)
Fixpoint contains (hay needle : pystr) : bool :=
  startswith hay needle ||
  match hay with
  | [] => false
  | _ :: hay' => contains hay' needle
  end.

(** The Unicode database lookups of the Python runtime. *)
Record Unicode := {
  (** [str.lower] *)
  str_lower : pystr -> pystr;
  (** the decimal value of a code point of category Nd
      ([Py_UNICODE_TODECIMAL]); [\d] matches exactly the code points that
      have one, and [int] reads them. *)
  decimal : char -> option Z
}.

Definition ascii_lower_char (c : char) : char :=
  if ((65 <=? c) && (c <=? 90))%N then (c + 32)%N else c.

Definition ascii_decimal (c : char) : option Z :=
  if ((48 <=? c) && (c <=? 57))%N then Some (Z.of_N c - 48)%Z else None.

(** The runtime restricted to ASCII: letters A-Z are lowered, digits 0-9
    are the decimal digits. *)
Definition ascii_unicode : Unicode :=
  {| str_lower := map ascii_lower_char; decimal := ascii_decimal |}.

(* ================================================================= *)
(** ** models/message.py *)

(** A naive [datetime]. *)
Record datetime := {
  year : Z; month : Z; day : Z;
  hour : Z; minute : Z; second : Z; microsecond : Z
}.

(** [datetime._cmp] for naive values: the fields in order. *)
Fixpoint lex_compare (a b : list Z) : comparison :=
  match a, b with
  | x :: a', y :: b' =>
      match Z.compare x y with
      | Eq => lex_compare a' b'
      | c => c
      end
  | [], [] => Eq
  | [], _ :: _ => Lt
  | _ :: _, [] => Gt
  end.

Definition datetime_fields (d : datetime) : list Z :=
  [year d; month d; day d; hour d; minute d; second d; microsecond d].

Definition datetime_cmp (a b : datetime) : comparison :=
  lex_compare (datetime_fields a) (datetime_fields b).

(** [a < b], [a > b], [a <= b] on datetimes. *)
Definition dt_lt (a b : datetime) : bool :=
  match datetime_cmp a b with Lt => true | _ => false end.
Definition dt_gt (a b : datetime) : bool :=
  match datetime_cmp a b with Gt => true | _ => false end.
Definition dt_le (a b : datetime) : bool :=
  match datetime_cmp a b with Gt => false | _ => true end.

Definition digit_char (n : Z) : char := Z.to_N (48 + n mod 10).

(** Two-digit zero-padded field ([%m], [%d], [%H], [%M]). *)
Definition pad2 (n : Z) : pystr := [digit_char (n / 10); digit_char n].

(** [%Y] as glibc prints it: the decimal digits of the year, without
    padding (a year is between 1 and 9999). *)
Definition year_digits (y : Z) : pystr :=
  (if y <? 10 then [] else
   (if y <? 100 then [] else
    (if y <? 1000 then [] else [digit_char (y / 1000)])
    ++ [digit_char (y / 100)])
   ++ [digit_char (y / 10)])
  ++ [digit_char y].

(** [f"{timestamp:%Y-%m-%d %H:%M}"] *)
Definition format_timestamp (d : datetime) : pystr :=
  year_digits (year d) ++ lit "-" ++ pad2 (month d) ++ lit "-" ++ pad2 (day d)
  ++ lit " " ++ pad2 (hour d) ++ lit ":" ++ pad2 (minute d).

Record ChatMessage := {
  timestamp : datetime;
  sender : pystr;
  content : pystr;
  is_system : bool;
  is_media : bool
}.

(** [ChatMessage.__str__] *)
Definition ChatMessage_str (self : ChatMessage) : pystr :=
  if is_system self
  then lit "[" ++ format_timestamp (timestamp self) ++ lit "] " ++ content self
  else lit "[" ++ format_timestamp (timestamp self) ++ lit "] "
       ++ sender self ++ lit ": " ++ content self.

Record Conversation := { messages : list ChatMessage }.

Module Conversation_.

(** [Conversation.filter_by_participant] *)
Definition filter_by_participant (U : Unicode) (self : Conversation)
    (participant : pystr) : Conversation :=
  let filtered :=
    filter (fun m =>
              pystr_eqb (str_lower U (sender m)) (str_lower U participant)
              || is_system m)
           (messages self) in
  {| messages := filtered |}.

(** The loop body of [filter_by_date_range]: [true] when the message is
    appended, [false] on either [continue].  A [datetime] is always
    truthy, so [if start and ...] tests [start is not None]. *)
Definition in_date_range (start end_ : option datetime) (m : ChatMessage)
    : bool :=
  if match start with
     | Some s => dt_lt (timestamp m) s
     | None => false
     end
  then false
  else if match end_ with
          | Some e => dt_gt (timestamp m) e
          | None => false
          end
  then false
  else true.

(** [Conversation.filter_by_date_range] *)
Definition filter_by_date_range (self : Conversation)
    (start end_ : option datetime) : Conversation :=
  let filtered :=
    fold_left (fun filtered m =>
                 if in_date_range start end_ m then filtered ++ [m]
                 else filtered)
              (messages self) [] in
  {| messages := filtered |}.

(** [Conversation.to_text] *)
Definition to_text (self : Conversation) : pystr :=
  join NL (map ChatMessage_str (messages self)).

End Conversation_.

(* ================================================================= *)
(** ** analyzer/filters.py *)

Definition is_some {A} (o : option A) : bool :=
  match o with Some _ => true | None => false end.

(** Truthiness of [str | None]: [None] and the empty string are falsy. *)
Definition truthy_str (o : option pystr) : bool :=
  match o with
  | Some (_ :: _) => true
  | _ => false
  end.

Definition apply_filters (U : Unicode) (conversation : Conversation)
    (participant : option pystr) (start_date end_date : option datetime)
    : Conversation :=
  let result := conversation in
  let result :=
    if is_some start_date || is_some end_date
    then Conversation_.filter_by_date_range result start_date end_date
    else result in
  let result :=
    if truthy_str participant
    then match participant with
         | Some p => Conversation_.filter_by_participant U result p
         | None => result
         end
    else result in
  result.

(* ================================================================= *)
(** ** analyzer/chunker.py *)

Module ConversationChunker.

Definition DEFAULT_MAX_CHARS : Z := 12000.

Record t := { max_chars : Z }.

(** The variables of the loop in [chunk]. *)
Record loop := {
  chunks : list Conversation;
  current_messages : list ChatMessage;
  current_chars : Z
}.

Definition nonempty {A} (l : list A) : bool :=
  match l with [] => false | _ :: _ => true end.

(** The test that closes the current chunk before [message] is added. *)
Definition closes (self : t) (st : loop) (message : ChatMessage) : bool :=
  (current_chars st + len (ChatMessage_str message) >? max_chars self)%Z
  && nonempty (current_messages st).

(** One iteration of the loop. *)
Definition step (self : t) (st : loop) (message : ChatMessage) : loop :=
  let msg_text := ChatMessage_str message in
  let msg_len := len msg_text in
  let st :=
    if closes self st message
    then {| chunks := chunks st ++ [{| messages := current_messages st |}];
            current_messages := [];
            current_chars := 0 |}
    else st in
  {| chunks := chunks st;
     current_messages := current_messages st ++ [message];
     current_chars := (current_chars st + (msg_len + 1))%Z |}.

Definition start : loop :=
  {| chunks := []; current_messages := []; current_chars := 0 |}.

(** What follows the loop: flush the trailing chunk. *)
Definition finish (st : loop) : list Conversation :=
  if nonempty (current_messages st)
  then chunks st ++ [{| messages := current_messages st |}]
  else chunks st.

Definition chunk (self : t) (conversation : Conversation)
    : list Conversation :=
  match messages conversation with
  | [] => []
  | _ :: _ => finish (fold_left (step self) (messages conversation) start)
  end.

Definition needs_chunking (self : t) (conversation : Conversation) : bool :=
  (len (Conversation_.to_text conversation) >? max_chars self)%Z.

End ConversationChunker.

(* ================================================================= *)
(** ** The fragment of Python's [re] that the program uses

    A backtracking matcher in continuation-passing style: alternatives are
    tried left to right, a greedy repetition tries the longer match first and
    a lazy one the shorter, and the first complete match wins, as in [re].
    A quantifier applies to a character class, or is [?] on a group
    ([Alt r Emp]); the patterns of the program need no more. *)

Inductive regex :=
| Emp                                   (* the empty pattern *)
| Bol                                   (* [^] without MULTILINE *)
| Cls (p : char -> bool)                (* one character of a class *)
| Rep (p : char -> bool) (lo : nat) (hi : option nat) (greedy : bool)
                                        (* class{lo,hi}, class*, class+? ... *)
| Cat (r1 r2 : regex)
| Alt (r1 r2 : regex)                   (* r1|r2 *)
| Grp (name : N) (r : regex).           (* a capturing group *)

(** Spans of the groups that took part, most recent first. *)
Definition spans := list (N * (nat * nat)).

Definition below (n : nat) (hi : option nat) : bool :=
  match hi with
  | Some h => (n <? h)%nat
  | None => true
  end.

Fixpoint rep_match {A} (p : char -> bool) (lo : nat) (hi : option nat)
    (greedy : bool) (k : nat -> pystr -> spans -> option A)
    (n pos : nat) (s : pystr) (cs : spans) {struct s} : option A :=
  if greedy then
    match
      match s with
      | c :: s' =>
          if p c && below n hi
          then rep_match p lo hi greedy k (S n) (S pos) s' cs
          else None
      | [] => None
      end
    with
    | Some x => Some x
    | None => if (lo <=? n)%nat then k pos s cs else None
    end
  else
    match (if (lo <=? n)%nat then k pos s cs else None) with
    | Some x => Some x
    | None =>
        match s with
        | c :: s' =>
            if p c && below n hi
            then rep_match p lo hi greedy k (S n) (S pos) s' cs
            else None
        | [] => None
        end
    end.

(** [rmatch r k pos s cs]: match [r] at offset [pos], where [s] is the rest
    of the subject, and hand the new offset, rest and spans to [k]. *)
Fixpoint rmatch {A} (r : regex) (k : nat -> pystr -> spans -> option A)
    (pos : nat) (s : pystr) (cs : spans) : option A :=
  match r with
  | Emp => k pos s cs
  | Bol => if (pos =? 0)%nat then k pos s cs else None
  | Cls p =>
      match s with
      | c :: s' => if p c then k (S pos) s' cs else None
      | [] => None
      end
  | Rep p lo hi greedy => rep_match p lo hi greedy k 0 pos s cs
  | Cat r1 r2 => rmatch r1 (rmatch r2 k) pos s cs
  | Alt r1 r2 =>
      match rmatch r1 k pos s cs with
      | Some x => Some x
      | None => rmatch r2 k pos s cs
      end
  | Grp name r =>
      rmatch r (fun pos' s' cs' => k pos' s' ((name, (pos, pos')) :: cs'))
             pos s cs
  end.

(** A match object. *)
Record Match := {
  m_string : pystr;
  m_end : nat;
  m_spans : spans
}.

Fixpoint span_of (name : N) (cs : spans) : option (nat * nat) :=
  match cs with
  | [] => None
  | (n, sp) :: cs' => if N.eqb n name then Some sp else span_of name cs'
  end.

(** [match.group(name)]; [None] when the group took no part. *)
Definition group (m : Match) (name : N) : option pystr :=
  match span_of name (m_spans m) with
  | Some (a, b) => Some (firstn (b - a) (skipn a (m_string m)))
  | None => None
  end.

Definition match_at (r : regex) (subject : pystr) (pos : nat) (s : pystr)
    : option Match :=
  rmatch r (fun pos' _ cs =>
              Some {| m_string := subject; m_end := pos'; m_spans := cs |})
         pos s [].

(** [pattern.match(s)] *)
Definition re_match (r : regex) (s : pystr) : option Match :=
  match_at r s 0 s.

Fixpoint search_from (r : regex) (subject : pystr) (pos : nat) (s : pystr)
    : option Match :=
  match match_at r subject pos s with
  | Some m => Some m
  | None =>
      match s with
      | [] => None
      | _ :: s' => search_from r subject (S pos) s'
      end
  end.

(** [pattern.search(s)]: the leftmost start at which the pattern matches. *)
Definition re_search (r : regex) (s : pystr) : option Match :=
  search_from r s 0 s.

(** [pattern.sub("", s)] for a pattern that is one character class. *)
Definition sub_empty (cls : char -> bool) (s : pystr) : pystr :=
  filter (fun c => negb (cls c)) s.

(** Pattern building blocks. *)
Definition Chr (a : ascii) : regex := Cls (N.eqb (N_of_ascii a)).
Definition set_of (s : string) : char -> bool := char_in (lit s).
Definition range (lo hi : ascii) : char -> bool :=
  fun c => ((N_of_ascii lo <=? c) && (c <=? N_of_ascii hi))%N.
Definition Rng (lo hi : ascii) : regex := Cls (range lo hi).
Definition any_char : char -> bool := fun _ => true.
Definition cat (rs : list regex) : regex := fold_right Cat Emp rs.
Definition alt (r : regex) (rs : list regex) : regex :=
  fold_left Alt rs r.
Definition opt (r : regex) : regex := Alt r Emp.
Definition star (p : char -> bool) : regex := Rep p 0 None true.
Definition plus (p : char -> bool) : regex := Rep p 1 None true.
Definition times (p : char -> bool) (lo hi : nat) : regex :=
  Rep p lo (Some hi) true.

(** [\d] *)
Definition digit (U : Unicode) : char -> bool :=
  fun c => is_some (decimal U c).

(* ================================================================= *)
(** ** [datetime.strptime] ([_strptime.py]), for the directives and literal
    characters that occur in [_DATE_FORMATS], in the C locale *)

Definition key (a : ascii) : N := N_of_ascii a.

(** [TimeRE.__init__]: the pattern of a directive.  The format regex is
    compiled with IGNORECASE, which matters for [%p] only. *)
Definition directive_regex (U : Unicode) (d : char) : option regex :=
  let D := Cls (digit U) in
  if N.eqb d (key "d") then
    (* 3[0-1]|[1-2]\d|0[1-9]|[1-9]| [1-9] *)
    Some (Grp (key "d")
            (alt (Cat (Chr "3") (Rng "0" "1"))
                 [Cat (Rng "1" "2") D; Cat (Chr "0") (Rng "1" "9");
                  Rng "1" "9"; Cat (Chr " ") (Rng "1" "9")]))
  else if N.eqb d (key "H") then
    (* 2[0-3]|[0-1]\d|\d *)
    Some (Grp (key "H")
            (alt (Cat (Chr "2") (Rng "0" "3")) [Cat (Rng "0" "1") D; D]))
  else if N.eqb d (key "I") then
    (* 1[0-2]|0[1-9]|[1-9] *)
    Some (Grp (key "I")
            (alt (Cat (Chr "1") (Rng "0" "2"))
                 [Cat (Chr "0") (Rng "1" "9"); Rng "1" "9"]))
  else if N.eqb d (key "m") then
    (* 1[0-2]|0[1-9]|[1-9] *)
    Some (Grp (key "m")
            (alt (Cat (Chr "1") (Rng "0" "2"))
                 [Cat (Chr "0") (Rng "1" "9"); Rng "1" "9"]))
  else if N.eqb d (key "M") then
    (* [0-5]\d|\d *)
    Some (Grp (key "M") (alt (Cat (Rng "0" "5") D) [D]))
  else if N.eqb d (key "S") then
    (* 6[0-1]|[0-5]\d|\d *)
    Some (Grp (key "S")
            (alt (Cat (Chr "6") (Rng "0" "1")) [Cat (Rng "0" "5") D; D]))
  else if N.eqb d (key "y") then
    (* \d\d *)
    Some (Grp (key "y") (Cat D D))
  else if N.eqb d (key "Y") then
    (* \d\d\d\d *)
    Some (Grp (key "Y") (cat [D; D; D; D]))
  else if N.eqb d (key "p") then
    (* am|pm, whatever the case of the letters *)
    Some (Grp (key "p")
            (alt (Cat (Cls (set_of "aA")) (Cls (set_of "mM")))
                 [Cat (Cls (set_of "pP")) (Cls (set_of "mM"))]))
  else None.

(** [TimeRE.pattern]: a run of whitespace in the format becomes [\s+], a
    directive its pattern, any other character itself.  [None] is the
    [ValueError] for a bad directive or a stray [%]. *)
Fixpoint format_regex (U : Unicode) (in_ws : bool) (format : pystr)
    : option regex :=
  match format with
  | [] => Some Emp
  | c :: format' =>
      if N.eqb c (key "%") then
        match format' with
        | d :: format'' =>
            match directive_regex U d, format_regex U false format'' with
            | Some r, Some rs => Some (Cat r rs)
            | _, _ => None
            end
        | [] => None
        end
      else
        match format_regex U (py_isspace c) format' with
        | Some rs =>
            Some (if py_isspace c
                  then (if in_ws then rs else Cat (plus py_isspace) rs)
                  else Cat (Cls (N.eqb c)) rs)
        | None => None
        end
  end.

Fixpoint digits_value (U : Unicode) (acc : Z) (s : pystr) : option Z :=
  match s with
  | [] => Some acc
  | c :: s' =>
      match decimal U c with
      | Some v => digits_value U (acc * 10 + v) s'
      | None => None
      end
  end.

(** [int(s)] for a string of decimal digits, surrounding whitespace
    allowed; [None] is the [ValueError]. *)
Definition py_int (U : Unicode) (s : pystr) : option Z :=
  match strip s with
  | [] => None
  | t => digits_value U 0 t
  end.

(** The locals of [_strptime] that the directives above assign. *)
Record tm := {
  tm_year : option Z; tm_month : Z; tm_day : Z;
  tm_hour : Z; tm_minute : Z; tm_second : Z
}.

Definition tm_start : tm :=
  {| tm_year := None; tm_month := 1; tm_day := 1;
     tm_hour := 0; tm_minute := 0; tm_second := 0 |}.

Definition set_year (t : tm) (v : Z) : tm :=
  {| tm_year := Some v; tm_month := tm_month t; tm_day := tm_day t;
     tm_hour := tm_hour t; tm_minute := tm_minute t;
     tm_second := tm_second t |}.
Definition set_month (t : tm) (v : Z) : tm :=
  {| tm_year := tm_year t; tm_month := v; tm_day := tm_day t;
     tm_hour := tm_hour t; tm_minute := tm_minute t;
     tm_second := tm_second t |}.
Definition set_day (t : tm) (v : Z) : tm :=
  {| tm_year := tm_year t; tm_month := tm_month t; tm_day := v;
     tm_hour := tm_hour t; tm_minute := tm_minute t;
     tm_second := tm_second t |}.
Definition set_hour (t : tm) (v : Z) : tm :=
  {| tm_year := tm_year t; tm_month := tm_month t; tm_day := tm_day t;
     tm_hour := v; tm_minute := tm_minute t; tm_second := tm_second t |}.
Definition set_minute (t : tm) (v : Z) : tm :=
  {| tm_year := tm_year t; tm_month := tm_month t; tm_day := tm_day t;
     tm_hour := tm_hour t; tm_minute := v; tm_second := tm_second t |}.
Definition set_second (t : tm) (v : Z) : tm :=
  {| tm_year := tm_year t; tm_month := tm_month t; tm_day := tm_day t;
     tm_hour := tm_hour t; tm_minute := tm_minute t; tm_second := v |}.

(** One turn of [for group_key in found_dict.keys()]: every group but
    [p] is a number. *)
Definition assign (U : Unicode) (found : Match) (acc : option tm)
    (group_key : N) : option tm :=
  match acc, group found group_key with
  | Some t, Some text =>
      if N.eqb group_key (key "p") then Some t
      else
        match py_int U text with
        | None => None
        | Some v =>
            if N.eqb group_key (key "y") then
              Some (set_year t (if v <=? 68 then v + 2000 else v + 1900))
            else if N.eqb group_key (key "Y") then Some (set_year t v)
            else if N.eqb group_key (key "m") then Some (set_month t v)
            else if N.eqb group_key (key "d") then Some (set_day t v)
            else if N.eqb group_key (key "H") then Some (set_hour t v)
            else if N.eqb group_key (key "I") then
              let ampm :=
                match group found (key "p") with
                | Some p => str_lower U p
                | None => []
                end in
              if pystr_eqb ampm [] || pystr_eqb ampm (lit "am")
              then Some (set_hour t (if v =? 12 then 0 else v))
              else if pystr_eqb ampm (lit "pm")
              then Some (set_hour t (if v =? 12 then v else v + 12))
              else Some (set_hour t v)
            else if N.eqb group_key (key "M") then Some (set_minute t v)
            else if N.eqb group_key (key "S") then Some (set_second t v)
            else Some t
        end
  | _, _ => None
  end.

Definition is_leap (y : Z) : bool :=
  (y mod 4 =? 0) && (negb (y mod 100 =? 0) || (y mod 400 =? 0)).

Definition days_in_month (y m : Z) : Z :=
  if m =? 2 then (if is_leap y then 29 else 28)
  else if (m =? 4) || (m =? 6) || (m =? 9) || (m =? 11) then 30
  else 31.

(** The range checks of the [date] and [datetime] constructors. *)
Definition valid_datetime (y mo d h mi s : Z) : bool :=
  (1 <=? y) && (y <=? 9999) && (1 <=? mo) && (mo <=? 12)
  && (1 <=? d) && (d <=? days_in_month y mo)
  && (0 <=? h) && (h <=? 23) && (0 <=? mi) && (mi <=? 59)
  && (0 <=? s) && (s <=? 59).

(** [datetime.strptime(data_string, format)]; [None] is its [ValueError].
    The keys of [found_dict] are visited in the order of the groups in the
    pattern, which is the order in which the spans were recorded.  A format
    without a year gives 1900. *)
Definition strptime (U : Unicode) (data_string format : pystr)
    : option datetime :=
  match format_regex U false format with
  | None => None
  | Some pattern =>
      match re_match pattern data_string with
      | None => None
      | Some found =>
          if negb (length data_string =? m_end found)%nat then None
          else
            match fold_left (assign U found)
                            (rev (map fst (m_spans found))) (Some tm_start)
            with
            | None => None
            | Some t =>
                let y := match tm_year t with Some y => y | None => 1900 end in
                if valid_datetime y (tm_month t) (tm_day t)
                                  (tm_hour t) (tm_minute t) (tm_second t)
                then Some {| year := y; month := tm_month t; day := tm_day t;
                             hour := tm_hour t; minute := tm_minute t;
                             second := tm_second t; microsecond := 0 |}
                else None
            end
      end
  end.

(** The first [Some] that [f] gives along [l]: a [for] loop that returns
    from its body. *)
Fixpoint first_some {A B} (f : A -> option B) (l : list A) : option B :=
  match l with
  | [] => None
  | a :: l' =>
      match f a with
      | Some b => Some b
      | None => first_some f l'
      end
  end.

(* ================================================================= *)
(** ** What the program asks of its environment

    The file system and the extraction libraries are collaborators of the
    program, not part of it: each is a field of [Env].  [Path.exists] and
    [Path.is_file] answer [False] for a path that is not there, and raise
    [OSError] where the operating system refuses the question, as it does
    for a name that is too long. *)

Inductive exn := ValueError | ExtractionError | OSError.

Inductive result (A : Type) :=
| Ok (a : A)
| Raise (e : exn).
Arguments Ok {A} a.
Arguments Raise {A} e.

Record Env := {
  (** [Path(source).suffix] *)
  path_suffix : pystr -> pystr;
  (** [Path(source).exists()] *)
  path_exists : pystr -> result bool;
  (** [Path(source).is_file()] *)
  path_is_file : pystr -> result bool;
  (** [path.read_bytes()] decoded by the first encoding that accepts it *)
  read_file : pystr -> result pystr;
  (** [page.extract_text()] of every page of a PDF, with pdfplumber *)
  pdf_pages : pystr -> result (list pystr);
  (** [para.text] of every paragraph of a DOCX document *)
  docx_paragraphs : pystr -> result (list pystr);
  (** the answer of the vision model, [None] on any exception *)
  llava_response : pystr -> option pystr;
  (** [pytesseract.image_to_string], [None] on any exception *)
  ocr_string : pystr -> option pystr
}.

(** [BaseParser]: the two abstract methods. *)
Record BaseParser := {
  can_handle : pystr -> result bool;
  parse : pystr -> result Conversation
}.

(** [a and b] for a test [b] that may raise: [b] is evaluated when [a] is
    true, and only then. *)
Definition and_then (a : bool) (b : result bool) : result bool :=
  if a then b else Ok false.

(* ================================================================= *)
(** ** parsers/text_parser.py *)

(** The character class of the pattern [_UNICODE_JUNK]: U+200E, U+200F,
    U+202A, U+202B, U+202C, U+200B, U+200D, U+FEFF. *)
Definition _UNICODE_JUNK : char -> bool :=
  char_in [0x200e; 0x200f; 0x202a; 0x202b; 0x202c; 0x200b; 0x200d; 0xfeff]%N.

(** [[-–—]]: hyphen-minus, en dash (U+2013), em dash (U+2014). *)
Definition dash : char -> bool := char_in [0x2d; 0x2013; 0x2014]%N.

Definition _PATTERNS (U : Unicode) : list regex :=
  let d := digit U in
  let s := py_isspace in
  [ (* ^\[(\d{1,2}:\d{2}(?::\d{2})?(?:\s*[APap][Mm])?),\s+
        (\d{1,2}/\d{1,2}/\d{2,4})\]\s+ *)
    cat [Bol; Chr "[";
         Grp 1 (cat [times d 1 2; Chr ":"; times d 2 2;
                     opt (cat [Chr ":"; times d 2 2]);
                     opt (cat [star s; Cls (set_of "APap");
                               Cls (set_of "Mm")])]);
         Chr ","; plus s;
         Grp 2 (cat [times d 1 2; Chr "/"; times d 1 2; Chr "/";
                     times d 2 4]);
         Chr "]"; plus s];
    (* ^\[(\d{1,2}/\d{1,2}/\d{2,4}),\s+
        (\d{1,2}:\d{2}(?::\d{2})?(?:\s*[APap][Mm])?)\]\s+ *)
    cat [Bol; Chr "[";
         Grp 1 (cat [times d 1 2; Chr "/"; times d 1 2; Chr "/";
                     times d 2 4]);
         Chr ","; plus s;
         Grp 2 (cat [times d 1 2; Chr ":"; times d 2 2;
                     opt (cat [Chr ":"; times d 2 2]);
                     opt (cat [star s; Cls (set_of "APap");
                               Cls (set_of "Mm")])]);
         Chr "]"; plus s];
    (* ^(\d{1,2}/\d{1,2}/\d{2,4}),\s+
        (\d{1,2}:\d{2}(?::\d{2})?\s*[APap][Mm]?)\s+[-–—]\s+ *)
    cat [Bol;
         Grp 1 (cat [times d 1 2; Chr "/"; times d 1 2; Chr "/";
                     times d 2 4]);
         Chr ","; plus s;
         Grp 2 (cat [times d 1 2; Chr ":"; times d 2 2;
                     opt (cat [Chr ":"; times d 2 2]);
                     star s; Cls (set_of "APap");
                     times (set_of "Mm") 0 1]);
         plus s; Cls dash; plus s];
    (* ^(\d{1,2}/\d{1,2}/\d{2,4}),\s+(\d{1,2}:\d{2}(?::\d{2})?)\s+[-–—]\s+ *)
    cat [Bol;
         Grp 1 (cat [times d 1 2; Chr "/"; times d 1 2; Chr "/";
                     times d 2 4]);
         Chr ","; plus s;
         Grp 2 (cat [times d 1 2; Chr ":"; times d 2 2;
                     opt (cat [Chr ":"; times d 2 2])]);
         plus s; Cls dash; plus s] ].

Definition _DATE_FORMATS : list pystr :=
  [ lit "%d/%m/%Y, %H:%M";
    lit "%d/%m/%Y, %H:%M:%S";
    lit "%m/%d/%Y, %I:%M %p";
    lit "%m/%d/%Y, %I:%M:%S %p";
    lit "%d/%m/%y, %H:%M";
    lit "%d/%m/%y, %H:%M:%S";
    lit "%m/%d/%y, %I:%M %p";
    lit "%m/%d/%y, %I:%M:%S %p";
    lit "%d/%m/%Y, %I:%M %p";
    lit "%d/%m/%Y, %I:%M:%S %p" ].

(** [_TIME_FIRST_PATTERN = _PATTERNS[0]]: a pattern object is identified by
    its index in [_PATTERNS]. *)
Definition _TIME_FIRST_PATTERN : nat := 0%nat.

Definition _SYSTEM_INDICATORS : list pystr :=
  [ lit "messages and calls are end-to-end encrypted";
    lit "created group";
    lit "added you";
    lit "added ";
    lit "removed ";
    lit "left";
    lit "changed the subject";
    lit "changed this group";
    lit "changed the group";
    lit "you were added";
    lit "security code changed";
    lit "joined using this group" ].

Definition _MEDIA_INDICATOR : pystr := lit "<media omitted>".

(** [f"{date_str}, {time_str.strip()}"] *)
Definition combined (date_str time_str : pystr) : pystr :=
  date_str ++ lit ", " ++ strip time_str.

Definition _parse_timestamp (U : Unicode) (date_str time_str : pystr)
    : option datetime :=
  first_some (fun fmt => strptime U (combined date_str time_str) fmt)
             _DATE_FORMATS.

Definition _is_system_message (U : Unicode) (content : pystr) : bool :=
  let lower := str_lower U content in
  existsb (fun indicator => contains lower indicator) _SYSTEM_INDICATORS.

(** The sender pattern: [^], group 1 [[^:]+?], [:\s], group 2 [.] starred,
    with DOTALL. *)
Definition sender_pattern : regex :=
  cat [Bol; Grp 1 (Rep (fun c => negb (N.eqb c (key ":"))) 1 None false);
       Chr ":"; Cls py_isspace; Grp 2 (star any_char)].

Module WhatsAppTextParser.

Definition _clean_line (line : pystr) : pystr :=
  strip (sub_empty _UNICODE_JUNK line).

(** [pattern] is the index in [_PATTERNS] of the pattern that matched.
    Both groups take part in every match of the four patterns and of the
    sender pattern, so the two cases for an absent group are never reached
    ([_try_parse_line_none] below). *)
Definition _extract_message (U : Unicode) (match_ : Match) (line : pystr)
    (pattern : nat) : option ChatMessage :=
  match group match_ 1, group match_ 2 with
  | Some group1, Some group2 =>
      let '(date_str, time_str) :=
        if (pattern =? _TIME_FIRST_PATTERN)%nat
        then (group2, group1)
        else (group1, group2) in
      match _parse_timestamp U date_str time_str with
      | None => None
      | Some timestamp =>
          let rest := skipn (m_end match_) line in
          match re_match sender_pattern rest with
          | Some sender_match =>
              match group sender_match 1, group sender_match 2 with
              | Some g1, Some g2 =>
                  let sender := strip g1 in
                  let content := strip g2 in
                  let is_media :=
                    contains (str_lower U content) _MEDIA_INDICATOR in
                  let is_system := _is_system_message U content in
                  Some {| timestamp := timestamp;
                          sender := sender;
                          content := content;
                          is_system := is_system;
                          is_media := is_media |}
              | _, _ => None
              end
          | None =>
              let content := strip rest in
              Some {| timestamp := timestamp;
                      sender := lit "System";
                      content := content;
                      is_system := true;
                      is_media := false |}
          end
      end
  | _, _ => None
  end.

(** [for pattern in _PATTERNS: match = pattern.match(line); if match:]
    the first pattern that matches, with its index. *)
Fixpoint first_match (patterns : list regex) (index : nat) (line : pystr)
    : option (nat * Match) :=
  match patterns with
  | [] => None
  | pattern :: patterns' =>
      match re_match pattern line with
      | Some m => Some (index, m)
      | None => first_match patterns' (S index) line
      end
  end.

Definition _try_parse_line (U : Unicode) (line : pystr)
    : option ChatMessage :=
  let line := _clean_line line in
  match line with
  | [] => None
  | _ :: _ =>
      match first_match (_PATTERNS U) 0 line with
      | Some (pattern, match_) => _extract_message U match_ line pattern
      | None => None
      end
  end.

(** The variables of the loop in [parse_text]. *)
Record loop := {
  messages_ : list ChatMessage;
  current_msg : option ChatMessage
}.

(** [current_msg.content += "\n" + line] *)
Definition append_line (m : ChatMessage) (line : pystr) : ChatMessage :=
  {| timestamp := timestamp m;
     sender := sender m;
     content := content m ++ NL :: line;
     is_system := is_system m;
     is_media := is_media m |}.

Definition step (U : Unicode) (st : loop) (line : pystr) : loop :=
  match _try_parse_line U line with
  | Some parsed =>
      {| messages_ :=
           match current_msg st with
           | Some m => messages_ st ++ [m]
           | None => messages_ st
           end;
         current_msg := Some parsed |}
  | None =>
      match current_msg st with
      | Some m =>
          {| messages_ := messages_ st;
             current_msg := Some (append_line m line) |}
      | None => st
      end
  end.

Definition start : loop := {| messages_ := []; current_msg := None |}.

Definition finish (st : loop) : Conversation :=
  {| messages :=
       match current_msg st with
       | Some m => messages_ st ++ [m]
       | None => messages_ st
       end |}.

Definition parse_text (U : Unicode) (text : pystr) : Conversation :=
  let lines := split NL text in
  finish (fold_left (step U) lines start).

(** [WhatsAppTextParser.can_handle] *)
Definition can_handle (E : Env) (U : Unicode) (source : pystr)
    : result bool :=
  match and_then (pystr_eqb (path_suffix E source) (lit ".txt"))
                 (path_exists E source) with
  | Raise e => Raise e
  | Ok true => Ok true
  | Ok false =>
      let cleaned := sub_empty _UNICODE_JUNK (firstn 1000 source) in
      Ok (existsb (fun pattern => is_some (re_search pattern cleaned))
                  (_PATTERNS U))
  end.

(** [if path.exists() and path.is_file():] with both tests able to raise. *)
Definition _read_source (E : Env) (source : pystr) : result pystr :=
  match path_exists E source with
  | Raise e => Raise e
  | Ok false => Ok source
  | Ok true =>
      match path_is_file E source with
      | Raise e => Raise e
      | Ok true => read_file E source
      | Ok false => Ok source
      end
  end.

(** [WhatsAppTextParser.parse] *)
Definition parse (E : Env) (U : Unicode) (source : pystr)
    : result Conversation :=
  match _read_source E source with
  | Ok text => Ok (parse_text U text)
  | Raise e => Raise e
  end.

Definition parser (E : Env) (U : Unicode) : BaseParser :=
  Build_BaseParser (can_handle E U) (parse E U).

End WhatsAppTextParser.

(* ================================================================= *)
(** ** parsers/pdf_parser.py, docx_parser.py, image_parser.py *)

Definition nonempty_str (s : pystr) : bool :=
  match s with [] => false | _ :: _ => true end.

Module PDFParser.

Definition can_handle (E : Env) (U : Unicode) (source : pystr)
    : result bool :=
  and_then (pystr_eqb (str_lower U (path_suffix E source)) (lit ".pdf"))
           (path_exists E source).

Definition parse (E : Env) (U : Unicode) (source : pystr)
    : result Conversation :=
  match pdf_pages E source with
  | Ok pages =>
      let text_parts := filter nonempty_str pages in
      let full_text := join NL text_parts in
      Ok (WhatsAppTextParser.parse_text U full_text)
  | Raise e => Raise e
  end.

Definition parser (E : Env) (U : Unicode) : BaseParser :=
  Build_BaseParser (can_handle E U) (parse E U).

End PDFParser.

Module DocxParser.

Definition can_handle (E : Env) (U : Unicode) (source : pystr)
    : result bool :=
  and_then (pystr_eqb (str_lower U (path_suffix E source)) (lit ".docx"))
           (path_exists E source).

Definition parse (E : Env) (U : Unicode) (source : pystr)
    : result Conversation :=
  match docx_paragraphs E source with
  | Ok paragraphs =>
      let text_parts :=
        filter (fun text => nonempty_str (strip text)) paragraphs in
      let full_text := join NL text_parts in
      Ok (WhatsAppTextParser.parse_text U full_text)
  | Raise e => Raise e
  end.

Definition parser (E : Env) (U : Unicode) : BaseParser :=
  Build_BaseParser (can_handle E U) (parse E U).

End DocxParser.

Module ImageParser.

Definition _IMAGE_EXTENSIONS : list pystr :=
  [lit ".png"; lit ".jpg"; lit ".jpeg"; lit ".webp"; lit ".bmp";
   lit ".tiff"].

Definition can_handle (E : Env) (U : Unicode) (source : pystr)
    : result bool :=
  and_then (existsb (pystr_eqb (str_lower U (path_suffix E source)))
                    _IMAGE_EXTENSIONS)
           (path_exists E source).

(** The stripped text, or [None] when there is none. *)
Definition stripped (o : option pystr) : option pystr :=
  match o with
  | Some response =>
      match strip response with
      | [] => None
      | text => Some text
      end
  | None => None
  end.

Definition _try_llava (E : Env) (image_path : pystr) : option pystr :=
  stripped (llava_response E image_path).

Definition _try_ocr (E : Env) (image_path : pystr) : option pystr :=
  stripped (ocr_string E image_path).

Definition parse (E : Env) (U : Unicode) (source : pystr)
    : result Conversation :=
  let text := _try_llava E source in
  let text := match text with Some _ => text | None => _try_ocr E source end in
  match text with
  | None => Ok {| messages := [] |}
  | Some text => Ok (WhatsAppTextParser.parse_text U text)
  end.

Definition parser (E : Env) (U : Unicode) : BaseParser :=
  Build_BaseParser (can_handle E U) (parse E U).

End ImageParser.

(* ================================================================= *)
(** ** analyzer/core.py *)

Module ChatAnalyzer.

Definition _parsers (E : Env) (U : Unicode) : list BaseParser :=
  [ PDFParser.parser E U;
    DocxParser.parser E U;
    ImageParser.parser E U;
    WhatsAppTextParser.parser E U ].

(** The loop of [ChatAnalyzer.parse] over the parsers that are left; what
    a [can_handle] raises leaves the loop. *)
Fixpoint dispatch (parsers : list BaseParser) (source : pystr)
    : result Conversation :=
  match parsers with
  | [] => Raise ValueError
  | parser :: parsers' =>
      match can_handle parser source with
      | Raise e => Raise e
      | Ok true => parse parser source
      | Ok false => dispatch parsers' source
      end
  end.

Definition parse (E : Env) (U : Unicode) (source : pystr)
    : result Conversation :=
  dispatch (_parsers E U) source.

End ChatAnalyzer.

(* ================================================================= *)
(** ** Conversation objects

    A [Conversation] is an object: a call receives a reference to it, and
    [Conversation(messages=...)] allocates a new one.  The store below makes
    this explicit for the two filter methods. *)

Definition store := list Conversation.
Definition ref := nat.

Definition deref (h : store) (r : ref) : option Conversation := nth_error h r.

(** [Conversation(messages=...)]: a fresh object. *)
Definition new_Conversation (h : store) (c : Conversation) : store * ref :=
  (h ++ [c], length h).

Definition call_filter_by_participant (U : Unicode) (h : store) (self : ref)
    (participant : pystr) : option (store * ref) :=
  match deref h self with
  | Some c =>
      Some (new_Conversation h
              (Conversation_.filter_by_participant U c participant))
  | None => None
  end.

Definition call_filter_by_date_range (h : store) (self : ref)
    (start end_ : option datetime) : option (store * ref) :=
  match deref h self with
  | Some c =>
      Some (new_Conversation h
              (Conversation_.filter_by_date_range c start end_))
  | None => None
  end.

(* ================================================================= *)
(** ** The vocabulary of the properties *)

(** [keeps P l l']: [l'] consists of exactly the elements of [l] that
    satisfy [P], as often and in the order in which they occur in [l]. *)
Inductive keeps {A : Type} (P : A -> Prop) : list A -> list A -> Prop :=
| keeps_nil : keeps P [] []
| keeps_take x l l' : P x -> keeps P l l' -> keeps P (x :: l) (x :: l')
| keeps_drop x l l' : ~ P x -> keeps P l l' -> keeps P (x :: l) l'.

(** *** The matcher *)

(** Every match of [r] records a span for the group [name]. *)
Fixpoint binds (name : N) (r : regex) : bool :=
  match r with
  | Grp n r' => N.eqb n name || binds name r'
  | Cat r1 r2 => binds name r1 || binds name r2
  | Alt r1 r2 => binds name r1 && binds name r2
  | _ => false
  end.

Definition has_span (name : N) (cs : spans) : Prop :=
  span_of name cs <> None.

(** A match ends in a call of the continuation; the spans it receives
    contain those there were and those of the groups [r] binds. *)
Definition reaches {A : Type} (r : option regex)
    (k : nat -> pystr -> spans -> option A) (cs : spans) (x : A) : Prop :=
  exists pos' s' cs',
    k pos' s' cs' = Some x
    /\ forall name,
         has_span name cs
         \/ match r with Some r => binds name r = true | None => False end ->
         has_span name cs'.

(** *** The chunker *)

(** Every message the loop has seen so far, in order. *)
Definition seen (st : ConversationChunker.loop) : list ChatMessage :=
  concat (map messages (ConversationChunker.chunks st))
  ++ ConversationChunker.current_messages st.

Definition no_empty (cs : list Conversation) : Prop :=
  Forall (fun c => messages c <> []) cs.

(** The length of the [to_text] of a list of messages. *)
Definition text_len (ms : list ChatMessage) : Z :=
  len (join NL (map ChatMessage_str ms)).

(** The bound on a chunk. *)
Definition bounded (self : ConversationChunker.t) (ms : list ChatMessage)
    : Prop :=
  ((2 <= length ms)%nat -> text_len ms <= ConversationChunker.max_chars self)
  /\ (forall m, In m ms ->
        ConversationChunker.max_chars self < len (ChatMessage_str m) ->
        ms = [m]).

(** The invariant of the loop of [chunk]. *)
Record chunk_inv (self : ConversationChunker.t)
    (st : ConversationChunker.loop) : Prop := {
  inv_chars :
    ConversationChunker.current_chars st =
    match ConversationChunker.current_messages st with
    | [] => 0
    | _ :: _ => text_len (ConversationChunker.current_messages st) + 1
    end;
  inv_current : bounded self (ConversationChunker.current_messages st);
  inv_chunks :
    Forall (fun c => bounded self (messages c)) (ConversationChunker.chunks st)
}.

(** *** The parser *)

(** The lines of a text as the loop of [parse_text] groups them: the lines
    before the first message, then every line that starts a message with
    the message it starts and the lines that follow it. *)
Fixpoint blocks (U : Unicode) (lines : list pystr)
    : list pystr * list (ChatMessage * list pystr) :=
  match lines with
  | [] => ([], [])
  | line :: lines' =>
      let '(continuation, bs) := blocks U lines' in
      match WhatsAppTextParser._try_parse_line U line with
      | Some m => ([], (m, continuation) :: bs)
      | None => (line :: continuation, bs)
      end
  end.

(** A message with its continuation lines appended. *)
Definition with_lines (b : ChatMessage * list pystr) : ChatMessage :=
  fold_left WhatsAppTextParser.append_line (snd b) (fst b).

(** The prefix of the line matches a timestamp pattern, and [date_str] and
    [time_str] are what the first pattern that matches captures: the groups
    1 and 2, the other way round for the time-first pattern. *)
Definition captured (U : Unicode) (line date_str time_str : pystr) : Prop :=
  exists pattern match_ group1 group2,
    WhatsAppTextParser.first_match (_PATTERNS U) 0
      (WhatsAppTextParser._clean_line line) = Some (pattern, match_)
    /\ group match_ 1 = Some group1
    /\ group match_ 2 = Some group2
    /\ date_str
       = (if (pattern =? _TIME_FIRST_PATTERN)%nat then group2 else group1)
    /\ time_str
       = (if (pattern =? _TIME_FIRST_PATTERN)%nat then group1 else group2).

(** The prefix of the line matches a timestamp pattern, but the captured
    text parses under none of the formats. *)
Definition fails_all_formats (U : Unicode) (line : pystr) : Prop :=
  exists date_str time_str,
    captured U line date_str time_str
    /\ forall fmt, In fmt _DATE_FORMATS ->
         strptime U (combined date_str time_str) fmt = None.

(** What is left of a line after the timestamp prefix. *)
Definition rest_of_line (U : Unicode) (line : pystr) : option pystr :=
  let line := WhatsAppTextParser._clean_line line in
  match WhatsAppTextParser.first_match (_PATTERNS U) 0 line with
  | Some (_, match_) => Some (skipn (m_end match_) line)
  | None => None
  end.

(** The string does not start with whitespace. *)
Definition starts_clean (s : pystr) : Prop :=
  match s with
  | c :: _ => py_isspace c = false
  | [] => True
  end.

(** The rest of the line has the form [Sender: content]. *)
Definition has_sender (rest : pystr) : bool :=
  is_some (re_match sender_pattern rest).

(** *** The dispatch *)

(** The suffix is one that some parser accepts for an existing path. *)
Definition handled_extension (U : Unicode) (suffix : pystr) : bool :=
  pystr_eqb suffix (lit ".txt")
  || pystr_eqb (str_lower U suffix) (lit ".pdf")
  || pystr_eqb (str_lower U suffix) (lit ".docx")
  || existsb (pystr_eqb (str_lower U suffix)) ImageParser._IMAGE_EXTENSIONS.

(** The text has no match of any timestamp pattern in its first 1000
    characters, invisible marks removed. *)
Definition no_timestamp (U : Unicode) (source : pystr) : Prop :=
  forall pattern, In pattern (_PATTERNS U) ->
    re_search pattern (sub_empty _UNICODE_JUNK (firstn 1000 source)) = None.

(* ================================================================= *)
(** ** Values used in the examples *)

(** [datetime(2024, 1, 12, h, mi)] *)
Definition jan12 (h mi : Z) : datetime :=
  {| year := 2024; month := 1; day := 12;
     hour := h; minute := mi; second := 0; microsecond := 0 |}.

(** [ChatMessage(timestamp, sender, content)] with the default flags. *)
Definition user_message (timestamp : datetime) (sender content : string)
    : ChatMessage :=
  {| timestamp := timestamp; sender := lit sender; content := lit content;
     is_system := false; is_media := false |}.

Definition system_message (timestamp : datetime) (content : string)
    : ChatMessage :=
  {| timestamp := timestamp; sender := lit "System"; content := lit content;
     is_system := true; is_media := false |}.

Definition msg_encrypted : ChatMessage :=
  system_message (jan12 9 0) "Messages and calls are end-to-end encrypted.".
Definition msg_alice : ChatMessage :=
  user_message (jan12 9 1) "Alice" "Hey everyone!".
Definition msg_bob : ChatMessage :=
  user_message (jan12 9 2) "Bob" "Hi Alice!".
Definition msg_ALICE : ChatMessage :=
  user_message (jan12 9 3) "ALICE" "Here is the plan".

Definition sample_conversation : Conversation :=
  {| messages := [msg_encrypted; msg_alice; msg_bob; msg_ALICE] |}.

Definition small_chunker : ConversationChunker.t :=
  {| ConversationChunker.max_chars := 80 |}.

(** The transcript of the specification's parser example. *)
Definition two_lines : pystr :=
  lit "12/01/2024, 09:01 - Alice: Hey everyone!" ++ [NL]
  ++ lit "12/01/2024, 09:02 - Bob: Hi Alice!" ++ [NL].

(** A message whose second line carries a left-to-right mark (U+200E) and
    blanks at both ends. *)
Definition marked_continuation : pystr :=
  lit "12/01/2024, 09:01 - Alice: Here is the plan:" ++ [NL]
  ++ [0x200e%N] ++ lit "  1. Design phase  ".

(** A placeholder line without a sender. *)
Definition media_without_sender : pystr :=
  lit "12/01/2024, 09:05 - <Media omitted>".

(** A placeholder on the second line of a message. *)
Definition media_on_second_line : pystr :=
  lit "12/01/2024, 09:05 - Charlie: Look at this" ++ [NL]
  ++ lit "<Media omitted>".

(** Month 31 matches the pattern and parses under no format. *)
Definition bad_date_line : pystr := lit "31/31/2024, 09:01 - Bob: hi".

Definition text_with_bad_date : pystr :=
  lit "12/01/2024, 09:01 - Alice: hi" ++ [NL] ++ bad_date_line.

(** An environment without files and without working extractors. *)
Definition no_files : Env :=
  {| path_suffix := fun _ => [];
     path_exists := fun _ => Ok false;
     path_is_file := fun _ => Ok false;
     read_file := fun _ => Raise ExtractionError;
     pdf_pages := fun _ => Raise ExtractionError;
     docx_paragraphs := fun _ => Raise ExtractionError;
     llava_response := fun _ => None;
     ocr_string := fun _ => None |}.

(** Charlie's placeholder line of the test transcript. *)
Definition media_with_sender : pystr :=
  lit "12/01/2024, 09:05 - Charlie: <Media omitted>".




(** The message [parse_text] makes of [marked_continuation]. *)
Definition raw_second_line : pystr := [0x200e%N] ++ lit "  1. Design phase  ".

Definition msg_plan : ChatMessage :=
  {| timestamp := jan12 9 1;
     sender := lit "Alice";
     content := lit "Here is the plan:" ++ [NL] ++ raw_second_line;
     is_system := false;
     is_media := false |}.

(** The messages [parse_text] makes of [media_with_sender] and of
    [media_without_sender]. *)
Definition msg_media : ChatMessage :=
  {| timestamp := jan12 9 5;
     sender := lit "Charlie";
     content := lit "<Media omitted>";
     is_system := false;
     is_media := true |}.

Definition msg_media_system : ChatMessage :=
  {| timestamp := jan12 9 5;
     sender := lit "System";
     content := lit "<Media omitted>";
     is_system := true;
     is_media := false |}.


(** *** ASCII text *)

Definition is_ascii (c : char) : Prop := (c < 128)%N.

Definition ascii_text (s : pystr) : Prop := forall c, In c s -> is_ascii c.

(** The tables of the runtime are those of [ascii_unicode] as far as ASCII
    goes, as the tables of CPython are. *)
Definition agrees_on_ascii (U : Unicode) : Prop :=
  (forall c, is_ascii c -> decimal U c = ascii_decimal c)
  /\ (forall s, ascii_text s -> str_lower U s = map ascii_lower_char s).

(** Two patterns of the same shape whose classes have the same ASCII
    members. *)
Inductive same_on_ascii : regex -> regex -> Prop :=
| same_Emp : same_on_ascii Emp Emp
| same_Bol : same_on_ascii Bol Bol
| same_Cls p q :
    (forall c, is_ascii c -> p c = q c) -> same_on_ascii (Cls p) (Cls q)
| same_Rep p q lo hi greedy :
    (forall c, is_ascii c -> p c = q c) ->
    same_on_ascii (Rep p lo hi greedy) (Rep q lo hi greedy)
| same_Cat r1 r1' r2 r2' :
    same_on_ascii r1 r1' -> same_on_ascii r2 r2' ->
    same_on_ascii (Cat r1 r2) (Cat r1' r2')
| same_Alt r1 r1' r2 r2' :
    same_on_ascii r1 r1' -> same_on_ascii r2 r2' ->
    same_on_ascii (Alt r1 r2) (Alt r1' r2')
| same_Grp name r r' :
    same_on_ascii r r' -> same_on_ascii (Grp name r) (Grp name r').

Definition same_option (a b : option regex) : Prop :=
  match a, b with
  | Some r, Some r' => same_on_ascii r r'
  | None, None => True
  | _, _ => False
  end.


(** [ascii_text], as a test. *)
Definition ascii_textb (s : pystr) : bool :=
  forallb (fun c => (c <? 128)%N) s.


(* ================================================================= *)
(** ** More vocabulary: the chunker *)

(** The first message of [later] did not fit into [earlier]: with it, the
    text of [earlier] would be longer than [max_chars]. *)
Definition overflows (self : ConversationChunker.t)
    (later earlier : list ChatMessage) : Prop :=
  forall m ms,
    later = m :: ms ->
    ConversationChunker.max_chars self
    < text_len earlier + 1 + len (ChatMessage_str m).

(** The invariant of the loop of [chunk] on neighbouring chunks, the
    current one first. *)
Definition greedy_inv (self : ConversationChunker.t)
    (st : ConversationChunker.loop) : Prop :=
  Sorted (overflows self)
         (ConversationChunker.current_messages st
          :: rev (map messages (ConversationChunker.chunks st)))
  /\ (ConversationChunker.current_messages st = [] ->
      ConversationChunker.chunks st = []).


(** The state of the loop of [chunk] while nothing has been closed. *)
Definition open_state (done : list ChatMessage) : ConversationChunker.loop :=
  {| ConversationChunker.chunks := [];
     ConversationChunker.current_messages := done;
     ConversationChunker.current_chars :=
       match done with
       | [] => 0
       | _ :: _ => text_len done + 1
       end |}.


(* ================================================================= *)
(** ** models/message.py: the properties of a [Conversation] *)

(** The order of [str]: code point by code point, a proper prefix first. *)
Fixpoint str_compare (a b : pystr) : comparison :=
  match a, b with
  | [], [] => Eq
  | [], _ :: _ => Lt
  | _ :: _, [] => Gt
  | x :: a', y :: b' =>
      match N.compare x y with
      | Eq => str_compare a' b'
      | c => c
      end
  end.

(** [a < b] on strings. *)
Definition str_lt (a b : pystr) : bool :=
  match str_compare a b with Lt => true | _ => false end.

(** A set of strings built from an iterable: its elements, each once.  The
    order in which Python iterates over a set is not defined; the list
    [sorted] makes of it does not depend on that order
    ([sorted_of_set_unique]). *)
Fixpoint py_set (l : list pystr) : list pystr :=
  match l with
  | [] => []
  | x :: l' =>
      if existsb (pystr_eqb x) (py_set l') then py_set l' else x :: py_set l'
  end.

(** [sorted]: a stable sort that compares with [<]. *)
Fixpoint insort (x : pystr) (l : list pystr) : list pystr :=
  match l with
  | [] => [x]
  | y :: l' => if str_lt y x then y :: insort x l' else x :: l
  end.

Definition sorted (l : list pystr) : list pystr := fold_right insort [] l.

Module ConversationProps.

(** [Conversation.participants] *)
Definition participants (self : Conversation) : list pystr :=
  sorted (py_set (map sender
                      (filter (fun m => negb (is_system m)) (messages self)))).

(** [Conversation.start_date] *)
Definition start_date (self : Conversation) : option datetime :=
  match messages self with
  | [] => None
  | m :: _ => Some (timestamp m)
  end.

(** [Conversation.end_date]: [messages[-1]] is the last message. *)
Definition end_date (self : Conversation) : option datetime :=
  match messages self with
  | [] => None
  | m :: ms => Some (timestamp (last ms m))
  end.

(** [Conversation.__len__] *)
Definition __len__ (self : Conversation) : Z :=
  Z.of_nat (length (messages self)).

End ConversationProps.

(** *** The vocabulary of their properties *)

(** Strictly ascending in the order of [str]. *)
Definition ascending (l : list pystr) : Prop :=
  StronglySorted (fun a b => str_lt a b = true) l.

(** Every message is at least as late as the one before it. *)
Definition chronological (c : Conversation) : Prop :=
  Sorted (fun a b => dt_le (timestamp a) (timestamp b) = true) (messages c).

(** What [filter_by_participant] asks of a message. *)
Definition from_participant (U : Unicode) (p : pystr) (m : ChatMessage)
    : Prop :=
  str_lower U (sender m) = str_lower U p \/ is_system m = true.

(** What [filter_by_date_range] asks of a message. *)
Definition within (start end_ : option datetime) (d : datetime) : Prop :=
  (forall s, start = Some s -> dt_le s d = true)
  /\ (forall e, end_ = Some e -> dt_le d e = true).


(* ================================================================= *)
(** ** More vocabulary: the parser *)

Definition COLON : char := key ":".

(** The text after the timestamp has the form the sender pattern asks
    for: a name of at least one character and without a colon, a colon, a
    whitespace character, the text of the message. *)
Definition sender_form (rest name text : pystr) (w : char) : Prop :=
  rest = name ++ COLON :: w :: text
  /\ name <> []
  /\ ~ In COLON name
  /\ py_isspace w = true.

(** The string does not end with whitespace. *)
Definition ends_clean (s : pystr) : Prop := starts_clean (rev s).

(** The pattern ends with [\s+]. *)
Definition ends_with_spaces (pattern : regex) : Prop :=
  exists front, pattern = cat (front ++ [plus py_isspace]).

(** The first line of the text starts a message. *)
Definition starts_message (U : Unicode) (text : pystr) : Prop :=
  exists m,
    WhatsAppTextParser._try_parse_line U (hd [] (split NL text)) = Some m.

(** The lines of a text that start a message. *)
Definition message_lines (U : Unicode) (text : pystr) : list pystr :=
  filter (fun line => is_some (WhatsAppTextParser._try_parse_line U line))
         (split NL text).

(** A PDF of three pages, the second without text. *)
Definition three_pages : list pystr :=
  [ lit "12/01/2024, 09:01 - Alice: Hey everyone!";
    [];
    lit "12/01/2024, 09:02 - Bob: Hi Alice!" ].

Definition pdf_file : Env :=
  {| path_suffix := fun _ => lit ".pdf";
     path_exists := fun _ => Ok true;
     path_is_file := fun _ => Ok true;
     read_file := fun _ => Raise ExtractionError;
     pdf_pages := fun _ => Ok three_pages;
     docx_paragraphs := fun _ => Raise ExtractionError;
     llava_response := fun _ => None;
     ocr_string := fun _ => None |}.


(* ================================================================= *)
(** ** analyzer/core.py: reading the answers of the model

    [str.isdigit] is one more lookup in the Unicode database of the
    runtime; it is the parameter [isdigit] of what follows. *)

(** [s.isdigit()]: [s] is not empty and every character is a digit. *)
Definition str_isdigit (isdigit : char -> bool) (s : pystr) : bool :=
  nonempty_str s && forallb isdigit s.

(** [c in ".)"] for a string [c] of one character. *)
Definition dot_or_paren (c : pystr) : bool :=
  pystr_eqb c (lit ".") || pystr_eqb c (lit ")").

(** [s[i]] where [i < len(s)], as the string of one character it is. *)
Definition item (s : pystr) (i : nat) : pystr := firstn 1 (skipn i s).

(** The [if]/[elif] chain of [_parse_list]: the line without its marker;
    [None] is the [continue]. *)
Definition without_marker (isdigit : char -> bool) (line : pystr)
    : option pystr :=
  if startswith line (lit "- ") then Some (skipn 2 line)
  else if startswith line (lit "* ") then Some (skipn 2 line)
  else if (2 <? len line) && str_isdigit isdigit (item line 0)
          && dot_or_paren (item line 1)
  then Some (skipn 2 line)
  else if (3 <? len line) && str_isdigit isdigit (firstn 2 line)
          && dot_or_paren (item line 2)
  then Some (skipn 3 line)
  else None.

(** The body of the loop of [_parse_list]. *)
Definition list_step (isdigit : char -> bool) (items : list pystr)
    (line : pystr) : list pystr :=
  let line := strip line in
  match without_marker isdigit line with
  | None => items
  | Some line =>
      let line := strip line in
      if nonempty_str line then items ++ [line] else items
  end.

(** [ChatAnalyzer._parse_list] *)
Definition _parse_list (isdigit : char -> bool) (raw : pystr) : list pystr :=
  fold_left (list_step isdigit) (split NL (strip raw)) [].

(** The digits 0 to 9, which every runtime counts as digits. *)
Definition ascii_isdigit (c : char) : bool := ((48 <=? c) && (c <=? 57))%N.

(** *** The vocabulary of the properties *)

(** What [_parse_list] returns as an item: a line that is not empty and
    has no whitespace at either end. *)
Definition list_item (s : pystr) : Prop :=
  s <> [] /\ strip s = s /\ ~ In NL s.

(** A list with a dash before each item, one on a line. *)
Definition bullets (items : list pystr) : pystr :=
  join NL (map (fun s => lit "- " ++ s) items).

(* ================================================================= *)
(** ** models/analysis.py *)

(** A [dict] from strings to strings, in the order of insertion. *)
Definition dict := list (pystr * pystr).

(** [key in d] *)
Definition dict_has (d : dict) (key : pystr) : bool :=
  existsb (fun kv => pystr_eqb (fst kv) key) d.

(** [d[key]] for a key that is in [d]. *)
Fixpoint dict_get (d : dict) (key : pystr) : pystr :=
  match d with
  | [] => []
  | (k, v) :: d' => if pystr_eqb k key then v else dict_get d' key
  end.

(** [d[key] = value]: the value of a key that is in [d] is replaced where
    it is, a new key goes to the end. *)
Fixpoint dict_set (d : dict) (key value : pystr) : dict :=
  match d with
  | [] => [(key, value)]
  | (k, v) :: d' =>
      if pystr_eqb k key then (k, value) :: d'
      else (k, v) :: dict_set d' key value
  end.

Record AnalysisResult := {
  summary : pystr;
  topics : list pystr;
  action_items : list pystr;
  participant_summaries : dict;
  message_count : Z;
  participant_count : Z;
  date_range : pystr
}.

(** [AnalysisResult(summary=summary)]: every other field has its default. *)
Definition new_AnalysisResult (summary : pystr) : AnalysisResult :=
  {| summary := summary; topics := []; action_items := [];
     participant_summaries := [];
     message_count := 0; participant_count := 0; date_range := [] |}.

(* ================================================================= *)
(** ** analyzer/core.py: [_parse_combined_response] *)

(** [s.rstrip(chars)] *)
Fixpoint lstrip_chars (chars s : pystr) : pystr :=
  match s with
  | c :: s' => if char_in chars c then lstrip_chars chars s' else s
  | [] => []
  end.

Definition rstrip_chars (chars s : pystr) : pystr :=
  rev (lstrip_chars chars (rev s)).

(** [s.split(sep, 1)] for a separator that occurs in [s]: what is before
    its first occurrence and what is after it.  The program calls it under
    [if sep in s] only. *)
Fixpoint split_once (sep s : pystr) : pystr * pystr :=
  if startswith s sep then ([], skipn (length sep) s)
  else match s with
       | [] => ([], [])
       | c :: s' => let '(before, after) := split_once sep s' in
                    (c :: before, after)
       end.

(** [sections] as the method creates it. *)
Definition new_sections : dict :=
  [ (lit "summary", []); (lit "topics", []); (lit "action items", []);
    (lit "participants", []) ].

(** The variables of the first loop of [_parse_combined_response]. *)
Record sections_loop := {
  sections : dict;
  current_section : option pystr
}.

(** [line.strip().lower().rstrip(":")] *)
Definition line_lower (U : Unicode) (line : pystr) : pystr :=
  rstrip_chars (lit ":") (str_lower U (strip line)).

(** The body of the first loop.  [current_section] is a key of [sections]
    whenever it is set, so that [sections[current_section]] raises no
    [KeyError]. *)
Definition sections_step (U : Unicode) (st : sections_loop) (line : pystr)
    : sections_loop :=
  if dict_has (sections st) (line_lower U line)
  then {| sections := sections st;
          current_section := Some (line_lower U line) |}
  else match current_section st with
       | Some current =>
           {| sections :=
                dict_set (sections st) current
                         (dict_get (sections st) current ++ line ++ [NL]);
              current_section := Some current |}
       | None => st
       end.

(** The body of the second loop, over the lines of the participants. *)
Definition participant_step (participant_summaries : dict) (line : pystr)
    : dict :=
  let line := strip line in
  let line := if startswith line (lit "- ") then skipn 2 line else line in
  if contains line (lit ": ")
  then let '(name, summary) := split_once (lit ": ") line in
       dict_set participant_summaries (strip name) (strip summary)
  else participant_summaries.

(** [ChatAnalyzer._parse_combined_response]: the fields of [result] that it
    assigns, the others as they are. *)
Definition _parse_combined_response (U : Unicode) (isdigit : char -> bool)
    (raw : pystr) (result : AnalysisResult) : AnalysisResult :=
  let st :=
    fold_left (sections_step U) (split NL raw)
              {| sections := new_sections; current_section := None |} in
  let sections := sections st in
  {| summary := strip (dict_get sections (lit "summary"));
     topics := _parse_list isdigit (dict_get sections (lit "topics"));
     action_items :=
       _parse_list isdigit (dict_get sections (lit "action items"));
     participant_summaries :=
       fold_left participant_step
                 (split NL (strip (dict_get sections (lit "participants"))))
                 (participant_summaries result);
     message_count := message_count result;
     participant_count := participant_count result;
     date_range := date_range result |}.

(** *** The vocabulary of the properties *)

(** The line is the heading of a section. *)
Definition is_header (U : Unicode) (line : pystr) : bool :=
  dict_has new_sections (line_lower U line).

(** A line of the answer that belongs to a section: it is no heading and
    has no line break in it. *)
Definition body_line (U : Unicode) (line : pystr) : Prop :=
  is_header U line = false /\ ~ In NL line.

(** A participant with a summary, as the answer lists them: the name is
    not empty, has no whitespace at either end, does not start with a
    dash and a blank, and has no colon followed by a blank in it. *)
Definition participant_entry (entry : pystr * pystr) : Prop :=
  let '(name, text) := entry in
  list_item name /\ list_item text
  /\ startswith name (lit "- ") = false
  /\ contains name (lit ": ") = false.

(** The line of a participant in the answer. *)
Definition participant_line (entry : pystr * pystr) : pystr :=
  lit "- " ++ fst entry ++ lit ": " ++ snd entry.

(** An answer in the format the prompt asks for. *)
Definition answer_lines (summary_lines topics actions : list pystr)
    (people : dict) : list pystr :=
  [lit "SUMMARY:"] ++ summary_lines ++ [[]]
  ++ [lit "TOPICS:"] ++ map (fun s => lit "- " ++ s) topics ++ [[]]
  ++ [lit "ACTION ITEMS:"] ++ map (fun s => lit "- " ++ s) actions ++ [[]]
  ++ [lit "PARTICIPANTS:"] ++ map participant_line people.

(** [sections] with its four values. *)
Definition four_sections (s t a p : pystr) : dict :=
  [ (lit "summary", s); (lit "topics", t); (lit "action items", a);
    (lit "participants", p) ].

(** The lines with a line break after each. *)
Definition with_breaks (lines : list pystr) : pystr :=
  concat (map (fun line => line ++ [NL]) lines).

(** [d[name] = text] for every entry, in order. *)
Definition assign_all (d : dict) (entries : dict) : dict :=
  fold_left (fun d entry => dict_set d (fst entry) (snd entry)) entries d.

(** The example of an answer: two lines before the first heading, a
    summary of two lines, two topics, one action item, two participants. *)
Definition sample_answer : pystr :=
  join NL
    ([lit "Here is the analysis."; []]
     ++ answer_lines
          [lit "The team planned the release."; lit "Bob will set up CI."]
          [lit "Release plan"; lit "CI setup"]
          [lit "Bob: set up CI"]
          [(lit "Alice", lit "Led the planning.");
           (lit "Bob", lit "Took the CI task.")]).

(* ================================================================= *)
(** ** llm/prompts.py

    A template is a function of what [str.format] puts in the place of its
    fields; each is given as its lines. *)

Definition QUOTE : char := 34%N.

(** [ANALYZE_ALL.format(chat_text=..., participant_list=...)] *)
Definition ANALYZE_ALL (chat_text participant_list : pystr) : pystr :=
  join NL
    [ lit "Analyze this WhatsApp group chat. Respond ONLY in the exact format below, no extra text.";
      [];
      lit "CHAT:";
      chat_text;
      [];
      lit "Respond in this EXACT format:";
      [];
      lit "SUMMARY:";
      lit "(3-5 sentence summary of the conversation)";
      [];
      lit "TOPICS:";
      lit "- (topic 1)";
      lit "- (topic 2)";
      lit "- (add more as needed)";
      [];
      lit "ACTION ITEMS:";
      lit "- (Person: action item 1)";
      lit "- (Person: action item 2)";
      lit "- (add more as needed)";
      [];
      lit "PARTICIPANTS:";
      participant_list ].

(** [PARTICIPANT_LINE.format(name=...)] *)
Definition PARTICIPANT_LINE (name : pystr) : pystr :=
  lit "- " ++ name ++ lit ": (1-2 sentence summary of their contributions)".

(** [SUMMARIZE.format(chat_text=...)] *)
Definition SUMMARIZE (chat_text : pystr) : pystr :=
  join NL
    [ lit "You are analyzing a WhatsApp group chat conversation. Provide a concise summary of the conversation covering the main discussion points and outcomes.";
      [];
      lit "CHAT:";
      chat_text;
      [];
      lit "Provide a clear summary in 3-5 sentences. Focus on what was discussed, decided, and any important information shared." ].

(** [EXTRACT_TOPICS.format(chat_text=...)] *)
Definition EXTRACT_TOPICS (chat_text : pystr) : pystr :=
  join NL
    [ lit "You are analyzing a WhatsApp group chat conversation. Extract the key topics discussed.";
      [];
      lit "CHAT:";
      chat_text;
      [];
      lit "List each distinct topic on its own line, prefixed with "
      ++ QUOTE :: lit "- " ++ QUOTE
      :: lit ". Only list topics, no other text. Example:";
      lit "- Project timeline discussion";
      lit "- Backend API setup" ].

(** [EXTRACT_ACTION_ITEMS.format(chat_text=...)] *)
Definition EXTRACT_ACTION_ITEMS (chat_text : pystr) : pystr :=
  join NL
    [ lit "You are analyzing a WhatsApp group chat conversation. Extract any action items, tasks, or commitments made by participants.";
      [];
      lit "CHAT:";
      chat_text;
      [];
      lit "List each action item on its own line, prefixed with "
      ++ QUOTE :: lit "- " ++ QUOTE
      :: lit ". Include who is responsible if mentioned. Only list action items, no other text. Example:";
      lit "- Bob: Set up the GitHub repository";
      lit "- Alice: Review the PR by Friday" ].

(** [MERGE_SUMMARIES.format(summaries=...)] *)
Definition MERGE_SUMMARIES (summaries : pystr) : pystr :=
  join NL
    [ lit "You are combining multiple summaries of different parts of a long WhatsApp group chat conversation into one cohesive summary.";
      [];
      lit "PARTIAL SUMMARIES:";
      summaries;
      [];
      lit "Combine these into a single coherent summary in 3-5 sentences. Remove redundancy and focus on the overall narrative." ].

(** [MERGE_TOPICS.format(topics=...)] *)
Definition MERGE_TOPICS (topics : pystr) : pystr :=
  join NL
    [ lit "You are combining topic lists extracted from different parts of a WhatsApp conversation. Deduplicate and consolidate them.";
      [];
      lit "TOPIC LISTS:";
      topics;
      [];
      lit "Output a single consolidated list of unique topics, one per line prefixed with "
      ++ QUOTE :: lit "- " ++ QUOTE
      :: lit ". Remove duplicates and merge similar topics." ].

(** [MERGE_ACTION_ITEMS.format(action_items=...)] *)
Definition MERGE_ACTION_ITEMS (action_items : pystr) : pystr :=
  join NL
    [ lit "You are combining action item lists from different parts of a WhatsApp conversation. Deduplicate and consolidate them.";
      [];
      lit "ACTION ITEM LISTS:";
      action_items;
      [];
      lit "Output a single consolidated list of unique action items, one per line prefixed with "
      ++ QUOTE :: lit "- " ++ QUOTE :: lit ". Remove duplicates." ].

(* ================================================================= *)
(** ** analyzer/core.py: [ChatAnalyzer.analyze]

    The client of the language model is a collaborator of the program:
    [generate] takes the state of the client and a prompt, and gives the
    answer, or [None] when it raises, and the next state.  The prompts that
    have been sent are recorded beside the state of the client. *)

Inductive raised :=
| ParserRaised (e : exn)        (* what [ChatAnalyzer.parse] raised *)
| GenerateRaised.               (* [generate] raised *)

Inductive outcome (A : Type) :=
| Returned (a : A)
| Raises (e : raised).
Arguments Returned {A} a.
Arguments Raises {A} e.

Record llm (S : Type) := {
  client : S;
  asked : list pystr
}.

(** A computation that may call the model and may raise. *)
Definition M (S A : Type) : Type := llm S -> outcome A * llm S.

Definition ret {S A : Type} (a : A) : M S A := fun w => (Returned a, w).

Definition bind {S A B : Type} (m : M S A) (k : A -> M S B) : M S B :=
  fun w =>
    match m w with
    | (Returned a, w') => k a w'
    | (Raises e, w') => (Raises e, w')
    end.

Notation "x <- m ;; k" := (bind m (fun x => k))
  (at level 61, m at next level, right associativity).

(** [self._llm.generate(prompt)] *)
Definition call {S : Type} (generate : S -> pystr -> option pystr * S)
    (prompt : pystr) : M S pystr :=
  fun w =>
    let '(answer, client') := generate (client w) prompt in
    let w' := {| client := client'; asked := asked w ++ [prompt] |} in
    match answer with
    | Some text => (Returned text, w')
    | None => (Raises GenerateRaised, w')
    end.

Definition MAX_PARTICIPANTS_FOR_ANALYSIS : nat := 10.

(** [sep.join(parts)] for any separator. *)
Fixpoint join_str (sep : pystr) (parts : list pystr) : pystr :=
  match parts with
  | [] => []
  | [p] => p
  | p :: ps => p ++ sep ++ join_str sep ps
  end.

(** [f"{d:%Y-%m-%d}"] *)
Definition format_date (d : datetime) : pystr :=
  year_digits (year d) ++ lit "-" ++ pad2 (month d) ++ lit "-"
  ++ pad2 (day d).

(** [ChatAnalyzer._analyze_combined]: the result with the fields it
    assigns. *)
Definition _analyze_combined {S : Type} (U : Unicode)
    (isdigit : char -> bool) (generate : S -> pystr -> option pystr * S)
    (chunk : Conversation) (result : AnalysisResult)
    : M S AnalysisResult :=
  let chat_text := Conversation_.to_text chunk in
  let participants :=
    firstn MAX_PARTICIPANTS_FOR_ANALYSIS
           (ConversationProps.participants chunk) in
  let participant_list := join NL (map PARTICIPANT_LINE participants) in
  raw <- call generate (ANALYZE_ALL chat_text participant_list) ;;
  ret (_parse_combined_response U isdigit raw result).

(** The three lists the loop of [_analyze_multi_combined] fills. *)
Record partials := {
  partial_summaries : list pystr;
  partial_topics : list pystr;
  partial_actions : list pystr
}.

(** The loop of [_analyze_multi_combined] over the chunks that are left. *)
Fixpoint each_chunk {S : Type} (generate : S -> pystr -> option pystr * S)
    (chunks : list Conversation) (acc : partials) : M S partials :=
  match chunks with
  | [] => ret acc
  | chunk :: chunks' =>
      let chat_text := Conversation_.to_text chunk in
      s <- call generate (SUMMARIZE chat_text) ;;
      t <- call generate (EXTRACT_TOPICS chat_text) ;;
      a <- call generate (EXTRACT_ACTION_ITEMS chat_text) ;;
      each_chunk generate chunks'
        {| partial_summaries := partial_summaries acc ++ [s];
           partial_topics := partial_topics acc ++ [t];
           partial_actions := partial_actions acc ++ [a] |}
  end.

(** The separator of the partial summaries: two line breaks, three dashes,
    two line breaks. *)
Definition SUMMARY_SEPARATOR : pystr := [NL; NL] ++ lit "---" ++ [NL; NL].

(** [ChatAnalyzer._analyze_multi_combined] *)
Definition _analyze_multi_combined {S : Type} (isdigit : char -> bool)
    (generate : S -> pystr -> option pystr * S)
    (chunks : list Conversation) (result : AnalysisResult)
    : M S AnalysisResult :=
  acc <- each_chunk generate chunks
           {| partial_summaries := []; partial_topics := [];
              partial_actions := [] |} ;;
  summary <- call generate
               (MERGE_SUMMARIES
                  (join_str SUMMARY_SEPARATOR (partial_summaries acc))) ;;
  merged_topics <- call generate
                     (MERGE_TOPICS (join NL (partial_topics acc))) ;;
  merged_actions <- call generate
                      (MERGE_ACTION_ITEMS (join NL (partial_actions acc))) ;;
  ret {| summary := summary;
         topics := _parse_list isdigit merged_topics;
         action_items := _parse_list isdigit merged_actions;
         participant_summaries := participant_summaries result;
         message_count := message_count result;
         participant_count := participant_count result;
         date_range := date_range result |}.

(** [self._chunker = ConversationChunker()] *)
Definition _chunker : ConversationChunker.t :=
  {| ConversationChunker.max_chars := ConversationChunker.DEFAULT_MAX_CHARS |}.

(** [AnalysisResult(message_count=..., participant_count=...)] and the
    date range, which is set when both dates are there. *)
Definition metadata (filtered : Conversation) : AnalysisResult :=
  {| summary := []; topics := []; action_items := [];
     participant_summaries := [];
     message_count := ConversationProps.__len__ filtered;
     participant_count :=
       Z.of_nat (length (ConversationProps.participants filtered));
     date_range :=
       match ConversationProps.start_date filtered,
             ConversationProps.end_date filtered with
       | Some start, Some end_ =>
           format_date start ++ lit " to " ++ format_date end_
       | _, _ => []
       end |}.

(** [ChatAnalyzer.analyze] *)
Definition analyze {S : Type} (E : Env) (U : Unicode)
    (isdigit : char -> bool) (generate : S -> pystr -> option pystr * S)
    (source : pystr) (participant : option pystr)
    (start_date end_date : option datetime) : M S AnalysisResult :=
  match ChatAnalyzer.parse E U source with
  | Raise e => fun w => (Raises (ParserRaised e), w)
  | Ok conversation =>
      match messages conversation with
      | [] => ret (new_AnalysisResult (lit "No messages found in the input."))
      | _ :: _ =>
          let filtered :=
            apply_filters U conversation participant start_date end_date in
          match messages filtered with
          | [] =>
              ret (new_AnalysisResult
                     (lit "No messages match the given filters."))
          | _ :: _ =>
              let result := metadata filtered in
              let chunks := ConversationChunker.chunk _chunker filtered in
              match chunks with
              | [chunk] => _analyze_combined U isdigit generate chunk result
              | _ => _analyze_multi_combined isdigit generate chunks result
              end
          end
      end
  end.

(** *** The vocabulary of the properties *)


(** The computation keeps the prompts that have been sent and may send
    more. *)
Definition sends_more {S A : Type} (m : M S A) : Prop :=
  forall w, exists more, asked (snd (m w)) = asked w ++ more.

(** The computation sends [prompt] before anything else, whatever the
    client answers. *)
Definition sends_first {S A : Type} (m : M S A) (prompt : pystr) : Prop :=
  forall w, exists more, asked (snd (m w)) = asked w ++ prompt :: more.


(** A client without state that gives the same answer to every prompt. *)
Definition echo (answer : pystr) : unit -> pystr -> option pystr * unit :=
  fun s _ => (Some answer, s).

(** A client that raises. *)
Definition broken : unit -> pystr -> option pystr * unit :=
  fun s _ => (None, s).

Definition fresh : llm unit := {| client := tt; asked := [] |}.




(* ================================================================= *)
(** ** More vocabulary: flags and serialization *)

(** One of the phrases of [_SYSTEM_INDICATORS] occurs in the text,
    lower-cased. *)
Definition has_indicator (U : Unicode) (text : pystr) : Prop :=
  exists indicator,
    In indicator _SYSTEM_INDICATORS
    /\ contains (str_lower U text) indicator = true.

(** A character that no timestamp pattern takes for a separator, and that
    [_clean_line] leaves where it is. *)
Definition plain (c : char) : Prop :=
  c <> key ":" /\ c <> key "/"
  /\ py_isspace c = false /\ _UNICODE_JUNK c = false.

(** A DOCX document of three paragraphs, the second blank. *)
Definition three_paragraphs : list pystr :=
  [ lit "12/01/2024, 09:01 - Alice: Hey everyone!";
    lit "   ";
    lit "12/01/2024, 09:02 - Bob: Hi Alice!" ].

Definition docx_file : Env :=
  {| path_suffix := fun _ => lit ".docx";
     path_exists := fun _ => Ok true;
     path_is_file := fun _ => Ok true;
     read_file := fun _ => Raise ExtractionError;
     pdf_pages := fun _ => Raise ExtractionError;
     docx_paragraphs := fun _ => Ok three_paragraphs;
     llava_response := fun _ => None;
     ocr_string := fun _ => None |}.

(* ================================================================= *)
(** * Properties *)

(** ** Strings *)

Lemma len_nonneg (s : pystr) : 0 <= len s.
Proof. unfold len. lia. Qed.

Lemma len_app (a b : pystr) : len (a ++ b) = len a + len b.
Proof. unfold len. rewrite length_app. lia. Qed.

Lemma join_snoc (sep : char) (parts : list pystr) (p : pystr) :
  parts <> [] -> join sep (parts ++ [p]) = join sep parts ++ sep :: p.
Proof.
  induction parts as [|a parts IH]; intros Hne; [congruence|].
  destruct parts as [|b parts]; [reflexivity|].
  change (join sep ((a :: b :: parts) ++ [p]))
    with (a ++ sep :: join sep ((b :: parts) ++ [p])).
  rewrite IH by discriminate.
  change (join sep (a :: b :: parts)) with (a ++ sep :: join sep (b :: parts)).
  rewrite <- app_assoc. reflexivity.
Qed.

(** ** The chunker *)

Section Chunker.
Import ConversationChunker.
Variable self : t.

Lemma seen_step (st : loop) (m : ChatMessage) :
  seen (step self st m) = seen st ++ [m].
Proof.
  unfold seen, step. destruct (closes self st m); simpl.
  - rewrite map_app, concat_app. simpl. rewrite app_nil_r, <- app_assoc.
    reflexivity.
  - rewrite app_assoc. reflexivity.
Qed.

Lemma seen_fold (l : list ChatMessage) (st : loop) :
  seen (fold_left (step self) l st) = seen st ++ l.
Proof.
  revert st. induction l as [|m l IH]; intros st; simpl.
  - rewrite app_nil_r. reflexivity.
  - rewrite IH, seen_step, <- app_assoc. reflexivity.
Qed.

Lemma seen_finish (st : loop) :
  concat (map messages (finish st)) = seen st.
Proof.
  unfold finish, seen. destruct (current_messages st); simpl.
  - rewrite app_nil_r. reflexivity.
  - rewrite map_app, concat_app. simpl. rewrite app_nil_r. reflexivity.
Qed.

Lemma no_empty_step (st : loop) (m : ChatMessage) :
  no_empty (chunks st) -> no_empty (chunks (step self st m)).
Proof.
  intros H. unfold step, closes.
  destruct (current_messages st) as [|x xs] eqn:E;
    rewrite ?andb_false_r; simpl; [exact H|].
  destruct (_ >? _); simpl; [|exact H].
  apply Forall_app. split; [exact H|].
  constructor; [simpl; discriminate|constructor].
Qed.

Lemma no_empty_fold (l : list ChatMessage) (st : loop) :
  no_empty (chunks st) -> no_empty (chunks (fold_left (step self) l st)).
Proof.
  revert st. induction l as [|m l IH]; intros st H; simpl; [exact H|].
  apply IH, no_empty_step, H.
Qed.

Lemma no_empty_finish (st : loop) :
  no_empty (chunks st) -> no_empty (finish st).
Proof.
  intros H. unfold finish.
  destruct (current_messages st) eqn:E; simpl; [exact H|].
  apply Forall_app. split; [exact H|].
  constructor; [simpl; discriminate|constructor].
Qed.

Lemma length_concat_sum (cs : list Conversation) :
  length (concat (map messages cs))
  = list_sum (map (fun c => length (messages c)) cs).
Proof.
  induction cs as [|c cs IH]; simpl; [reflexivity|].
  rewrite length_app, IH. reflexivity.
Qed.

Lemma chunk_concat (conversation : Conversation) :
  concat (map messages (chunk self conversation)) = messages conversation.
Proof.
  unfold chunk. destruct (messages conversation) as [|m l] eqn:E;
    [reflexivity|].
  rewrite seen_finish, seen_fold. reflexivity.
Qed.

Lemma chunk_no_empty (conversation : Conversation) :
  no_empty (chunk self conversation).
Proof.
  unfold chunk. destruct (messages conversation) as [|m l];
    [constructor|].
  apply no_empty_finish, no_empty_fold. constructor.
Qed.

Lemma text_len_snoc (ms : list ChatMessage) (m : ChatMessage) :
  ms <> [] ->
  text_len (ms ++ [m]) = text_len ms + 1 + len (ChatMessage_str m).
Proof.
  intros Hne. unfold text_len. rewrite map_app. simpl.
  rewrite join_snoc by (destruct ms; [congruence|discriminate]).
  rewrite len_app. unfold len at 2. simpl length.
  unfold len. lia.
Qed.

Lemma text_len_nonneg (ms : list ChatMessage) : 0 <= text_len ms.
Proof. apply len_nonneg. Qed.

Lemma bounded_single (m : ChatMessage) : bounded self [m].
Proof.
  split.
  - simpl. lia.
  - intros m' [<-|[]] _. reflexivity.
Qed.

Lemma bounded_nil : bounded self [].
Proof. split; [simpl; lia|intros m []]. Qed.

Lemma chunk_inv_step (st : loop) (m : ChatMessage) :
  chunk_inv self st -> chunk_inv self (step self st m).
Proof.
  intros [Hc Hcur Hch]. unfold step, closes.
  destruct (current_messages st) as [|x xs] eqn:E.
  - rewrite andb_false_r. rewrite E. simpl.
    constructor; simpl.
    + rewrite Hc. unfold text_len. simpl. lia.
    + apply bounded_single.
    + exact Hch.
  - rewrite andb_true_r.
    destruct (current_chars st + len (ChatMessage_str m) >? max_chars self)
      eqn:G.
    + constructor; simpl.
      * unfold text_len. simpl. lia.
      * apply bounded_single.
      * apply Forall_app. split; [exact Hch|].
        constructor; [exact Hcur|constructor].
    + rewrite E.
      assert (Hle : current_chars st + len (ChatMessage_str m)
                    <= max_chars self) by lia.
      assert (Hx := text_len_nonneg (x :: xs)).
      assert (Hm := len_nonneg (ChatMessage_str m)).
      assert (Hs : text_len ((x :: xs) ++ [m])
                   = current_chars st + len (ChatMessage_str m)).
      { rewrite text_len_snoc by discriminate. lia. }
      constructor; simpl current_messages; simpl current_chars;
        simpl chunks.
      * change (x :: xs ++ [m]) with ((x :: xs) ++ [m]).
        rewrite Hs. simpl. lia.
      * split.
        -- intros _. change (x :: xs ++ [m]) with ((x :: xs) ++ [m]).
           rewrite Hs. exact Hle.
        -- intros m' Hin Hbig. exfalso.
           change (x :: xs ++ [m]) with ((x :: xs) ++ [m]) in Hin.
           apply in_app_or in Hin. destruct Hin as [Hin|[<-|[]]].
           ++ destruct Hcur as [_ Hcur].
              specialize (Hcur m' Hin Hbig).
              rewrite Hcur in Hc. unfold text_len in Hc. simpl in Hc.
              lia.
           ++ lia.
      * exact Hch.
Qed.

Lemma chunk_inv_fold (l : list ChatMessage) (st : loop) :
  chunk_inv self st -> chunk_inv self (fold_left (step self) l st).
Proof.
  revert st. induction l as [|m l IH]; intros st H; simpl; [exact H|].
  apply IH, chunk_inv_step, H.
Qed.

Lemma chunk_inv_start : chunk_inv self start.
Proof.
  constructor; simpl; [reflexivity|apply bounded_nil|constructor].
Qed.

Lemma chunk_bounded (conversation : Conversation) :
  Forall (fun c => bounded self (messages c)) (chunk self conversation).
Proof.
  unfold chunk. destruct (messages conversation) as [|m l];
    [constructor|].
  destruct (chunk_inv_fold (m :: l) chunk_inv_start) as [_ Hcur Hch].
  unfold finish. destruct (current_messages _); [exact Hch|].
  apply Forall_app. split; [exact Hch|].
  constructor; [exact Hcur|constructor].
Qed.

End Chunker.

(** C1. For every Conversation and every [max_chars >= 1], the message
    lists of the chunks of [chunk], concatenated in order, are the message
    list of the input; hence the message counts of the chunks add up to the
    count of the input; no chunk is empty; and a Conversation without
    messages gives the empty list of chunks. *)
Theorem chunk_round_trip :
  forall (self : ConversationChunker.t) (conversation : Conversation),
    1 <= ConversationChunker.max_chars self ->
    let result := ConversationChunker.chunk self conversation in
    concat (map messages result) = messages conversation
    /\ list_sum (map (fun c => length (messages c)) result)
       = length (messages conversation)
    /\ Forall (fun c => messages c <> []) result
    /\ (messages conversation = [] -> result = []).
Proof.
  intros self conversation _ result. subst result.
  split; [apply chunk_concat|].
  split; [rewrite <- length_concat_sum, chunk_concat; reflexivity|].
  split; [apply chunk_no_empty|].
  intros E. unfold ConversationChunker.chunk. rewrite E. reflexivity.
Qed.

(** C2. For every Conversation and every [max_chars >= 1]: a chunk of two
    or more messages has a [to_text] of at most [max_chars] characters, so
    a chunk that exceeds [max_chars] consists of a single message; a message
    whose own text is longer than [max_chars] is the only message of its
    chunk; and the loop closes the current chunk before adding a message
    exactly when the accumulated length plus the length of the candidate
    exceeds [max_chars] and the current chunk is not empty. *)
Theorem chunk_size_bound :
  forall (self : ConversationChunker.t) (conversation : Conversation),
    1 <= ConversationChunker.max_chars self ->
    (forall c, In c (ConversationChunker.chunk self conversation) ->
       ((2 <= length (messages c))%nat ->
        len (Conversation_.to_text c) <= ConversationChunker.max_chars self)
       /\ (ConversationChunker.max_chars self < len (Conversation_.to_text c) ->
           exists m, messages c = [m])
       /\ (forall m, In m (messages c) ->
             ConversationChunker.max_chars self < len (ChatMessage_str m) ->
             messages c = [m]))
    /\ (forall st message,
          let st' := ConversationChunker.step self st message in
          (ConversationChunker.closes self st message = true <->
           ConversationChunker.max_chars self
             < ConversationChunker.current_chars st
               + len (ChatMessage_str message)
           /\ ConversationChunker.current_messages st <> [])
          /\ (ConversationChunker.closes self st message = true ->
              ConversationChunker.chunks st'
              = ConversationChunker.chunks st
                ++ [{| messages := ConversationChunker.current_messages st |}]
              /\ ConversationChunker.current_messages st' = [message])
          /\ (ConversationChunker.closes self st message = false ->
              ConversationChunker.chunks st' = ConversationChunker.chunks st
              /\ ConversationChunker.current_messages st'
                 = ConversationChunker.current_messages st ++ [message])).
Proof.
  intros self conversation _. split.
  - intros c Hin.
    pose proof (chunk_bounded self conversation) as H.
    rewrite Forall_forall in H. destruct (H c Hin) as [H2 Hbig].
    pose proof (chunk_no_empty self conversation) as Hne.
    unfold no_empty in Hne. rewrite Forall_forall in Hne.
    specialize (Hne c Hin).
    split; [exact H2|]. split; [|exact Hbig].
    intros Hlong. destruct (messages c) as [|m [|m' ms]] eqn:E.
    + congruence.
    + exists m. reflexivity.
    + exfalso. unfold Conversation_.to_text in Hlong. rewrite E in Hlong.
      unfold text_len in H2. simpl length in H2. lia.
  - intros st message st'. subst st'.
    unfold ConversationChunker.step, ConversationChunker.closes.
    destruct (ConversationChunker.current_messages st) as [|x xs] eqn:E;
      rewrite ?andb_false_r, ?andb_true_r.
    + rewrite E. simpl. repeat split; try discriminate; try congruence.
      intros [_ H]. congruence.
    + destruct (_ >? _) eqn:G; simpl; rewrite ?E.
      * repeat split; try discriminate; try lia.
      * repeat split; try discriminate; try lia.
Qed.

(** With [max_chars = 80] the four messages of the sample fall into three
    chunks. *)
Lemma chunk_round_trip_witness :
  1 <= ConversationChunker.max_chars small_chunker
  /\ ConversationChunker.chunk small_chunker sample_conversation
     = [ {| messages := [msg_encrypted] |};
         {| messages := [msg_alice; msg_bob] |};
         {| messages := [msg_ALICE] |} ]
  /\ concat (map messages
               (ConversationChunker.chunk small_chunker sample_conversation))
     = messages sample_conversation.
Proof.
  split; [simpl; lia|].
  split; [reflexivity|].
  apply (chunk_round_trip small_chunker sample_conversation). simpl. lia.
Defined.

(** With [max_chars = 80] the chunk of two messages is within the bound. *)
Lemma chunk_size_bound_witness :
  1 <= ConversationChunker.max_chars small_chunker
  /\ len (Conversation_.to_text {| messages := [msg_alice; msg_bob] |})
     <= ConversationChunker.max_chars small_chunker.
Proof.
  split; [simpl; lia|].
  apply (proj1 (chunk_size_bound small_chunker sample_conversation
                  ltac:(simpl; lia))
               {| messages := [msg_alice; msg_bob] |}).
  - simpl. right. left. reflexivity.
  - simpl. lia.
Defined.

(** ** The filters *)

Lemma pystr_eqb_eq (a b : pystr) : pystr_eqb a b = true <-> a = b.
Proof.
  revert b. induction a as [|x a IH]; intros [|y b]; simpl;
    try (split; [discriminate|congruence]); [tauto|].
  rewrite andb_true_iff, N.eqb_eq, IH.
  split; [intros [-> ->]; reflexivity|intros [= -> ->]; tauto].
Qed.

Lemma keeps_filter {A : Type} (P : A -> Prop) (f : A -> bool) (l : list A) :
  (forall x, f x = true <-> P x) -> keeps P l (filter f l).
Proof.
  intros Hf. induction l as [|x l IH]; simpl; [constructor|].
  destruct (f x) eqn:E.
  - apply keeps_take; [apply Hf, E|exact IH].
  - apply keeps_drop; [|exact IH]. intros HP. apply Hf in HP. congruence.
Qed.

Lemma keeps_In {A : Type} (P : A -> Prop) (l l' : list A) :
  keeps P l l' -> forall x, In x l' <-> In x l /\ P x.
Proof.
  induction 1 as [|y l l' Hy _ IH|y l l' Hy _ IH]; intros x; simpl.
  - tauto.
  - rewrite IH. split; [intros [<-|[? ?]]; tauto|tauto].
  - rewrite IH. split; [tauto|intros [[<-|?] ?]; tauto].
Qed.

Lemma fold_left_append_filter {A : Type} (f : A -> bool) (l acc : list A) :
  fold_left (fun acc x => if f x then acc ++ [x] else acc) l acc
  = acc ++ filter f l.
Proof.
  revert acc. induction l as [|x l IH]; intros acc; simpl.
  - rewrite app_nil_r. reflexivity.
  - rewrite IH. destruct (f x); [rewrite <- app_assoc|]; reflexivity.
Qed.

Lemma filter_by_date_range_filter (c : Conversation)
    (start end_ : option datetime) :
  messages (Conversation_.filter_by_date_range c start end_)
  = filter (Conversation_.in_date_range start end_) (messages c).
Proof.
  unfold Conversation_.filter_by_date_range. simpl.
  apply (fold_left_append_filter (Conversation_.in_date_range start end_)
           (messages c) []).
Qed.

Lemma lex_compare_antisym (a b : list Z) :
  lex_compare b a = CompOpp (lex_compare a b).
Proof.
  revert b. induction a as [|x a IH]; intros [|y b]; simpl; try reflexivity.
  rewrite (Z.compare_antisym x y).
  destruct (x ?= y); simpl; [apply IH|reflexivity|reflexivity].
Qed.

Lemma lex_compare_refl (a : list Z) : lex_compare a a = Eq.
Proof.
  induction a as [|x a IH]; simpl; [reflexivity|].
  rewrite Z.compare_refl. exact IH.
Qed.

(** [a < b] is the negation of [b <= a]: the order is total. *)
Lemma dt_lt_not_le (a b : datetime) : dt_lt a b = negb (dt_le b a).
Proof.
  unfold dt_lt, dt_le, datetime_cmp.
  rewrite (lex_compare_antisym (datetime_fields a) (datetime_fields b)).
  destruct (lex_compare _ _); reflexivity.
Qed.

Lemma dt_gt_not_le (a b : datetime) : dt_gt a b = negb (dt_le a b).
Proof. unfold dt_gt, dt_le. destruct (datetime_cmp a b); reflexivity. Qed.

Lemma dt_le_refl (a : datetime) : dt_le a a = true.
Proof. unfold dt_le, datetime_cmp. rewrite lex_compare_refl. reflexivity. Qed.

Lemma in_date_range_iff (start end_ : option datetime) (m : ChatMessage) :
  Conversation_.in_date_range start end_ m = true <->
  (forall s, start = Some s -> dt_le s (timestamp m) = true)
  /\ (forall e, end_ = Some e -> dt_le (timestamp m) e = true).
Proof.
  assert (Hs : forall (o : option datetime) (f : datetime -> bool),
             (forall s, o = Some s -> f s = true) <->
             match o with Some s => f s = true | None => True end).
  { intros [s|] f; split; intros H;
      [apply H; reflexivity|intros ? [= <-]; exact H|exact I|discriminate]. }
  rewrite (Hs start (fun s => dt_le s (timestamp m))).
  rewrite (Hs end_ (fun e => dt_le (timestamp m) e)).
  unfold Conversation_.in_date_range.
  destruct start as [s|], end_ as [e|];
    rewrite ?dt_lt_not_le, ?dt_gt_not_le;
    repeat match goal with
           | |- context [dt_le ?a ?b] => destruct (dt_le a b)
           end;
    simpl; intuition congruence.
Qed.

(** A call through a reference allocates the result and leaves every
    object of the store as it was. *)
Lemma new_Conversation_fresh (h : store) (c : Conversation) :
  let '(h', r) := new_Conversation h c in
  deref h' r = Some c
  /\ deref h r = None
  /\ forall r0 c0, deref h r0 = Some c0 -> deref h' r0 = Some c0.
Proof.
  unfold new_Conversation, deref. split; [|split].
  - rewrite nth_error_app2 by lia. rewrite Nat.sub_diag. reflexivity.
  - apply nth_error_None. lia.
  - intros r0 c0 H. rewrite nth_error_app1; [exact H|].
    apply nth_error_Some. congruence.
Qed.

(** C7. [filter_by_participant(c, p)] returns a new Conversation whose
    messages are exactly the messages of [c] whose sender equals [p] when
    both are lowered, together with every message whose [is_system] is
    true, in their original order; a system message of [c] is never
    excluded; and the call leaves the input Conversation, as every object
    there is, unchanged. *)
Theorem filter_by_participant_keeps :
  forall (U : Unicode) (c : Conversation) (p : pystr),
    let result := Conversation_.filter_by_participant U c p in
    keeps (fun m => str_lower U (sender m) = str_lower U p
                    \/ is_system m = true)
          (messages c) (messages result)
    /\ (forall m, In m (messages c) -> is_system m = true ->
          In m (messages result))
    /\ (forall (h : store) (self : ref),
          deref h self = Some c ->
          exists h' r,
            call_filter_by_participant U h self p = Some (h', r)
            /\ deref h' r = Some result
            /\ deref h r = None
            /\ deref h' self = Some c
            /\ forall r0 c0, deref h r0 = Some c0 -> deref h' r0 = Some c0).
Proof.
  intros U c p result.
  assert (K : keeps (fun m => str_lower U (sender m) = str_lower U p
                              \/ is_system m = true)
                    (messages c) (messages result)).
  { apply keeps_filter. intros m.
    rewrite orb_true_iff, pystr_eqb_eq. tauto. }
  split; [exact K|]. split.
  - intros m Hin Hsys. apply (keeps_In K). tauto.
  - intros h self Hself. unfold call_filter_by_participant. rewrite Hself.
    pose proof (new_Conversation_fresh h result) as F.
    fold result. destruct (new_Conversation h result) as [h' r].
    destruct F as (F1 & F2 & F3).
    exists h', r. repeat split; auto.
Qed.

(** Filtering the sample for "alice" keeps the system message and both
    spellings of Alice, in a new object. *)
Lemma filter_by_participant_keeps_witness :
  messages (Conversation_.filter_by_participant ascii_unicode
              sample_conversation (lit "alice"))
  = [msg_encrypted; msg_alice; msg_ALICE]
  /\ In msg_encrypted
        (messages (Conversation_.filter_by_participant ascii_unicode
                     sample_conversation (lit "alice")))
  /\ exists h' r,
       call_filter_by_participant ascii_unicode [sample_conversation] 0%nat
         (lit "alice") = Some (h', r)
       /\ deref h' r = Some (Conversation_.filter_by_participant ascii_unicode
                               sample_conversation (lit "alice"))
       /\ deref [sample_conversation] r = None
       /\ deref h' 0%nat = Some sample_conversation
       /\ forall r0 c0, deref [sample_conversation] r0 = Some c0 ->
                        deref h' r0 = Some c0.
Proof.
  pose proof (filter_by_participant_keeps ascii_unicode sample_conversation
                (lit "alice")) as (_ & Hsys & Hcall).
  split; [reflexivity|]. split.
  - apply (Hsys msg_encrypted); [simpl; left; reflexivity|reflexivity].
  - apply (Hcall [sample_conversation] 0%nat). reflexivity.
Defined.

(** C8. [filter_by_date_range(c, start, end)] returns a new Conversation
    whose messages are exactly the messages [m] of [c] with
    [start <= m.timestamp] when [start] is given and [m.timestamp <= end]
    when [end] is given, in their original order; an absent bound does not
    constrain; a message whose timestamp is [start] or [end] itself is
    retained when it meets the other bound. *)
Theorem filter_by_date_range_keeps :
  forall (c : Conversation) (start end_ : option datetime),
    let result := Conversation_.filter_by_date_range c start end_ in
    keeps (fun m =>
             (forall s, start = Some s -> dt_le s (timestamp m) = true)
             /\ (forall e, end_ = Some e -> dt_le (timestamp m) e = true))
          (messages c) (messages result)
    /\ (forall m, In m (messages c) ->
          start = Some (timestamp m) ->
          (forall e, end_ = Some e -> dt_le (timestamp m) e = true) ->
          In m (messages result))
    /\ (forall m, In m (messages c) ->
          end_ = Some (timestamp m) ->
          (forall s, start = Some s -> dt_le s (timestamp m) = true) ->
          In m (messages result))
    /\ (forall (h : store) (self : ref),
          deref h self = Some c ->
          exists h' r,
            call_filter_by_date_range h self start end_ = Some (h', r)
            /\ deref h' r = Some result
            /\ deref h r = None
            /\ deref h' self = Some c).
Proof.
  intros c start end_ result.
  assert (K : keeps (fun m =>
             (forall s, start = Some s -> dt_le s (timestamp m) = true)
             /\ (forall e, end_ = Some e -> dt_le (timestamp m) e = true))
          (messages c) (messages result)).
  { subst result. rewrite filter_by_date_range_filter.
    apply keeps_filter. intros m. apply in_date_range_iff. }
  split; [exact K|]. split; [|split].
  - intros m Hin Hs He. apply (keeps_In K). split; [exact Hin|].
    split; [|exact He]. intros s E. rewrite Hs in E. injection E as <-.
    apply dt_le_refl.
  - intros m Hin He Hs. apply (keeps_In K). split; [exact Hin|].
    split; [exact Hs|]. intros e E. rewrite He in E. injection E as <-.
    apply dt_le_refl.
  - intros h self Hself. unfold call_filter_by_date_range. rewrite Hself.
    pose proof (new_Conversation_fresh h result) as F.
    fold result. destruct (new_Conversation h result) as [h' r].
    destruct F as (F1 & F2 & F3).
    exists h', r. repeat split; auto.
Qed.

(** Filtering the sample from 09:01 to 09:02 keeps the messages at 09:01
    and at 09:02. *)
Lemma filter_by_date_range_keeps_witness :
  messages (Conversation_.filter_by_date_range sample_conversation
              (Some (jan12 9 1)) (Some (jan12 9 2)))
  = [msg_alice; msg_bob]
  /\ In msg_alice
        (messages (Conversation_.filter_by_date_range sample_conversation
                     (Some (jan12 9 1)) (Some (jan12 9 2))))
  /\ In msg_bob
        (messages (Conversation_.filter_by_date_range sample_conversation
                     (Some (jan12 9 1)) (Some (jan12 9 2)))).
Proof.
  pose proof (filter_by_date_range_keeps sample_conversation
                (Some (jan12 9 1)) (Some (jan12 9 2)))
    as (_ & Hstart & Hend & _).
  split; [reflexivity|]. split.
  - apply (Hstart msg_alice).
    + simpl. right. left. reflexivity.
    + reflexivity.
    + intros e [= <-]. reflexivity.
  - apply (Hend msg_bob).
    + simpl. right. right. left. reflexivity.
    + reflexivity.
    + intros s [= <-]. reflexivity.
Defined.

(** C10. [apply_filters] with the empty string as participant does no
    participant filtering: its result is the one for [participant=None],
    and has the messages of the date-range-filtered conversation.
    [filter_by_participant(c, "")] itself returns the messages whose sender
    is the empty string together with the system messages, so the two
    differ on some conversation.  ([str.lower] gives the empty string for
    the empty string only.) *)
Theorem apply_filters_empty_participant :
  forall (U : Unicode),
    str_lower U [] = [] ->
    (forall s, str_lower U s = [] -> s = []) ->
    forall (c : Conversation) (start end_ : option datetime),
      apply_filters U c (Some []) start end_ = apply_filters U c None start end_
      /\ messages (apply_filters U c (Some []) start end_)
         = messages (Conversation_.filter_by_date_range c start end_)
      /\ keeps (fun m => sender m = [] \/ is_system m = true)
               (messages c)
               (messages (Conversation_.filter_by_participant U c []))
      /\ exists c',
           messages (Conversation_.filter_by_participant U c' [])
           <> messages (apply_filters U c' (Some []) None None).
Proof.
  intros U Hnil Hlow c start end_.
  split; [reflexivity|]. split; [|split].
  - rewrite filter_by_date_range_filter.
    destruct start, end_; unfold apply_filters;
      cbn [is_some orb truthy_str];
      rewrite ?filter_by_date_range_filter; try reflexivity.
    induction (messages c) as [|m l IH]; simpl; [reflexivity|].
    rewrite <- IH. reflexivity.
  - apply keeps_filter. intros m.
    rewrite orb_true_iff, pystr_eqb_eq, Hnil.
    split; (intros [H|H]; [left|right; exact H]).
    + apply Hlow, H.
    + rewrite H. exact Hnil.
  - exists {| messages := [msg_alice] |}.
    unfold apply_filters. simpl.
    destruct (pystr_eqb _ _) eqn:E; [|simpl; discriminate].
    apply pystr_eqb_eq in E. rewrite Hnil in E. apply Hlow in E.
    discriminate.
Qed.

Lemma ascii_lower_nil (s : pystr) : str_lower ascii_unicode s = [] -> s = [].
Proof. destruct s; [reflexivity|discriminate]. Qed.

(** On the sample, the empty participant leaves the date filter alone,
    while [filter_by_participant] keeps the system message only. *)
Lemma apply_filters_empty_participant_witness :
  messages (apply_filters ascii_unicode sample_conversation (Some [])
              (Some (jan12 9 1)) None)
  = [msg_alice; msg_bob; msg_ALICE]
  /\ messages (apply_filters ascii_unicode sample_conversation (Some [])
                 (Some (jan12 9 1)) None)
     = messages (Conversation_.filter_by_date_range sample_conversation
                   (Some (jan12 9 1)) None)
  /\ messages (Conversation_.filter_by_participant ascii_unicode
                 sample_conversation [])
     = [msg_encrypted].
Proof.
  pose proof (apply_filters_empty_participant ascii_unicode eq_refl
                ascii_lower_nil sample_conversation (Some (jan12 9 1)) None)
    as (_ & H & _).
  split; [reflexivity|]. split; [exact H|reflexivity].
Defined.

(** ** The matcher *)

Lemma has_span_cons (name n : N) (sp : nat * nat) (cs : spans) :
  n = name \/ has_span name cs -> has_span name ((n, sp) :: cs).
Proof.
  unfold has_span. simpl. destruct (N.eqb n name) eqn:E.
  - discriminate.
  - intros [->|H]; [rewrite N.eqb_refl in E; discriminate|exact H].
Qed.

Lemma rep_match_reaches {A : Type} (p : char -> bool) (lo : nat)
    (hi : option nat) (greedy : bool) (k : nat -> pystr -> spans -> option A)
    (s : pystr) (n pos : nat) (cs : spans) (x : A) :
  rep_match p lo hi greedy k n pos s cs = Some x -> reaches None k cs x.
Proof.
  assert (Stop : forall pos s, k pos s cs = Some x -> reaches None k cs x).
  { intros pos0 s0 H. exists pos0, s0, cs. split; [exact H|].
    intros name [H'|[]]. exact H'. }
  revert n pos. induction s as [|c s IH]; intros n pos; simpl.
  - destruct greedy; destruct (lo <=? n)%nat; try discriminate;
      [apply Stop|].
    destruct (k pos [] cs) eqn:E; [|discriminate].
    intros [= ->]. apply (Stop _ _ E).
  - destruct greedy.
    + destruct (p c && below n hi).
      * destruct (rep_match p lo hi true k (S n) (S pos) s cs) eqn:E.
        -- intros [= ->]. apply (IH _ _ E).
        -- destruct (lo <=? n)%nat; [apply Stop|discriminate].
      * destruct (lo <=? n)%nat; [apply Stop|discriminate].
    + destruct (lo <=? n)%nat.
      * destruct (k pos (c :: s) cs) eqn:E.
        -- intros [= ->]. apply (Stop _ _ E).
        -- destruct (p c && below n hi); [apply IH|discriminate].
      * destruct (p c && below n hi); [apply IH|discriminate].
Qed.

Lemma rmatch_reaches {A : Type} (r : regex) :
  forall (k : nat -> pystr -> spans -> option A) (pos : nat) (s : pystr)
         (cs : spans) (x : A),
    rmatch r k pos s cs = Some x -> reaches (Some r) k cs x.
Proof.
  induction r as [| |p|p lo hi g|r1 IH1 r2 IH2|r1 IH1 r2 IH2|n r IH];
    intros k pos s cs x; simpl.
  - intros H. exists pos, s, cs. split; [exact H|].
    intros name [H'|H']; [exact H'|discriminate].
  - destruct (pos =? 0)%nat; [|discriminate].
    intros H. exists pos, s, cs. split; [exact H|].
    intros name [H'|H']; [exact H'|discriminate].
  - destruct s as [|c s]; [discriminate|].
    destruct (p c); [|discriminate].
    intros H. exists (S pos), s, cs. split; [exact H|].
    intros name [H'|H']; [exact H'|discriminate].
  - intros H. apply rep_match_reaches in H.
    destruct H as (pos' & s' & cs' & H & Hs).
    exists pos', s', cs'. split; [exact H|].
    intros name [H'|H']; [apply Hs; left; exact H'|discriminate].
  - intros H. apply IH1 in H. destruct H as (pos1 & s1 & cs1 & H & Hs1).
    apply IH2 in H. destruct H as (pos2 & s2 & cs2 & H & Hs2).
    exists pos2, s2, cs2. split; [exact H|].
    intros name [H'|H'].
    + apply Hs2. left. apply Hs1. left. exact H'.
    + apply orb_true_iff in H'. destruct H' as [H'|H'].
      * apply Hs2. left. apply Hs1. right. exact H'.
      * apply Hs2. right. exact H'.
  - destruct (rmatch r1 k pos s cs) eqn:E.
    + intros [= ->]. apply IH1 in E.
      destruct E as (pos' & s' & cs' & H & Hs).
      exists pos', s', cs'. split; [exact H|].
      intros name [H'|H']; [apply Hs; left; exact H'|].
      apply andb_true_iff in H'. apply Hs. right. apply H'.
    + intros H. apply IH2 in H.
      destruct H as (pos' & s' & cs' & H & Hs).
      exists pos', s', cs'. split; [exact H|].
      intros name [H'|H']; [apply Hs; left; exact H'|].
      apply andb_true_iff in H'. apply Hs. right. apply H'.
  - intros H. apply IH in H. destruct H as (pos' & s' & cs' & H & Hs).
    exists pos', s', ((n, (pos, pos')) :: cs'). split; [exact H|].
    intros name [H'|H'].
    + apply has_span_cons. right. apply Hs. left. exact H'.
    + apply orb_true_iff in H'. destruct H' as [H'|H'].
      * apply has_span_cons. left. apply N.eqb_eq, H'.
      * apply has_span_cons. right. apply Hs. right. exact H'.
Qed.

(** A match object is about its subject, and every group the pattern
    binds has a value in it. *)
Lemma match_at_spec (r : regex) (subject : pystr) (pos : nat) (s : pystr)
    (m : Match) :
  match_at r subject pos s = Some m ->
  m_string m = subject
  /\ forall name, binds name r = true -> exists g, group m name = Some g.
Proof.
  unfold match_at. intros H. apply rmatch_reaches in H.
  destruct H as (pos' & s' & cs' & [= <-] & Hs). split; [reflexivity|].
  intros name Hb. specialize (Hs name (or_intror Hb)).
  unfold group, has_span in *. simpl.
  destruct (span_of name cs') as [[a b]|]; [eauto|congruence].
Qed.

(** ** The parser *)

Section TextParser.
Import WhatsAppTextParser.

Lemma first_some_spec {A B : Type} (f : A -> option B) (l : list A) (b : B) :
  first_some f l = Some b ->
  exists l1 a l2,
    l = l1 ++ a :: l2 /\ f a = Some b /\ forall x, In x l1 -> f x = None.
Proof.
  induction l as [|a l IH]; simpl; [discriminate|].
  destruct (f a) as [b'|] eqn:E.
  - intros [= ->]. exists [], a, l. repeat split; [exact E|intros x []].
  - intros H. destruct (IH H) as (l1 & a' & l2 & -> & Ha & Hl1).
    exists (a :: l1), a', l2. repeat split; [exact Ha|].
    intros x [<-|Hx]; [exact E|exact (Hl1 x Hx)].
Qed.

Lemma first_some_none {A B : Type} (f : A -> option B) (l : list A) :
  (forall x, In x l -> f x = None) -> first_some f l = None.
Proof.
  induction l as [|a l IH]; intros H; simpl; [reflexivity|].
  rewrite (H a (or_introl eq_refl)). apply IH.
  intros x Hx. apply H. right. exact Hx.
Qed.

Lemma first_match_groups (patterns : list regex) (index : nat)
    (line : pystr) (pattern : nat) (m : Match) :
  Forall (fun r => binds 1 r = true /\ binds 2 r = true) patterns ->
  first_match patterns index line = Some (pattern, m) ->
  exists group1 group2, group m 1 = Some group1 /\ group m 2 = Some group2.
Proof.
  intros Hall. revert index.
  induction Hall as [|r rs [H1 H2] _ IH]; intros index; simpl;
    [discriminate|].
  destruct (re_match r line) as [m'|] eqn:E; [|apply IH].
  intros [= _ ->]. apply match_at_spec in E. destruct E as [_ E].
  destruct (E 1%N H1) as [g1 G1], (E 2%N H2) as [g2 G2]. eauto.
Qed.

(** Both groups take part in every match of the four patterns. *)
Lemma patterns_bind_groups (U : Unicode) :
  Forall (fun r => binds 1 r = true /\ binds 2 r = true) (_PATTERNS U).
Proof. repeat constructor. Qed.

Lemma sender_pattern_groups (rest : pystr) (m : Match) :
  re_match sender_pattern rest = Some m ->
  exists g1 g2, group m 1 = Some g1 /\ group m 2 = Some g2.
Proof.
  intros E. apply match_at_spec in E. destruct E as [_ E].
  destruct (E 1%N eq_refl) as [g1 G1], (E 2%N eq_refl) as [g2 G2]. eauto.
Qed.

(** What a line that starts a message looks like. *)
Lemma _try_parse_line_some (U : Unicode) (line : pystr) (m : ChatMessage) :
  _try_parse_line U line = Some m ->
  exists pattern match_ group1 group2 rest,
    first_match (_PATTERNS U) 0 (_clean_line line) = Some (pattern, match_)
    /\ group match_ 1 = Some group1
    /\ group match_ 2 = Some group2
    /\ _parse_timestamp U
         (if (pattern =? _TIME_FIRST_PATTERN)%nat then group2 else group1)
         (if (pattern =? _TIME_FIRST_PATTERN)%nat then group1 else group2)
       = Some (timestamp m)
    /\ rest_of_line U line = Some rest
    /\ is_media m
       = has_sender rest && contains (str_lower U (content m)) _MEDIA_INDICATOR
    /\ (has_sender rest = false ->
        sender m = lit "System" /\ content m = strip rest
        /\ is_system m = true)
    /\ (has_sender rest = true ->
        is_system m = _is_system_message U (content m)).
Proof.
  unfold _try_parse_line, rest_of_line.
  destruct (_clean_line line) as [|c l] eqn:Ec; [discriminate|].
  destruct (first_match (_PATTERNS U) 0 (c :: l)) as [[pattern match_]|]
    eqn:Ef; [|discriminate].
  unfold _extract_message.
  destruct (group match_ 1) as [group1|] eqn:G1; [|discriminate].
  destruct (group match_ 2) as [group2|] eqn:G2; [|discriminate].
  intros H. exists pattern, match_, group1, group2.
  exists (skipn (m_end match_) (c :: l)).
  split; [reflexivity|]. split; [exact G1|]. split; [exact G2|].
  unfold has_sender.
  destruct (pattern =? _TIME_FIRST_PATTERN)%nat;
    (destruct (_parse_timestamp U _ _) as [ts|]; [|discriminate]);
    (destruct (re_match sender_pattern _) as [sm|];
     [destruct (group sm 1); [|discriminate];
      destruct (group sm 2); [|discriminate]|]);
    injection H as <-; simpl;
    repeat split; try reflexivity; try discriminate.
Qed.

Lemma _try_parse_line_fails (U : Unicode) (line : pystr) :
  fails_all_formats U line -> _try_parse_line U line = None.
Proof.
  intros (date_str & time_str
          & (pattern & match_ & group1 & group2 & Ef & G1 & G2 & -> & ->)
          & Hfmt).
  unfold _try_parse_line. rewrite Ef.
  destruct (_clean_line line); [reflexivity|].
  unfold _extract_message. rewrite G1, G2.
  assert (Ets : _parse_timestamp U
            (if (pattern =? _TIME_FIRST_PATTERN)%nat then group2 else group1)
            (if (pattern =? _TIME_FIRST_PATTERN)%nat then group1 else group2)
          = None).
  { unfold _parse_timestamp. apply first_some_none. exact Hfmt. }
  destruct (pattern =? _TIME_FIRST_PATTERN)%nat; rewrite Ets; reflexivity.
Qed.

Lemma first_some_is_none {A B : Type} (f : A -> option B) (l : list A) :
  first_some f l = None -> forall x, In x l -> f x = None.
Proof.
  induction l as [|a l IH]; simpl; [intros _ x []|].
  destruct (f a) eqn:E; [discriminate|].
  intros H x [<-|Hx]; [exact E|exact (IH H x Hx)].
Qed.

(** The lines that start no message are those that match no pattern and
    those whose captured text parses under no format: the two [None] cases
    for absent groups in [_extract_message] are never reached. *)
Lemma _try_parse_line_none (U : Unicode) (line : pystr) :
  _try_parse_line U line = None <->
  first_match (_PATTERNS U) 0 (_clean_line line) = None
  \/ fails_all_formats U line.
Proof.
  split.
  - unfold _try_parse_line, fails_all_formats, captured.
    destruct (_clean_line line) as [|c l]; [intros _; left; reflexivity|].
    destruct (first_match (_PATTERNS U) 0 (c :: l)) as [[pattern match_]|]
      eqn:Ef; [|intros _; left; reflexivity].
    destruct (first_match_groups _ _ (patterns_bind_groups U) Ef)
      as (group1 & group2 & G1 & G2).
    unfold _extract_message. rewrite G1, G2. intros H.
    assert (Ets : _parse_timestamp U
              (if (pattern =? _TIME_FIRST_PATTERN)%nat
               then group2 else group1)
              (if (pattern =? _TIME_FIRST_PATTERN)%nat
               then group1 else group2)
            = None).
    { revert H. destruct (pattern =? _TIME_FIRST_PATTERN)%nat;
        (destruct (_parse_timestamp U _ _) as [d|]; [|reflexivity]);
        (destruct (re_match sender_pattern _) as [sm|] eqn:Es;
         [|intros H; discriminate H]);
        destruct (sender_pattern_groups _ Es) as (g1 & g2 & E1 & E2);
        rewrite E1, E2; intros H; discriminate H. }
    right. eexists. eexists. split.
    + exists pattern, match_, group1, group2.
      split; [reflexivity|]. split; [exact G1|]. split; [exact G2|].
      split; reflexivity.
    + apply first_some_is_none. exact Ets.
  - intros [H|H]; [|apply _try_parse_line_fails, H].
    unfold _try_parse_line. rewrite H.
    destruct (_clean_line line); reflexivity.
Qed.

(** The loop of [parse_text] groups the lines as [blocks] does. *)
Lemma finish_fold_blocks (U : Unicode) (lines : list pystr) :
  forall st,
    messages (finish (fold_left (step U) lines st))
    = messages_ st
      ++ match current_msg st with
         | Some m => [with_lines (m, fst (blocks U lines))]
         | None => []
         end
      ++ map with_lines (snd (blocks U lines)).
Proof.
  induction lines as [|line lines IH]; intros st.
  - simpl. destruct (current_msg st); simpl; rewrite ?app_nil_r; reflexivity.
  - simpl fold_left. rewrite IH. unfold step. simpl blocks.
    destruct (blocks U lines) as [continuation bs].
    destruct st as [ms [m|]];
      destruct (_try_parse_line U line) as [parsed|]; simpl;
      rewrite <- ?app_assoc; reflexivity.
Qed.

Lemma parse_text_blocks (U : Unicode) (text : pystr) :
  messages (parse_text U text)
  = map with_lines (snd (blocks U (split NL text))).
Proof. unfold parse_text. rewrite finish_fold_blocks. reflexivity. Qed.

Lemma blocks_lines (U : Unicode) (lines : list pystr) :
  (forall line, In line (fst (blocks U lines)) ->
     In line lines /\ _try_parse_line U line = None)
  /\ forall b, In b (snd (blocks U lines)) ->
       (exists line, In line lines /\ _try_parse_line U line = Some (fst b))
       /\ forall line, In line (snd b) ->
            In line lines /\ _try_parse_line U line = None.
Proof.
  induction lines as [|line lines [IH1 IH2]]; simpl.
  - split; [intros ? []|intros ? []].
  - destruct (blocks U lines) as [continuation bs]. simpl in *.
    destruct (_try_parse_line U line) as [m|] eqn:E; simpl; split.
    + intros ? [].
    + intros b [<-|Hb]; simpl.
      * split; [exists line; tauto|].
        intros l Hl. destruct (IH1 l Hl). tauto.
      * destruct (IH2 b Hb) as [(l & Hl & Hp) Hc].
        split; [exists l; tauto|].
        intros l' Hl'. destruct (Hc l' Hl'). tauto.
    + intros l [<-|Hl]; [tauto|]. destruct (IH1 l Hl). tauto.
    + intros b Hb. destruct (IH2 b Hb) as [(l & Hl & Hp) Hc].
      split; [exists l; tauto|].
      intros l' Hl'. destruct (Hc l' Hl'). tauto.
Qed.

Lemma blocks_count (U : Unicode) (lines : list pystr) :
  length (snd (blocks U lines))
  = length (filter (fun line => is_some (_try_parse_line U line)) lines).
Proof.
  induction lines as [|line lines IH]; simpl; [reflexivity|].
  destruct (blocks U lines) as [continuation bs]. simpl in IH.
  destruct (_try_parse_line U line); simpl; rewrite IH; reflexivity.
Qed.

(** Continuation lines change the content of a message, and nothing else. *)
Lemma with_lines_fields (m : ChatMessage) (continuation : list pystr) :
  timestamp (with_lines (m, continuation)) = timestamp m
  /\ sender (with_lines (m, continuation)) = sender m
  /\ is_system (with_lines (m, continuation)) = is_system m
  /\ is_media (with_lines (m, continuation)) = is_media m
  /\ content (with_lines (m, continuation))
     = content m ++ concat (map (cons NL) continuation).
Proof.
  unfold with_lines. simpl. revert m.
  induction continuation as [|line continuation IH]; intros m; simpl.
  - rewrite app_nil_r. tauto.
  - destruct (IH (append_line m line)) as (-> & -> & -> & -> & ->).
    simpl. rewrite <- app_assoc. tauto.
Qed.

(** C3. Every message of [parse_text] carries the timestamp that
    [strptime] gave, for the text captured on the line that starts the
    message, under the first of the fixed formats, in their order, under
    which this text parses.  A line whose prefix matches a
    timestamp pattern while the captured text parses under no format is no
    message: [_try_parse_line] returns [None] for it, without an error, and
    the loop then appends the line to the message in progress or, when
    there is none, drops it; so the result has as many messages as the text
    has lines that [_try_parse_line] accepts. *)
Theorem unparseable_timestamp_is_no_message :
  forall (U : Unicode) (text : pystr),
    (forall m, In m (messages (parse_text U text)) ->
       exists line date_str time_str before fmt after,
         In line (split NL text)
         /\ captured U line date_str time_str
         /\ _DATE_FORMATS = before ++ fmt :: after
         /\ strptime U (combined date_str time_str) fmt = Some (timestamp m)
         /\ forall fmt', In fmt' before ->
              strptime U (combined date_str time_str) fmt' = None)
    /\ (forall line, fails_all_formats U line ->
          _try_parse_line U line = None)
    /\ (forall line st,
          _try_parse_line U line = None ->
          step U st line
          = {| messages_ := messages_ st;
               current_msg :=
                 match current_msg st with
                 | Some m => Some (append_line m line)
                 | None => None
                 end |})
    /\ length (messages (parse_text U text))
       = length (filter (fun line => is_some (_try_parse_line U line))
                        (split NL text)).
Proof.
  intros U text. split; [|split; [|split]].
  - intros m Hm. rewrite parse_text_blocks in Hm.
    apply in_map_iff in Hm. destruct Hm as ([m0 continuation] & <- & Hb).
    destruct (proj2 (blocks_lines U (split NL text)) _ Hb)
      as [(line & Hline & Hp) _].
    simpl in Hp. apply _try_parse_line_some in Hp.
    destruct Hp as (pattern & match_ & g1 & g2 & rest & Ef & G1 & G2 & Hts & _).
    unfold _parse_timestamp in Hts. apply first_some_spec in Hts.
    destruct Hts as (before & fmt & after & Hl & Hfmt & Hbefore).
    destruct (with_lines_fields m0 continuation) as (-> & _).
    exists line. eexists. eexists. exists before, fmt, after.
    split; [exact Hline|]. split.
    { exists pattern, match_, g1, g2. repeat split; eassumption. }
    split; [exact Hl|]. split; [exact Hfmt|exact Hbefore].
  - apply _try_parse_line_fails.
  - intros line st H. unfold step. rewrite H.
    destruct st as [ms [m|]]; reflexivity.
  - rewrite parse_text_blocks, length_map. apply blocks_count.
Qed.

Lemma bad_date_line_fails : fails_all_formats ascii_unicode bad_date_line.
Proof.
  exists (lit "31/31/2024"), (lit "09:01"). split.
  { exists 3%nat. eexists. exists (lit "31/31/2024"), (lit "09:01").
    split; [vm_compute; reflexivity|]. repeat split. }
  intros fmt Hfmt. simpl in Hfmt.
  repeat (destruct Hfmt as [<-|Hfmt]; [vm_compute; reflexivity|]).
  destruct Hfmt.
Defined.

(** A line with month 31 matches the dash pattern, parses under no format,
    and ends up inside Alice's message. *)
Lemma unparseable_timestamp_is_no_message_witness :
  fails_all_formats ascii_unicode bad_date_line
  /\ _try_parse_line ascii_unicode bad_date_line = None
  /\ messages (parse_text ascii_unicode text_with_bad_date)
     = [ {| timestamp := jan12 9 1;
            sender := lit "Alice";
            content := lit "hi" ++ [NL] ++ bad_date_line;
            is_system := false;
            is_media := false |} ].
Proof.
  split; [exact bad_date_line_fails|]. split; [|vm_compute; reflexivity].
  apply (proj1 (proj2 (unparseable_timestamp_is_no_message
                         ascii_unicode text_with_bad_date))).
  exact bad_date_line_fails.
Defined.

(** C5, at a message whose second line starts with a left-to-right mark
    and has blanks at both ends: the line goes into the content as it is,
    mark and blanks included, while the first line is cleaned. *)
Theorem continuation_line_not_cleaned :
  messages (parse_text ascii_unicode marked_continuation) = [msg_plan]
  /\ existsb _UNICODE_JUNK (content msg_plan) = true
  /\ split NL (content msg_plan) = [lit "Here is the plan:"; raw_second_line]
  /\ _clean_line raw_second_line = lit "1. Design phase".
Proof. repeat split; vm_compute; reflexivity. Qed.

(** *** The first line of a content *)

Lemma split_no_sep (sep : char) (s : pystr) :
  forall l, In l (split sep s) -> ~ In sep l.
Proof.
  induction s as [|c s IH]; simpl.
  - intros l [<-|[]] [].
  - destruct (N.eqb c sep) eqn:E.
    + intros l [<-|Hl]; [intros []|exact (IH l Hl)].
    + apply N.eqb_neq in E. destruct (split sep s) as [|l0 ls].
      * intros l [<-|[]] [H|[]]. congruence.
      * intros l [<-|Hl].
        -- intros [H|H]; [congruence|].
           exact (IH l0 (or_introl eq_refl) H).
        -- apply IH. right. exact Hl.
Qed.

Lemma split_without_sep (sep : char) (a : pystr) :
  ~ In sep a -> split sep a = [a].
Proof.
  induction a as [|c a IH]; intros H; simpl; [reflexivity|].
  destruct (N.eqb c sep) eqn:E.
  - apply N.eqb_eq in E. exfalso. apply H. left. exact E.
  - rewrite IH; [reflexivity|]. intros H'. apply H. right. exact H'.
Qed.

Lemma split_app_sep (sep : char) (a b : pystr) :
  ~ In sep a -> split sep (a ++ sep :: b) = a :: split sep b.
Proof.
  induction a as [|c a IH]; intros H; simpl.
  - rewrite N.eqb_refl. reflexivity.
  - destruct (N.eqb c sep) eqn:E.
    + apply N.eqb_eq in E. exfalso. apply H. left. exact E.
    + rewrite IH; [reflexivity|]. intros H'. apply H. right. exact H'.
Qed.

Lemma first_line_of_content (a : pystr) (continuation : list pystr) :
  ~ In NL a ->
  hd [] (split NL (a ++ concat (map (cons NL) continuation))) = a.
Proof.
  intros H. destruct continuation as [|l ls]; simpl.
  - rewrite app_nil_r, split_without_sep by exact H. reflexivity.
  - rewrite split_app_sep by exact H. reflexivity.
Qed.

Lemma lstrip_In (s : pystr) (x : char) : In x (lstrip s) -> In x s.
Proof.
  induction s as [|c s IH]; simpl; [tauto|].
  destruct (py_isspace c); [intros H; right; exact (IH H)|intros H; exact H].
Qed.

Lemma strip_In (s : pystr) (x : char) : In x (strip s) -> In x s.
Proof.
  unfold strip, rstrip. intros H.
  apply in_rev, lstrip_In, in_rev, lstrip_In in H. exact H.
Qed.

Lemma skipn_In {A : Type} (n : nat) (l : list A) (x : A) :
  In x (skipn n l) -> In x l.
Proof.
  intros H. rewrite <- (firstn_skipn n l). apply in_or_app. right. exact H.
Qed.

Lemma firstn_In {A : Type} (n : nat) (l : list A) (x : A) :
  In x (firstn n l) -> In x l.
Proof.
  intros H. rewrite <- (firstn_skipn n l). apply in_or_app. left. exact H.
Qed.

Lemma group_In (m : Match) (name : N) (g : pystr) (x : char) :
  group m name = Some g -> In x g -> In x (m_string m).
Proof.
  unfold group. destruct (span_of name (m_spans m)) as [[a b]|];
    [|discriminate].
  intros [= <-] H. apply firstn_In, skipn_In in H. exact H.
Qed.

Lemma _clean_line_In (line : pystr) (x : char) :
  In x (_clean_line line) -> In x line.
Proof.
  unfold _clean_line, sub_empty. intros H.
  apply strip_In, filter_In in H. apply H.
Qed.

(** [strip] leaves nothing to strip. *)
Lemma lstrip_starts_clean (s : pystr) : starts_clean (lstrip s).
Proof.
  induction s as [|c s IH]; simpl; [exact I|].
  destruct (py_isspace c) eqn:E; [exact IH|exact E].
Qed.

Lemma lstrip_of_clean (s : pystr) : starts_clean s -> lstrip s = s.
Proof. destruct s as [|c s]; simpl; [reflexivity|intros ->; reflexivity]. Qed.

Lemma lstrip_suffix (s : pystr) : exists p, s = p ++ lstrip s.
Proof.
  induction s as [|c s [p IH]]; simpl; [exists []; reflexivity|].
  destruct (py_isspace c).
  - exists (c :: p). simpl. rewrite <- IH. reflexivity.
  - exists []. reflexivity.
Qed.

Lemma strip_starts_clean (s : pystr) : starts_clean (strip s).
Proof.
  unfold strip, rstrip.
  destruct (lstrip_suffix (rev (lstrip s))) as [p Hp].
  pose proof (lstrip_starts_clean s) as Hs.
  apply (f_equal (@rev char)) in Hp.
  rewrite rev_involutive, rev_app_distr in Hp.
  destruct (rev (lstrip (rev (lstrip s)))) as [|c r]; [exact I|].
  rewrite Hp in Hs. exact Hs.
Qed.

Lemma strip_strip (s : pystr) : strip (strip s) = strip s.
Proof.
  assert (He : starts_clean (rev (strip s))).
  { unfold strip, rstrip. rewrite rev_involutive. apply lstrip_starts_clean. }
  unfold strip at 1, rstrip.
  rewrite (lstrip_of_clean _ (strip_starts_clean s)).
  rewrite (lstrip_of_clean _ He). apply rev_involutive.
Qed.

(** The content of a new message is a stripped piece of its cleaned line. *)
Lemma _try_parse_line_content (U : Unicode) (line : pystr) (m : ChatMessage) :
  _try_parse_line U line = Some m ->
  (exists t, content m = strip t)
  /\ forall x, In x (content m) -> In x (_clean_line line).
Proof.
  unfold _try_parse_line.
  destruct (_clean_line line) as [|c l] eqn:Ec; [discriminate|].
  destruct (first_match (_PATTERNS U) 0 (c :: l)) as [[pattern match_]|];
    [|discriminate].
  unfold _extract_message.
  destruct (group match_ 1) as [group1|]; [|discriminate].
  destruct (group match_ 2) as [group2|]; [|discriminate].
  assert (Hrest : forall x, In x (skipn (m_end match_) (c :: l)) ->
                            In x (c :: l)).
  { intros x H. apply skipn_In in H. exact H. }
  destruct (pattern =? _TIME_FIRST_PATTERN)%nat;
    (destruct (_parse_timestamp U _ _) as [ts|]; [|discriminate]);
    (destruct (re_match sender_pattern _) as [sm|] eqn:Es;
     [destruct (group sm 1); [|discriminate];
      destruct (group sm 2) as [g2|] eqn:G2; [|discriminate]|]);
    intros [= <-]; (split; [eexists; reflexivity|]);
    intros x Hx; simpl in Hx; apply strip_In in Hx;
    try (apply Hrest, Hx);
    apply Hrest; apply match_at_spec in Es; destruct Es as [<- _];
    eapply group_In; eassumption.
Qed.

Lemma _clean_line_no_junk (line : pystr) (x : char) :
  In x (_clean_line line) -> _UNICODE_JUNK x = false.
Proof.
  unfold _clean_line, sub_empty. intros H.
  apply strip_In, filter_In in H. destruct H as [_ H].
  apply negb_true_iff in H. exact H.
Qed.

(** A message of [parse_text] comes from a line of the text, and the
    content taken from that line is the first physical line of its content. *)
Lemma message_first_line (U : Unicode) (text : pystr)
    (m : ChatMessage) :
  In m (messages (parse_text U text)) ->
  exists line m0,
    In line (split NL text)
    /\ _try_parse_line U line = Some m0
    /\ hd [] (split NL (content m)) = content m0.
Proof.
  intros Hm. rewrite parse_text_blocks in Hm.
  apply in_map_iff in Hm. destruct Hm as ([m0 continuation] & <- & Hb).
  destruct (proj2 (blocks_lines U (split NL text)) _ Hb)
    as [(line & Hline & Hp) _].
  simpl in Hp. exists line, m0.
  split; [exact Hline|]. split; [exact Hp|].
  destruct (with_lines_fields m0 continuation) as (_ & _ & _ & _ & ->).
  apply first_line_of_content.
  intros Hnl. apply (split_no_sep NL text line Hline).
  apply _clean_line_In.
  exact (proj2 (_try_parse_line_content _ _ Hp) _ Hnl).
Qed.

(** C6, as the code has it.  A message of [parse_text] comes from one line
    that [_try_parse_line] accepts, followed by its continuation lines; the
    content taken from that line is the first physical line of the content.
    [is_media] is true exactly when the rest of that line, after the
    timestamp, has the form [Sender: content] and this first line contains
    the marker when lowered.  A message whose line has no such delimiter has
    the sender [System] and [is_media] false. *)
Theorem is_media_of_sender_line :
  forall (U : Unicode) (text : pystr) (m : ChatMessage),
    In m (messages (parse_text U text)) ->
    exists line m0 rest continuation,
      In line (split NL text)
      /\ _try_parse_line U line = Some m0
      /\ rest_of_line U line = Some rest
      /\ m = with_lines (m0, continuation)
      /\ hd [] (split NL (content m)) = content m0
      /\ (is_media m = true <->
          has_sender rest = true
          /\ contains (str_lower U (content m0)) _MEDIA_INDICATOR = true)
      /\ (has_sender rest = false ->
          sender m = lit "System" /\ is_system m = true
          /\ is_media m = false).
Proof.
  intros U text m Hm. rewrite parse_text_blocks in Hm.
  apply in_map_iff in Hm. destruct Hm as ([m0 continuation] & <- & Hb).
  destruct (proj2 (blocks_lines U (split NL text)) _ Hb)
    as [(line & Hline & Hp) _].
  simpl in Hp.
  destruct (_try_parse_line_some _ _ Hp)
    as (pattern & match_ & g1 & g2 & rest & _ & _ & _ & _ & Hrest & Hmedia
        & Hsys & _).
  destruct (with_lines_fields m0 continuation)
    as (_ & Hsender & Hsystem & Hmed & Hcontent).
  exists line, m0, rest, continuation.
  split; [exact Hline|]. split; [exact Hp|]. split; [exact Hrest|].
  split; [reflexivity|]. split.
  { rewrite Hcontent. apply first_line_of_content.
    intros Hnl. apply (split_no_sep NL text line Hline).
    apply _clean_line_In.
    exact (proj2 (_try_parse_line_content _ _ Hp) _ Hnl). }
  rewrite Hmed, Hsender, Hsystem, Hmedia. split.
  - apply andb_true_iff.
  - intros Hno. rewrite Hno. destruct (Hsys Hno) as (-> & _ & ->).
    repeat split.
Qed.

(** On a placeholder line without a sender the content contains the marker
    and [is_media] is false. *)
Lemma is_media_counterexample :
  ~ (forall m,
       In m (messages (parse_text ascii_unicode media_without_sender)) ->
       (is_media m = true <->
        contains (str_lower ascii_unicode (content m)) _MEDIA_INDICATOR
        = true)).
Proof.
  intros H. specialize (H msg_media_system).
  assert (E : false = true); [|discriminate E].
  apply H; [vm_compute; left; reflexivity|vm_compute; reflexivity].
Qed.

(** The same happens when the placeholder is on a continuation line. *)
Lemma is_media_second_line :
  messages (parse_text ascii_unicode media_on_second_line)
  = [ {| timestamp := jan12 9 5;
         sender := lit "Charlie";
         content := lit "Look at this" ++ [NL] ++ lit "<Media omitted>";
         is_system := false;
         is_media := false |} ].
Proof. vm_compute. reflexivity. Qed.

(** Charlie's placeholder of the test transcript. *)
Lemma is_media_of_sender_line_witness :
  In msg_media (messages (parse_text ascii_unicode media_with_sender))
  /\ exists line m0 rest continuation,
       In line (split NL media_with_sender)
       /\ _try_parse_line ascii_unicode line = Some m0
       /\ rest_of_line ascii_unicode line = Some rest
       /\ msg_media = with_lines (m0, continuation)
       /\ hd [] (split NL (content msg_media)) = content m0
       /\ (is_media msg_media = true <->
           has_sender rest = true
           /\ contains (str_lower ascii_unicode (content m0))
                       _MEDIA_INDICATOR = true)
       /\ (has_sender rest = false ->
           sender msg_media = lit "System" /\ is_system msg_media = true
           /\ is_media msg_media = false).
Proof.
  assert (H : In msg_media
                 (messages (parse_text ascii_unicode media_with_sender)))
    by (vm_compute; left; reflexivity).
  split; [exact H|].
  exact (is_media_of_sender_line ascii_unicode media_with_sender msg_media H).
Defined.
(** The line that starts a message is cleaned: the first physical line of
    every content is free of the invisible marks and has no whitespace at
    either end. *)
Lemma first_line_is_clean (U : Unicode) (text : pystr) (m : ChatMessage) :
  In m (messages (parse_text U text)) ->
  existsb _UNICODE_JUNK (hd [] (split NL (content m))) = false
  /\ strip (hd [] (split NL (content m))) = hd [] (split NL (content m)).
Proof.
  intros Hm.
  destruct (message_first_line U text m Hm)
    as (line & m0 & Hline & Hp & ->).
  destruct (_try_parse_line_content _ _ Hp) as [[t Ht] Hin].
  split.
  - destruct (existsb _UNICODE_JUNK (content m0)) eqn:E; [|reflexivity].
    apply existsb_exists in E. destruct E as (x & Hx & Hjunk).
    rewrite (_clean_line_no_junk line x (Hin x Hx)) in Hjunk. discriminate.
  - rewrite Ht. apply strip_strip.
Qed.

End TextParser.

(** ** The dispatch *)

(** Every timestamp pattern starts with [^], and no flag makes [^] match
    after a line break: [search] finds a match at the start of the text or
    none. *)
Lemma anchored_search_from (r : regex) (subject s : pystr) (pos : nat) :
  search_from (Cat Bol r) subject (S pos) s = None.
Proof.
  revert pos. induction s as [|c s IH]; intros pos; [reflexivity|].
  simpl. apply IH.
Qed.

Lemma anchored_search (r : regex) (s : pystr) :
  re_search (Cat Bol r) s = re_match (Cat Bol r) s.
Proof.
  unfold re_search, re_match. destruct s as [|c s]; simpl.
  - destruct (match_at (Cat Bol r) [] 0 []); reflexivity.
  - destruct (match_at (Cat Bol r) (c :: s) 0 (c :: s)); [reflexivity|].
    apply anchored_search_from.
Qed.

Lemma patterns_search (U : Unicode) (pattern : regex) (s : pystr) :
  In pattern (_PATTERNS U) -> re_search pattern s = re_match pattern s.
Proof.
  intros Hin. simpl in Hin.
  repeat (destruct Hin as [<-|Hin]; [apply anchored_search|]).
  destruct Hin.
Qed.

Lemma text_can_handle_false (E : Env) (U : Unicode) (source : pystr) :
  no_timestamp U source ->
  and_then (pystr_eqb (path_suffix E source) (lit ".txt"))
           (path_exists E source) = Ok false ->
  WhatsAppTextParser.can_handle E U source = Ok false.
Proof.
  intros Hno Hfile. unfold WhatsAppTextParser.can_handle. rewrite Hfile.
  destruct (existsb _ (_PATTERNS U)) eqn:Ex; [|reflexivity].
  apply existsb_exists in Ex. destruct Ex as (pattern & Hin & Hsome).
  rewrite (Hno pattern Hin) in Hsome. discriminate.
Qed.

(** A parser asks the file system only about a path whose suffix it
    accepts: when that question, where it is asked, is answered by
    [False], the three file parsers refuse the input and the text parser
    goes on to the patterns. *)
Lemma file_parsers_refuse (E : Env) (U : Unicode) (source : pystr) :
  (handled_extension U (path_suffix E source) = true ->
   path_exists E source = Ok false) ->
  PDFParser.can_handle E U source = Ok false
  /\ DocxParser.can_handle E U source = Ok false
  /\ ImageParser.can_handle E U source = Ok false
  /\ and_then (pystr_eqb (path_suffix E source) (lit ".txt"))
              (path_exists E source) = Ok false.
Proof.
  intros Hfile.
  unfold PDFParser.can_handle, DocxParser.can_handle,
    ImageParser.can_handle, and_then.
  unfold handled_extension in Hfile.
  destruct (pystr_eqb (path_suffix E source) (lit ".txt"));
    destruct (pystr_eqb (str_lower U (path_suffix E source)) (lit ".pdf"));
    destruct (pystr_eqb (str_lower U (path_suffix E source)) (lit ".docx"));
    destruct (existsb (pystr_eqb (str_lower U (path_suffix E source)))
                      ImageParser._IMAGE_EXTENSIONS);
    try rewrite (Hfile eq_refl); repeat split; reflexivity.
Qed.





(** ** ASCII input

    On ASCII text the parser asks the tables of the runtime about ASCII
    characters only, so that it computes what it computes with
    [ascii_unicode]. *)

Lemma ascii_textb_spec (s : pystr) : ascii_textb s = true -> ascii_text s.
Proof.
  unfold ascii_textb, ascii_text, is_ascii. intros H c Hc.
  rewrite forallb_forall in H. apply N.ltb_lt, H, Hc.
Qed.

Lemma ascii_text_cons (c : char) (s : pystr) :
  ascii_text (c :: s) -> is_ascii c /\ ascii_text s.
Proof.
  intros H. split; [apply H; left; reflexivity|].
  intros x Hx. apply H. right. exact Hx.
Qed.

Lemma ascii_text_incl (s t : pystr) :
  (forall c, In c t -> In c s) -> ascii_text s -> ascii_text t.
Proof. intros Hin Hs c Hc. apply Hs, Hin, Hc. Qed.

Lemma ascii_text_app (s t : pystr) :
  ascii_text s -> ascii_text t -> ascii_text (s ++ t).
Proof.
  intros Hs Ht c Hc. apply in_app_or in Hc.
  destruct Hc; [apply Hs|apply Ht]; assumption.
Qed.

Lemma ascii_text_strip (s : pystr) : ascii_text s -> ascii_text (strip s).
Proof. apply ascii_text_incl. intros c. apply strip_In. Qed.

Lemma split_In (sep : char) (s : pystr) :
  forall l, In l (split sep s) -> forall c, In c l -> In c s.
Proof.
  induction s as [|x s IH]; simpl.
  - intros l [<-|[]] c [].
  - destruct (N.eqb x sep).
    + intros l [<-|Hl] c Hc; [destruct Hc|right; exact (IH l Hl c Hc)].
    + destruct (split sep s) as [|l0 ls].
      * intros l [<-|[]] c [<-|[]]. left. reflexivity.
      * intros l [<-|Hl] c Hc.
        -- destruct Hc as [<-|Hc]; [left; reflexivity|].
           right. exact (IH l0 (or_introl eq_refl) c Hc).
        -- right. exact (IH l (or_intror Hl) c Hc).
Qed.

Lemma fold_left_ext_in {A B : Type} (f g : A -> B -> A) (l : list B) :
  (forall a x, In x l -> f a x = g a x) ->
  forall a, fold_left f l a = fold_left g l a.
Proof.
  induction l as [|x l IH]; intros H a; simpl; [reflexivity|].
  rewrite (H a x (or_introl eq_refl)). apply IH.
  intros a' x' Hx'. apply H. right. exact Hx'.
Qed.

Lemma first_some_ext {A B : Type} (f g : A -> option B) (l : list A) :
  (forall x, f x = g x) -> first_some f l = first_some g l.
Proof.
  intros H. induction l as [|a l IH]; simpl; [reflexivity|].
  rewrite (H a), IH. reflexivity.
Qed.

Section Ascii.
Import WhatsAppTextParser.

Variable U : Unicode.
Hypothesis HU : agrees_on_ascii U.

Lemma rep_match_ascii {A : Type} (p q : char -> bool) (lo : nat)
    (hi : option nat) (greedy : bool)
    (k k' : nat -> pystr -> spans -> option A) (cs : spans) :
  (forall c, is_ascii c -> p c = q c) ->
  (forall pos s, ascii_text s -> k pos s cs = k' pos s cs) ->
  forall s n pos,
    ascii_text s ->
    rep_match p lo hi greedy k n pos s cs
    = rep_match q lo hi greedy k' n pos s cs.
Proof.
  intros Hp Hk. induction s as [|c s IH]; intros n pos Hs; simpl.
  - rewrite (Hk pos [] Hs). reflexivity.
  - destruct (ascii_text_cons Hs) as [Hc Hs'].
    rewrite (Hp c Hc), (Hk pos (c :: s) Hs), (IH (S n) (S pos) Hs').
    reflexivity.
Qed.

Lemma rmatch_ascii {A : Type} (r r' : regex) :
  same_on_ascii r r' ->
  forall (k k' : nat -> pystr -> spans -> option A),
    (forall pos s cs, ascii_text s -> k pos s cs = k' pos s cs) ->
    forall pos s cs,
      ascii_text s -> rmatch r k pos s cs = rmatch r' k' pos s cs.
Proof.
  induction 1 as [| |p q Hp|p q lo hi g Hp|r1 r1' r2 r2' _ IH1 _ IH2
                  |r1 r1' r2 r2' _ IH1 _ IH2|name r r' _ IH];
    intros k k' Hk pos s cs Hs; simpl.
  - apply Hk, Hs.
  - rewrite (Hk pos s cs Hs). reflexivity.
  - destruct s as [|c s]; [reflexivity|].
    destruct (ascii_text_cons Hs) as [Hc Hs'].
    rewrite (Hp c Hc), (Hk (S pos) s cs Hs'). reflexivity.
  - apply rep_match_ascii; [exact Hp| |exact Hs].
    intros pos' s' Hs'. apply Hk, Hs'.
  - apply IH1; [|exact Hs]. intros pos' s' cs' Hs'.
    apply IH2; [exact Hk|exact Hs'].
  - rewrite (IH1 k k' Hk pos s cs Hs), (IH2 k k' Hk pos s cs Hs).
    reflexivity.
  - apply IH; [|exact Hs]. intros pos' s' cs' Hs'. apply Hk, Hs'.
Qed.

Lemma re_match_ascii (r r' : regex) (s : pystr) :
  same_on_ascii r r' -> ascii_text s -> re_match r s = re_match r' s.
Proof.
  intros Hr Hs. unfold re_match, match_at.
  apply rmatch_ascii; [exact Hr| |exact Hs]. reflexivity.
Qed.

Lemma digit_ascii (c : char) :
  is_ascii c -> digit U c = digit ascii_unicode c.
Proof. intros Hc. unfold digit. rewrite (proj1 HU c Hc). reflexivity. Qed.

(** Two patterns that differ in [digit] only. *)
Ltac same_patterns :=
  repeat first
    [ apply same_Emp | apply same_Bol
    | apply same_Cat | apply same_Alt | apply same_Grp
    | apply same_Cls; intros ? ?; first [reflexivity|apply digit_ascii; assumption]
    | apply same_Rep; intros ? ?; first [reflexivity|apply digit_ascii; assumption] ].

Lemma patterns_ascii :
  Forall2 same_on_ascii (_PATTERNS U) (_PATTERNS ascii_unicode).
Proof.
  unfold _PATTERNS.
  repeat (apply Forall2_cons || apply Forall2_nil);
    cbv [cat fold_right opt star plus times Chr]; same_patterns.
Qed.

Lemma directive_regex_ascii (d : char) :
  same_option (directive_regex U d) (directive_regex ascii_unicode d).
Proof.
  unfold directive_regex.
  repeat (destruct (N.eqb d _);
          [cbv [same_option alt fold_left cat fold_right Chr Rng];
           same_patterns|]).
  exact I.
Qed.

Lemma format_regex_ascii (n : nat) :
  forall format in_ws,
    (length format <= n)%nat ->
    same_option (format_regex U in_ws format)
                (format_regex ascii_unicode in_ws format).
Proof.
  induction n as [|n IH]; intros [|c format] in_ws Hn;
    try exact same_Emp; simpl in Hn; [lia|].
  cbn [format_regex]. destruct (N.eqb c (key "%")).
  - destruct format as [|d format]; [exact I|].
    pose proof (directive_regex_ascii d) as Hd.
    assert (Hf : same_option (format_regex U false format)
                   (format_regex ascii_unicode false format)).
    { apply IH. simpl in Hn. lia. }
    destruct (directive_regex U d), (directive_regex ascii_unicode d);
      try contradiction; try exact I.
    destruct (format_regex U false format),
             (format_regex ascii_unicode false format);
      try contradiction; try exact I.
    apply same_Cat; assumption.
  - assert (Hf : same_option (format_regex U (py_isspace c) format)
                   (format_regex ascii_unicode (py_isspace c) format)).
    { apply IH. lia. }
    destruct (format_regex U (py_isspace c) format),
             (format_regex ascii_unicode (py_isspace c) format);
      try contradiction; try exact I.
    simpl. destruct (py_isspace c); [destruct in_ws|]; same_patterns;
      assumption.
Qed.

Lemma digits_value_ascii (s : pystr) :
  ascii_text s ->
  forall acc, digits_value U acc s = digits_value ascii_unicode acc s.
Proof.
  induction s as [|c s IH]; intros Hs acc; simpl; [reflexivity|].
  destruct (ascii_text_cons Hs) as [Hc Hs'].
  rewrite (proj1 HU c Hc). simpl.
  destruct (ascii_decimal c); [apply IH, Hs'|reflexivity].
Qed.

Lemma py_int_ascii (s : pystr) :
  ascii_text s -> py_int U s = py_int ascii_unicode s.
Proof.
  intros Hs. unfold py_int. apply ascii_text_strip in Hs.
  destruct (strip s); [reflexivity|]. apply digits_value_ascii, Hs.
Qed.

Lemma str_lower_ascii (s : pystr) :
  ascii_text s -> str_lower U s = str_lower ascii_unicode s.
Proof. intros Hs. apply (proj2 HU s Hs). Qed.

Lemma group_ascii (m : Match) (name : N) (g : pystr) :
  ascii_text (m_string m) -> group m name = Some g -> ascii_text g.
Proof. intros Hm Hg c Hc. apply Hm. exact (group_In m name c Hg Hc). Qed.

Lemma assign_ascii (found : Match) (acc : option tm) (group_key : N) :
  ascii_text (m_string found) ->
  assign U found acc group_key = assign ascii_unicode found acc group_key.
Proof.
  intros Hm. unfold assign. destruct acc as [t|]; [|reflexivity].
  destruct (group found group_key) as [text|] eqn:G; [|reflexivity].
  rewrite (py_int_ascii (group_ascii _ _ Hm G)).
  destruct (group found (key "p")) as [p|] eqn:Gp;
    [rewrite (str_lower_ascii (group_ascii _ _ Hm Gp))|]; reflexivity.
Qed.

Lemma strptime_ascii (data_string format : pystr) :
  ascii_text data_string ->
  strptime U data_string format = strptime ascii_unicode data_string format.
Proof.
  intros Hd. unfold strptime.
  pose proof (format_regex_ascii format false (le_n (length format)))
    as Hf.
  destruct (format_regex U false format) as [r|],
           (format_regex ascii_unicode false format) as [r'|];
    try contradiction; [|reflexivity].
  simpl in Hf. rewrite (re_match_ascii Hf Hd).
  destruct (re_match r' data_string) as [found|] eqn:E; [|reflexivity].
  apply match_at_spec in E. destruct E as [E _].
  rewrite (fold_left_ext_in (assign U found) (assign ascii_unicode found));
    [reflexivity|].
  intros a x _. apply assign_ascii. rewrite E. exact Hd.
Qed.

Lemma _parse_timestamp_ascii (date_str time_str : pystr) :
  ascii_text date_str -> ascii_text time_str ->
  _parse_timestamp U date_str time_str
  = _parse_timestamp ascii_unicode date_str time_str.
Proof.
  intros Hd Ht. unfold _parse_timestamp. apply first_some_ext.
  intros fmt. apply strptime_ascii. unfold combined.
  apply ascii_text_app; [exact Hd|].
  apply ascii_text_app; [apply ascii_textb_spec; reflexivity|].
  apply ascii_text_strip, Ht.
Qed.

Lemma first_match_ascii (ps ps' : list regex) (line : pystr) :
  Forall2 same_on_ascii ps ps' -> ascii_text line ->
  forall index, first_match ps index line = first_match ps' index line.
Proof.
  intros Hps Hl. induction Hps as [|r r' ps ps' Hr _ IH]; intros index;
    simpl; [reflexivity|].
  rewrite (re_match_ascii Hr Hl), IH. reflexivity.
Qed.

Lemma first_match_string (ps : list regex) (line : pystr) :
  forall index pattern m,
    first_match ps index line = Some (pattern, m) -> m_string m = line.
Proof.
  induction ps as [|r ps IH]; intros index pattern m; simpl; [discriminate|].
  destruct (re_match r line) as [m'|] eqn:E; [|apply IH].
  intros [= _ <-]. apply match_at_spec in E. apply E.
Qed.

Lemma _extract_message_ascii (match_ : Match) (line : pystr) (pattern : nat) :
  ascii_text (m_string match_) -> ascii_text line ->
  _extract_message U match_ line pattern
  = _extract_message ascii_unicode match_ line pattern.
Proof.
  intros Hm Hl. unfold _extract_message.
  destruct (group match_ 1) as [group1|] eqn:G1; [|reflexivity].
  destruct (group match_ 2) as [group2|] eqn:G2; [|reflexivity].
  pose proof (group_ascii _ _ Hm G1) as H1.
  pose proof (group_ascii _ _ Hm G2) as H2.
  assert (Hrest : ascii_text (skipn (m_end match_) line)).
  { revert Hl. apply ascii_text_incl. intros c. apply skipn_In. }
  assert (Hbody : forall ts,
    match re_match sender_pattern (skipn (m_end match_) line) with
    | Some sender_match =>
        match group sender_match 1, group sender_match 2 with
        | Some g1, Some g2 =>
            Some {| timestamp := ts; sender := strip g1;
                    content := strip g2;
                    is_system := _is_system_message U (strip g2);
                    is_media :=
                      contains (str_lower U (strip g2)) _MEDIA_INDICATOR |}
        | _, _ => None
        end
    | None =>
        Some {| timestamp := ts; sender := lit "System";
                content := strip (skipn (m_end match_) line);
                is_system := true; is_media := false |}
    end
    = match re_match sender_pattern (skipn (m_end match_) line) with
      | Some sender_match =>
          match group sender_match 1, group sender_match 2 with
          | Some g1, Some g2 =>
              Some {| timestamp := ts; sender := strip g1;
                      content := strip g2;
                      is_system :=
                        _is_system_message ascii_unicode (strip g2);
                      is_media :=
                        contains (str_lower ascii_unicode (strip g2))
                                 _MEDIA_INDICATOR |}
          | _, _ => None
          end
      | None =>
          Some {| timestamp := ts; sender := lit "System";
                  content := strip (skipn (m_end match_) line);
                  is_system := true; is_media := false |}
      end).
  { intros ts.
    destruct (re_match sender_pattern _) as [sm|] eqn:Es; [|reflexivity].
    destruct (group sm 1) as [g1|]; [|reflexivity].
    destruct (group sm 2) as [g2|] eqn:Gs; [|reflexivity].
    apply match_at_spec in Es. destruct Es as [Es _].
    assert (Hg : ascii_text (strip g2)).
    { apply ascii_text_strip. apply (group_ascii sm 2%N); [|exact Gs].
      rewrite Es. exact Hrest. }
    unfold _is_system_message. rewrite (str_lower_ascii Hg). reflexivity. }
  destruct (pattern =? _TIME_FIRST_PATTERN)%nat;
    rewrite _parse_timestamp_ascii by assumption;
    (destruct (_parse_timestamp ascii_unicode _ _) as [ts|];
     [apply Hbody|reflexivity]).
Qed.

Lemma _try_parse_line_ascii (line : pystr) :
  ascii_text line ->
  _try_parse_line U line = _try_parse_line ascii_unicode line.
Proof.
  intros Hl. unfold _try_parse_line.
  assert (Hc : ascii_text (_clean_line line)).
  { revert Hl. apply ascii_text_incl. intros c. apply _clean_line_In. }
  destruct (_clean_line line) as [|c l] eqn:Ec; [reflexivity|].
  rewrite (first_match_ascii patterns_ascii Hc).
  destruct (first_match (_PATTERNS ascii_unicode) 0 (c :: l))
    as [[pattern match_]|] eqn:Ef; [|reflexivity].
  apply _extract_message_ascii; [|exact Hc].
  rewrite (first_match_string _ _ _ Ef). exact Hc.
Qed.

Lemma parse_text_ascii (text : pystr) :
  ascii_text text -> parse_text U text = parse_text ascii_unicode text.
Proof.
  intros Ht. unfold parse_text. f_equal.
  apply fold_left_ext_in. intros st line Hline. unfold step.
  rewrite _try_parse_line_ascii; [reflexivity|].
  intros c Hc. apply Ht. exact (split_In NL text line Hline c Hc).
Qed.

End Ascii.

Lemma ascii_unicode_agrees : agrees_on_ascii ascii_unicode.
Proof. split; reflexivity. Qed.

(** C4. With the tables of the runtime as they are on ASCII, the two-line
    transcript of the specification parses to exactly two messages:
    Alice's, with content "Hey everyone!" and timestamp 2024-01-12T09:01,
    then Bob's, with timestamp 2024-01-12T09:02 (its content ends in the
    line break that ends the text).  The date is read day first: the first
    format of the list is the day-first one, and the text parses under it. *)
Theorem parse_two_lines :
  forall U : Unicode,
    agrees_on_ascii U ->
    WhatsAppTextParser.parse_text U two_lines
    = {| messages :=
           [ {| timestamp := jan12 9 1;
                sender := lit "Alice";
                content := lit "Hey everyone!";
                is_system := false;
                is_media := false |};
             {| timestamp := jan12 9 2;
                sender := lit "Bob";
                content := lit "Hi Alice!" ++ [NL];
                is_system := false;
                is_media := false |} ] |}
    /\ hd_error _DATE_FORMATS = Some (lit "%d/%m/%Y, %H:%M")
    /\ strptime U (lit "12/01/2024, 09:01") (lit "%d/%m/%Y, %H:%M")
       = Some (jan12 9 1).
Proof.
  intros U HU.
  rewrite (parse_text_ascii HU) by (apply ascii_textb_spec; reflexivity).
  rewrite (strptime_ascii HU) by (apply ascii_textb_spec; reflexivity).
  split; [|split]; vm_compute; reflexivity.
Qed.

(** The transcript with the ASCII tables themselves. *)
Lemma parse_two_lines_witness :
  agrees_on_ascii ascii_unicode
  /\ WhatsAppTextParser.parse_text ascii_unicode two_lines
     = {| messages :=
            [ msg_alice;
              {| timestamp := jan12 9 2;
                 sender := lit "Bob";
                 content := lit "Hi Alice!" ++ [NL];
                 is_system := false;
                 is_media := false |} ] |}.
Proof.
  split; [exact ascii_unicode_agrees|].
  exact (proj1 (parse_two_lines ascii_unicode_agrees)).
Defined.

(* ================================================================= *)
(** * More properties *)

(** ** The chunker and [needs_chunking] *)

Section ChunkerMore.
Import ConversationChunker.
Variable self : t.

Lemma text_len_snoc_le (ms : list ChatMessage) (m : ChatMessage) :
  text_len ms <= text_len (ms ++ [m]).
Proof.
  destruct ms as [|x xs].
  - unfold text_len. simpl. apply len_nonneg.
  - rewrite text_len_snoc by discriminate.
    pose proof (len_nonneg (ChatMessage_str m)). lia.
Qed.

Lemma text_len_app_le (a b : list ChatMessage) :
  text_len a <= text_len (a ++ b).
Proof.
  induction b as [|x b IH] using rev_ind.
  - rewrite app_nil_r. lia.
  - rewrite app_assoc. pose proof (text_len_snoc_le (a ++ b) x). lia.
Qed.

Lemma step_open (done : list ChatMessage) (m : ChatMessage) :
  text_len (done ++ [m]) <= max_chars self ->
  step self (open_state done) m = open_state (done ++ [m]).
Proof.
  intros Hfit. unfold step, closes, open_state. simpl.
  destruct done as [|x xs]; simpl.
  - rewrite andb_false_r. reflexivity.
  - rewrite text_len_snoc in Hfit by discriminate.
    replace (text_len (x :: xs) + 1 + len (ChatMessage_str m) >? max_chars self)
      with false by lia.
    simpl. f_equal.
    change (x :: xs ++ [m]) with ((x :: xs) ++ [m]).
    rewrite text_len_snoc by discriminate. lia.
Qed.

Lemma fold_open (todo : list ChatMessage) :
  forall done,
    text_len (done ++ todo) <= max_chars self ->
    fold_left (step self) todo (open_state done) = open_state (done ++ todo).
Proof.
  induction todo as [|m todo IH]; intros done Hfit; simpl.
  - rewrite app_nil_r. reflexivity.
  - assert (E : done ++ m :: todo = (done ++ [m]) ++ todo)
      by (rewrite <- app_assoc; reflexivity).
    rewrite E in Hfit. rewrite step_open.
    + rewrite IH by exact Hfit. rewrite E. reflexivity.
    + pose proof (text_len_app_le (done ++ [m]) todo). lia.
Qed.

Lemma needs_chunking_text_len (c : Conversation) :
  needs_chunking self c = (text_len (messages c) >? max_chars self).
Proof. reflexivity. Qed.

Lemma chunk_single_message (m : ChatMessage) :
  chunk self {| messages := [m] |} = [{| messages := [m] |}].
Proof.
  unfold chunk, step, closes. simpl. rewrite andb_false_r. reflexivity.
Qed.

Lemma chunk_fitting (c : Conversation) :
  messages c <> [] -> needs_chunking self c = false -> chunk self c = [c].
Proof.
  intros Hne Hfit. rewrite needs_chunking_text_len in Hfit.
  destruct c as [ms]. simpl in *. unfold chunk. simpl.
  destruct ms as [|m ms]; [congruence|].
  change start with (open_state []).
  rewrite fold_open by (simpl; lia). reflexivity.
Qed.

Lemma chunk_fitting_or_single (c : Conversation) :
  messages c <> [] ->
  needs_chunking self c = false \/ length (messages c) = 1%nat ->
  chunk self c = [c].
Proof.
  intros Hne [Hfit|Hone]; [apply chunk_fitting; assumption|].
  destruct c as [[|m [|m' ms]]]; simpl in *; try discriminate.
  apply chunk_single_message.
Qed.

Lemma greedy_inv_step (st : loop) (m : ChatMessage) :
  chunk_inv self st -> greedy_inv self st -> greedy_inv self (step self st m).
Proof.
  intros [Hc _ _] [Hs Hnil]. unfold greedy_inv, step, closes.
  destruct (current_messages st) as [|x xs] eqn:E.
  - rewrite andb_false_r. rewrite E. simpl.
    rewrite (Hnil eq_refl). simpl.
    split; [repeat constructor|discriminate].
  - rewrite andb_true_r.
    destruct (current_chars st + len (ChatMessage_str m) >? max_chars self)
      eqn:G; simpl.
    + split; [|discriminate].
      rewrite map_app, rev_app_distr. simpl.
      constructor; [exact Hs|]. constructor.
      intros m' ms [= <- <-]. lia.
    + rewrite E. split; [|discriminate].
      apply Sorted_inv in Hs. destruct Hs as [Hs Hd].
      constructor; [exact Hs|].
      destruct (rev (map messages (chunks st))) as [|b tl];
        constructor.
      apply HdRel_inv in Hd. intros m' ms [= <- <-].
      exact (Hd x xs eq_refl).
Qed.

Lemma greedy_inv_fold (l : list ChatMessage) (st : loop) :
  chunk_inv self st -> greedy_inv self st ->
  greedy_inv self (fold_left (step self) l st).
Proof.
  revert st. induction l as [|m l IH]; intros st Hi Hg; simpl; [exact Hg|].
  apply IH; [apply chunk_inv_step, Hi|apply greedy_inv_step; assumption].
Qed.

Lemma chunk_sorted (c : Conversation) :
  Sorted (overflows self) (rev (map messages (chunk self c))).
Proof.
  unfold chunk. destruct (messages c) as [|m l]; [constructor|].
  destruct (greedy_inv_fold (m :: l) (chunk_inv_start self))
    as [Hs Hnil].
  { split; [repeat constructor|reflexivity]. }
  unfold finish. destruct (current_messages _) eqn:E.
  - rewrite (Hnil eq_refl). constructor.
  - simpl. rewrite map_app, rev_app_distr. exact Hs.
Qed.

Lemma Sorted_middle {A : Type} (R : A -> A -> Prop) (p q : list A) (b a : A) :
  Sorted R (p ++ b :: a :: q) -> R b a.
Proof.
  induction p as [|x p IH]; simpl; intros H; apply Sorted_inv in H.
  - destruct H as [_ H]. apply HdRel_inv in H. exact H.
  - apply IH, H.
Qed.

End ChunkerMore.

(** X1. A conversation that has messages comes back from [chunk] as the
    one chunk it is exactly when [needs_chunking] is false or it has a
    single message. *)
Theorem chunk_one_iff_fits :
  forall (self : ConversationChunker.t) (c : Conversation),
    messages c <> [] ->
    (ConversationChunker.chunk self c = [c] <->
     ConversationChunker.needs_chunking self c = false
     \/ length (messages c) = 1%nat).
Proof.
  intros self c Hne. split.
  - intros E.
    pose proof (chunk_bounded self c) as Hb. rewrite E in Hb.
    apply Forall_inv in Hb. destruct Hb as [Hb _].
    rewrite needs_chunking_text_len.
    destruct (messages c) as [|m [|m' ms]] eqn:Em; [congruence|tauto|].
    left. simpl in Hb. lia.
  - apply chunk_fitting_or_single, Hne.
Qed.

Lemma chunk_one_iff_fits_witness :
  messages {| messages := [msg_alice; msg_bob] |} <> []
  /\ ConversationChunker.chunk small_chunker
       {| messages := [msg_alice; msg_bob] |}
     = [{| messages := [msg_alice; msg_bob] |}].
Proof.
  assert (H : messages {| messages := [msg_alice; msg_bob] |} <> [])
    by discriminate.
  split; [exact H|].
  apply (proj2 (chunk_one_iff_fits small_chunker _ H)).
  left. reflexivity.
Defined.

(** X2. [chunk] is greedy: the first message of a chunk did not fit into
    the chunk before it, whose text with a line break and that message
    would be longer than [max_chars]. *)
Theorem chunk_is_greedy :
  forall (self : ConversationChunker.t) (c : Conversation)
         (pre post : list Conversation) (a b : Conversation)
         (m : ChatMessage) (ms : list ChatMessage),
    ConversationChunker.chunk self c = pre ++ a :: b :: post ->
    messages b = m :: ms ->
    ConversationChunker.max_chars self
    < len (Conversation_.to_text a) + 1 + len (ChatMessage_str m).
Proof.
  intros self c pre post a b m ms E Eb.
  pose proof (chunk_sorted self c) as Hs. rewrite E in Hs.
  rewrite map_app, rev_app_distr in Hs. simpl in Hs.
  rewrite <- !app_assoc in Hs. simpl in Hs.
  apply Sorted_middle in Hs. exact (Hs m ms Eb).
Qed.

(** With [max_chars = 80]: "Hey everyone!" did not fit after the
    encryption notice. *)
Lemma chunk_is_greedy_witness :
  ConversationChunker.chunk small_chunker sample_conversation
  = [] ++ {| messages := [msg_encrypted] |}
       :: {| messages := [msg_alice; msg_bob] |}
       :: [{| messages := [msg_ALICE] |}]
  /\ ConversationChunker.max_chars small_chunker
     < len (Conversation_.to_text {| messages := [msg_encrypted] |}) + 1
       + len (ChatMessage_str msg_alice).
Proof.
  assert (H : ConversationChunker.chunk small_chunker sample_conversation
              = [] ++ {| messages := [msg_encrypted] |}
                   :: {| messages := [msg_alice; msg_bob] |}
                   :: [{| messages := [msg_ALICE] |}]) by reflexivity.
  split; [exact H|].
  exact (chunk_is_greedy small_chunker sample_conversation [] _ _ _ H
           eq_refl).
Defined.

Lemma join_app (sep : char) (a b : list pystr) :
  a <> [] -> b <> [] ->
  join sep (a ++ b) = join sep a ++ sep :: join sep b.
Proof.
  intros Ha Hb. induction a as [|x a IH]; [congruence|].
  destruct a as [|y a].
  - simpl. destruct b; [congruence|reflexivity].
  - change (join sep ((x :: y :: a) ++ b))
      with (x ++ sep :: join sep ((y :: a) ++ b)).
    rewrite IH by discriminate.
    change (join sep (x :: y :: a)) with (x ++ sep :: join sep (y :: a)).
    rewrite <- app_assoc. reflexivity.
Qed.

Lemma join_concat (sep : char) (ls : list (list pystr)) :
  Forall (fun l => l <> []) ls ->
  join sep (map (join sep) ls) = join sep (concat ls).
Proof.
  induction 1 as [|l ls Hl Hls IH]; [reflexivity|].
  destruct ls as [|l' ls].
  - simpl. rewrite app_nil_r. reflexivity.
  - change (join sep (map (join sep) (l :: l' :: ls)))
      with (join sep l ++ sep :: join sep (map (join sep) (l' :: ls))).
    rewrite IH.
    change (concat (l :: l' :: ls)) with (l ++ concat (l' :: ls)).
    rewrite (@join_app sep l (concat (l' :: ls))); [reflexivity|exact Hl|].
    apply Forall_inv in Hls. simpl. destruct l'; [congruence|discriminate].
Qed.

(** X3. The texts of the chunks, joined by line breaks, are the text of
    the conversation. *)
Theorem chunk_texts_join :
  forall (self : ConversationChunker.t) (c : Conversation),
    join NL (map Conversation_.to_text (ConversationChunker.chunk self c))
    = Conversation_.to_text c.
Proof.
  intros self c. unfold Conversation_.to_text.
  rewrite <- (chunk_concat self c).
  rewrite concat_map, <- join_concat.
  - rewrite !map_map. reflexivity.
  - pose proof (chunk_no_empty self c) as Hne. unfold no_empty in Hne.
    rewrite Forall_map, Forall_map.
    revert Hne. apply Forall_impl. intros ch H.
    destruct (messages ch); [congruence|discriminate].
Qed.

(** X4. A chunk is stable: chunking it again, with the same [max_chars],
    returns the chunk itself. *)
Theorem chunk_of_chunk :
  forall (self : ConversationChunker.t) (c ch : Conversation),
    In ch (ConversationChunker.chunk self c) ->
    ConversationChunker.chunk self ch = [ch].
Proof.
  intros self c ch Hin.
  pose proof (chunk_no_empty self c) as Hne. unfold no_empty in Hne.
  rewrite Forall_forall in Hne. specialize (Hne ch Hin).
  pose proof (chunk_bounded self c) as Hb.
  rewrite Forall_forall in Hb. destruct (Hb ch Hin) as [Hb2 _].
  apply chunk_fitting_or_single; [exact Hne|].
  rewrite needs_chunking_text_len.
  destruct (messages ch) as [|m [|m' ms]]; [congruence|tauto|].
  left. simpl in Hb2. lia.
Qed.

Lemma chunk_of_chunk_witness :
  In {| messages := [msg_alice; msg_bob] |}
     (ConversationChunker.chunk small_chunker sample_conversation)
  /\ ConversationChunker.chunk small_chunker
       {| messages := [msg_alice; msg_bob] |}
     = [{| messages := [msg_alice; msg_bob] |}].
Proof.
  assert (H : In {| messages := [msg_alice; msg_bob] |}
                 (ConversationChunker.chunk small_chunker
                    sample_conversation))
    by (simpl; right; left; reflexivity).
  split; [exact H|].
  exact (chunk_of_chunk small_chunker sample_conversation _ H).
Defined.

(* ================================================================= *)
(** ** The properties of a conversation *)

Lemma str_compare_eq (a b : pystr) : str_compare a b = Eq <-> a = b.
Proof.
  revert b. induction a as [|x a IH]; intros [|y b]; simpl;
    try (split; [discriminate|congruence]); [tauto|].
  destruct (N.compare_spec x y) as [->|H|H].
  - rewrite IH. split; [congruence|intros [= ->]; reflexivity].
  - split; [discriminate|intros [= -> _]; lia].
  - split; [discriminate|intros [= -> _]; lia].
Qed.

Lemma str_compare_antisym (a b : pystr) :
  str_compare b a = CompOpp (str_compare a b).
Proof.
  revert b. induction a as [|x a IH]; intros [|y b]; simpl; try reflexivity.
  rewrite (N.compare_antisym x y).
  destruct (x ?= y)%N; simpl; [apply IH|reflexivity|reflexivity].
Qed.

Lemma str_compare_trans (a b c : pystr) :
  str_compare a b = Lt -> str_compare b c = Lt -> str_compare a c = Lt.
Proof.
  revert b c. induction a as [|x a IH]; intros [|y b] [|z c]; simpl;
    try discriminate; try reflexivity.
  destruct (N.compare_spec x y) as [->|Hxy|Hxy]; try discriminate.
  - destruct (N.compare_spec y z) as [->|Hyz|Hyz]; try discriminate.
    + apply IH.
    + reflexivity.
  - intros _.
    destruct (N.compare_spec y z) as [->|Hyz|Hyz]; try discriminate; intros _.
    + destruct (N.compare_spec x z); [lia|reflexivity|lia].
    + destruct (N.compare_spec x z); [lia|reflexivity|lia].
Qed.

Lemma str_lt_irrefl (a : pystr) : str_lt a a = false.
Proof.
  unfold str_lt. replace (str_compare a a) with Eq; [reflexivity|].
  symmetry. apply str_compare_eq. reflexivity.
Qed.

Lemma str_lt_trans (a b c : pystr) :
  str_lt a b = true -> str_lt b c = true -> str_lt a c = true.
Proof.
  unfold str_lt. intros H1 H2.
  destruct (str_compare a b) eqn:E1; try discriminate.
  destruct (str_compare b c) eqn:E2; try discriminate.
  rewrite (str_compare_trans _ _ _ E1 E2). reflexivity.
Qed.

Lemma str_lt_asym (a b : pystr) : str_lt a b = true -> str_lt b a = false.
Proof.
  unfold str_lt. rewrite (str_compare_antisym a b).
  destruct (str_compare a b); simpl; congruence.
Qed.

(** Two different strings are ordered one way or the other. *)
Lemma str_lt_total (a b : pystr) :
  a <> b -> str_lt a b = false -> str_lt b a = true.
Proof.
  unfold str_lt. rewrite (str_compare_antisym a b). intros Hne.
  destruct (str_compare a b) eqn:E; simpl; try congruence.
  apply str_compare_eq in E. contradiction.
Qed.

Lemma existsb_pystr_eqb (x : pystr) (l : list pystr) :
  existsb (pystr_eqb x) l = true <-> In x l.
Proof.
  rewrite existsb_exists. split.
  - intros [y [Hy E]]. apply pystr_eqb_eq in E. subst. exact Hy.
  - intros H. exists x. split; [exact H|]. apply pystr_eqb_eq. reflexivity.
Qed.

Lemma py_set_In (l : list pystr) (x : pystr) : In x (py_set l) <-> In x l.
Proof.
  revert x. induction l as [|y l IH]; intros x; simpl; [tauto|].
  destruct (existsb (pystr_eqb y) (py_set l)) eqn:E.
  - apply existsb_pystr_eqb in E. rewrite IH in E. rewrite IH.
    split; [tauto|intros [<-|H]; assumption].
  - simpl. rewrite IH. tauto.
Qed.

Lemma py_set_NoDup (l : list pystr) : NoDup (py_set l).
Proof.
  induction l as [|y l IH]; simpl; [constructor|].
  destruct (existsb (pystr_eqb y) (py_set l)) eqn:E; [exact IH|].
  constructor; [|exact IH].
  intros H. apply existsb_pystr_eqb in H. congruence.
Qed.

Lemma insort_In (x : pystr) (l : list pystr) (y : pystr) :
  In y (insort x l) <-> y = x \/ In y l.
Proof.
  induction l as [|z l IH]; simpl.
  - split; [intros [<-|[]]; tauto|intros [->|[]]; tauto].
  - destruct (str_lt z x); simpl; [rewrite IH|];
      split; intros H; repeat destruct H as [H|H]; subst; tauto.
Qed.

Lemma sorted_In (l : list pystr) (y : pystr) : In y (sorted l) <-> In y l.
Proof.
  induction l as [|x l IH]; simpl; [tauto|].
  rewrite insort_In, IH. split; intros [H|H]; subst; tauto.
Qed.

Lemma insort_ascending (x : pystr) (l : list pystr) :
  ~ In x l -> ascending l -> ascending (insort x l).
Proof.
  unfold ascending. intros Hx Hl. induction Hl as [|z l Hl IH Hz]; simpl.
  - constructor; constructor.
  - destruct (str_lt z x) eqn:E.
    + constructor.
      * apply IH. intros H. apply Hx. right. exact H.
      * apply Forall_forall. intros y Hy. apply insort_In in Hy.
        destruct Hy as [->|Hy]; [exact E|].
        rewrite Forall_forall in Hz. apply Hz, Hy.
    + assert (Hxz : str_lt x z = true).
      { apply str_lt_total; [|exact E]. intros ->. apply Hx. left. reflexivity. }
      constructor; [constructor; assumption|].
      constructor; [exact Hxz|].
      apply Forall_forall. intros y Hy. rewrite Forall_forall in Hz.
      apply (str_lt_trans _ _ _ Hxz), Hz, Hy.
Qed.

Lemma sorted_ascending (l : list pystr) : NoDup l -> ascending (sorted l).
Proof.
  induction 1 as [|x l Hx Hl IH]; simpl; [constructor|].
  apply insort_ascending; [|exact IH].
  rewrite sorted_In. exact Hx.
Qed.

(** An ascending list is determined by its elements. *)
Lemma ascending_ext (l l' : list pystr) :
  ascending l -> ascending l' -> (forall x, In x l <-> In x l') -> l = l'.
Proof.
  unfold ascending. intros Hl. revert l'.
  induction Hl as [|x l Hl IH Hx]; intros l' Hl' Hin.
  - destruct l' as [|y l']; [reflexivity|].
    destruct (proj2 (Hin y) (or_introl eq_refl)).
  - destruct Hl' as [|y l' Hl' Hy].
    + destruct (proj1 (Hin x) (or_introl eq_refl)).
    + rewrite Forall_forall in Hx, Hy.
      assert (E : x = y).
      { destruct (proj1 (Hin x) (or_introl eq_refl)) as [E|Hxl']; [auto|].
        destruct (proj2 (Hin y) (or_introl eq_refl)) as [E|Hyl]; [auto|].
        pose proof (str_lt_asym _ _ (Hx _ Hyl)) as H1.
        rewrite (Hy _ Hxl') in H1. discriminate. }
      subst y. f_equal. apply IH; [exact Hl'|].
      intros z. split; intros Hz.
      * destruct (proj1 (Hin z) (or_intror Hz)) as [<-|H]; [|exact H].
        pose proof (Hx _ Hz) as H1. rewrite str_lt_irrefl in H1. discriminate.
      * destruct (proj2 (Hin z) (or_intror Hz)) as [<-|H]; [|exact H].
        pose proof (Hy _ Hz) as H1. rewrite str_lt_irrefl in H1. discriminate.
Qed.

(** [sorted] of a set does not depend on the order in which the set is
    iterated. *)
Lemma sorted_of_set_unique (l l' : list pystr) :
  NoDup l -> NoDup l' -> (forall x, In x l <-> In x l') ->
  sorted l = sorted l'.
Proof.
  intros Hl Hl' Hin. apply ascending_ext.
  - apply sorted_ascending, Hl.
  - apply sorted_ascending, Hl'.
  - intros x. rewrite !sorted_In. apply Hin.
Qed.

Lemma ascending_filter (f : pystr -> bool) (l : list pystr) :
  ascending l -> ascending (filter f l).
Proof.
  unfold ascending. induction 1 as [|x l Hl IH Hx]; simpl; [constructor|].
  destruct (f x); [|exact IH].
  constructor; [exact IH|].
  rewrite Forall_forall in *. intros y Hy. apply filter_In in Hy.
  apply Hx, Hy.
Qed.

Lemma participants_ascending (c : Conversation) :
  ascending (ConversationProps.participants c).
Proof. apply sorted_ascending, py_set_NoDup. Qed.

Lemma participants_In (c : Conversation) (p : pystr) :
  In p (ConversationProps.participants c) <->
  exists m, In m (messages c) /\ is_system m = false /\ sender m = p.
Proof.
  unfold ConversationProps.participants.
  rewrite sorted_In, py_set_In, in_map_iff.
  split; intros [m H]; exists m; rewrite filter_In, negb_true_iff in *; tauto.
Qed.

(** X5.  [participants] lists the senders of the messages that are not
    system messages, each once, in strictly ascending order of [str]. *)
Theorem participants_sorted_senders :
  forall (c : Conversation),
    ascending (ConversationProps.participants c)
    /\ forall p,
         In p (ConversationProps.participants c) <->
         exists m, In m (messages c) /\ is_system m = false /\ sender m = p.
Proof.
  intros c. split; [apply participants_ascending|apply participants_In].
Qed.

(** X6.  After [filter_by_participant], the participants are those of the
    conversation whose name is the asked one up to case. *)
Theorem participants_of_filter_by_participant :
  forall (U : Unicode) (c : Conversation) (p : pystr),
    ConversationProps.participants (Conversation_.filter_by_participant U c p)
    = filter (fun q => pystr_eqb (str_lower U q) (str_lower U p))
             (ConversationProps.participants c).
Proof.
  intros U c p. apply ascending_ext.
  - apply participants_ascending.
  - apply ascending_filter, participants_ascending.
  - intros q. rewrite filter_In, !participants_In, pystr_eqb_eq.
    unfold Conversation_.filter_by_participant. simpl. split.
    + intros [m [Hm [Hs <-]]]. apply filter_In in Hm. destruct Hm as [Hm Hk].
      rewrite Hs, orb_false_r in Hk. apply pystr_eqb_eq in Hk.
      split; [exists m; tauto|exact Hk].
    + intros [[m [Hm [Hs <-]]] Hk]. exists m. rewrite filter_In.
      repeat split; try assumption.
      rewrite Hs, orb_false_r. apply pystr_eqb_eq, Hk.
Qed.

Lemma start_date_In (c : Conversation) (d : datetime) :
  ConversationProps.start_date c = Some d ->
  exists m, In m (messages c) /\ timestamp m = d.
Proof.
  unfold ConversationProps.start_date.
  destruct (messages c) as [|m ms]; [discriminate|].
  intros [= <-]. exists m. split; [left|]; reflexivity.
Qed.

Lemma last_In {A : Type} (l : list A) (d : A) : last l d = d \/ In (last l d) l.
Proof.
  induction l as [|x [|y l] IH]; simpl; [left; reflexivity|right; left; reflexivity|].
  right. simpl in IH. destruct IH as [IH|IH].
  - right. (* the last of a non-empty list is one of its elements *)
    clear - IH. revert y IH. induction l as [|z l IHl]; intros y IH; simpl in *.
    + left. reflexivity.
    + right. destruct l as [|w l]; [left; reflexivity|].
      apply (IHl z). exact IH.
  - right. exact IH.
Qed.

Lemma end_date_In (c : Conversation) (d : datetime) :
  ConversationProps.end_date c = Some d ->
  exists m, In m (messages c) /\ timestamp m = d.
Proof.
  unfold ConversationProps.end_date.
  destruct (messages c) as [|m ms]; [discriminate|].
  intros [= <-]. exists (last ms m). split; [|reflexivity].
  destruct (last_In ms m) as [->|H]; [left; reflexivity|right; exact H].
Qed.

(** X7.  The first and the last date of what [filter_by_date_range]
    returns lie within the bounds that were given. *)
Theorem filtered_dates_within :
  forall (c : Conversation) (start end_ : option datetime) (d : datetime),
    let result := Conversation_.filter_by_date_range c start end_ in
    ConversationProps.start_date result = Some d
    \/ ConversationProps.end_date result = Some d ->
    within start end_ d.
Proof.
  intros c start end_ d result H.
  assert (Hm : exists m, In m (messages result) /\ timestamp m = d).
  { destruct H as [H|H]; [apply start_date_In|apply end_date_In]; exact H. }
  destruct Hm as [m [Hm <-]]. unfold result in Hm.
  rewrite filter_by_date_range_filter in Hm. apply filter_In in Hm.
  apply in_date_range_iff, Hm.
Qed.

Lemma filtered_dates_within_witness :
  ConversationProps.start_date
    (Conversation_.filter_by_date_range sample_conversation
       (Some (jan12 9 1)) (Some (jan12 9 2))) = Some (jan12 9 1)
  /\ within (Some (jan12 9 1)) (Some (jan12 9 2)) (jan12 9 1).
Proof.
  split; [reflexivity|].
  apply (filtered_dates_within sample_conversation
           (Some (jan12 9 1)) (Some (jan12 9 2))).
  left. reflexivity.
Defined.

Lemma lex_compare_le_trans (a b c : list Z) :
  lex_compare a b <> Gt -> lex_compare b c <> Gt -> lex_compare a c <> Gt.
Proof.
  revert b c. induction a as [|x a IH]; intros [|y b] [|z c]; simpl;
    try congruence.
  destruct (Z.compare_spec x y) as [->|Hxy|Hxy]; try congruence.
  - destruct (Z.compare_spec y z) as [->|Hyz|Hyz]; try congruence.
    apply IH.
  - intros _.
    destruct (Z.compare_spec y z) as [->|Hyz|Hyz]; try congruence; intros _.
    + destruct (Z.compare_spec x z); [lia|congruence|lia].
    + destruct (Z.compare_spec x z); [lia|congruence|lia].
Qed.

Lemma dt_le_trans (a b c : datetime) :
  dt_le a b = true -> dt_le b c = true -> dt_le a c = true.
Proof.
  unfold dt_le, datetime_cmp. intros H1 H2.
  pose proof (@lex_compare_le_trans (datetime_fields a) (datetime_fields b)
                (datetime_fields c)) as H.
  destruct (lex_compare (datetime_fields a) (datetime_fields b));
    destruct (lex_compare (datetime_fields b) (datetime_fields c));
    try discriminate;
    destruct (lex_compare (datetime_fields a) (datetime_fields c));
    try reflexivity; exfalso; apply H; congruence.
Qed.

Lemma chronological_strong (ms : list ChatMessage) :
  Sorted (fun a b => dt_le (timestamp a) (timestamp b) = true) ms ->
  StronglySorted (fun a b => dt_le (timestamp a) (timestamp b) = true) ms.
Proof.
  apply Sorted_StronglySorted. intros a b c. apply dt_le_trans.
Qed.

(** In a chronological list every message is at most as late as the last. *)
Lemma chronological_last (ms : list ChatMessage) (m0 m : ChatMessage) :
  StronglySorted (fun a b => dt_le (timestamp a) (timestamp b) = true)
                 (m0 :: ms) ->
  In m (m0 :: ms) ->
  dt_le (timestamp m) (timestamp (last ms m0)) = true.
Proof.
  revert m0 m. induction ms as [|m1 ms IH]; intros m0 m H Hm.
  - destruct Hm as [<-|[]]. apply dt_le_refl.
  - change (last (m1 :: ms) m0) with
      (match ms with [] => m1 | _ :: _ => last ms m0 end).
    assert (E : match ms with [] => m1 | _ :: _ => last ms m0 end = last ms m1).
    { destruct ms as [|m2 ms]; [reflexivity|].
      clear. revert m2. induction ms as [|m3 ms IHl]; intros m2;
        [reflexivity|]. apply (IHl m3). }
    rewrite E. inversion H as [|? ? Hs Hf]; subst.
    destruct Hm as [<-|Hm].
    + apply dt_le_trans with (timestamp m1).
      * rewrite Forall_forall in Hf. apply Hf. left. reflexivity.
      * apply IH; [exact Hs|left; reflexivity].
    + apply IH; assumption.
Qed.

(** X8.  A chronological conversation is left as it is by
    [filter_by_date_range] with its own first and last date as bounds. *)
Theorem filter_by_own_dates :
  forall (c : Conversation),
    chronological c ->
    Conversation_.filter_by_date_range c
      (ConversationProps.start_date c) (ConversationProps.end_date c) = c.
Proof.
  intros [ms] H. unfold chronological in H. simpl in H.
  apply chronological_strong in H.
  unfold Conversation_.filter_by_date_range. f_equal.
  change (messages (Conversation_.filter_by_date_range {| messages := ms |}
            (ConversationProps.start_date {| messages := ms |})
            (ConversationProps.end_date {| messages := ms |})) = ms).
  rewrite filter_by_date_range_filter. simpl.
  apply forallb_filter_id. apply forallb_forall. intros m Hm.
  apply in_date_range_iff.
  unfold ConversationProps.start_date, ConversationProps.end_date. simpl.
  destruct ms as [|m0 ms]; [destruct Hm|].
  split; intros d [= <-].
  - inversion H as [|? ? _ Hf]; subst. destruct Hm as [<-|Hm].
    + apply dt_le_refl.
    + rewrite Forall_forall in Hf. apply Hf, Hm.
  - apply chronological_last; assumption.
Qed.

Lemma chronological_sample : chronological sample_conversation.
Proof. repeat constructor. Qed.

Lemma filter_by_own_dates_witness :
  chronological sample_conversation
  /\ Conversation_.filter_by_date_range sample_conversation
       (ConversationProps.start_date sample_conversation)
       (ConversationProps.end_date sample_conversation)
     = sample_conversation.
Proof.
  split; [apply chronological_sample|].
  exact (filter_by_own_dates chronological_sample).
Defined.

Lemma filter_by_participant_filter (U : Unicode) (c : Conversation)
    (p : pystr) :
  messages (Conversation_.filter_by_participant U c p)
  = filter (fun m => pystr_eqb (str_lower U (sender m)) (str_lower U p)
                     || is_system m)
           (messages c).
Proof. reflexivity. Qed.

Lemma Conversation_ext (c c' : Conversation) :
  messages c = messages c' -> c = c'.
Proof. destruct c, c'. simpl. congruence. Qed.

Lemma filter_comm {A : Type} (f g : A -> bool) (l : list A) :
  filter f (filter g l) = filter g (filter f l).
Proof.
  induction l as [|x l IH]; simpl; [reflexivity|].
  destruct (f x) eqn:Ef, (g x) eqn:Eg; simpl; rewrite ?Ef, ?Eg, IH;
    reflexivity.
Qed.

Lemma filter_idem {A : Type} (f : A -> bool) (l : list A) :
  filter f (filter f l) = filter f l.
Proof.
  induction l as [|x l IH]; simpl; [reflexivity|].
  destruct (f x) eqn:Ef; simpl; rewrite ?Ef, IH; reflexivity.
Qed.

(** X9.  The two filters commute: by participant and then by date range is
    the same conversation as by date range and then by participant. *)
Theorem filters_commute :
  forall (U : Unicode) (c : Conversation) (p : pystr)
         (start end_ : option datetime),
    Conversation_.filter_by_participant U
      (Conversation_.filter_by_date_range c start end_) p
    = Conversation_.filter_by_date_range
        (Conversation_.filter_by_participant U c p) start end_.
Proof.
  intros U c p start end_. apply Conversation_ext.
  rewrite filter_by_participant_filter, !filter_by_date_range_filter,
    filter_by_participant_filter.
  apply filter_comm.
Qed.

(** X10.  Each filter is idempotent: applied a second time with the same
    arguments it changes nothing. *)
Theorem filters_idempotent :
  forall (U : Unicode) (c : Conversation) (p : pystr)
         (start end_ : option datetime),
    Conversation_.filter_by_participant U
      (Conversation_.filter_by_participant U c p) p
    = Conversation_.filter_by_participant U c p
    /\ Conversation_.filter_by_date_range
         (Conversation_.filter_by_date_range c start end_) start end_
       = Conversation_.filter_by_date_range c start end_.
Proof.
  intros U c p start end_. split; apply Conversation_ext.
  - rewrite !filter_by_participant_filter. apply filter_idem.
  - rewrite !filter_by_date_range_filter. apply filter_idem.
Qed.

Lemma filter_true {A : Type} (l : list A) : filter (fun _ => true) l = l.
Proof. induction l as [|x l IH]; simpl; congruence. Qed.

Lemma filter_filter {A : Type} (f g : A -> bool) (l : list A) :
  filter f (filter g l) = filter (fun x => g x && f x) l.
Proof.
  induction l as [|x l IH]; simpl; [reflexivity|].
  destruct (g x); simpl; [destruct (f x)|]; rewrite IH; reflexivity.
Qed.

(** X11.  [apply_filters] keeps exactly the messages that lie within the
    given dates and, when a participant that is not the empty string is
    given, are from that participant up to case or are system messages. *)
Theorem apply_filters_keeps :
  forall (U : Unicode) (c : Conversation) (participant : option pystr)
         (start_date end_date : option datetime),
    keeps (fun m =>
             within start_date end_date (timestamp m)
             /\ forall p, participant = Some p -> p <> [] ->
                  from_participant U p m)
          (messages c)
          (messages (apply_filters U c participant start_date end_date)).
Proof.
  intros U c participant start_date end_date.
  set (by_name := fun m : ChatMessage =>
         match participant with
         | Some (x :: p) =>
             pystr_eqb (str_lower U (sender m)) (str_lower U (x :: p))
             || is_system m
         | _ => true
         end).
  assert (E : messages (apply_filters U c participant start_date end_date)
              = filter (fun m => Conversation_.in_date_range
                                   start_date end_date m && by_name m)
                       (messages c)).
  { unfold apply_filters, by_name.
    assert (Hd : messages (if is_some start_date || is_some end_date
                 then Conversation_.filter_by_date_range c start_date end_date
                 else c)
                 = filter (Conversation_.in_date_range start_date end_date)
                          (messages c)).
    { destruct start_date, end_date; cbn [is_some orb];
        try apply filter_by_date_range_filter.
      symmetry. apply filter_true. }
    destruct participant as [[|x p]|]; simpl truthy_str; cbv iota.
    - rewrite Hd. apply filter_ext. intros m. rewrite andb_true_r. reflexivity.
    - rewrite filter_by_participant_filter, Hd. apply filter_filter.
    - rewrite Hd. apply filter_ext. intros m. rewrite andb_true_r. reflexivity. }
  rewrite E. apply keeps_filter. intros m.
  rewrite andb_true_iff, in_date_range_iff. unfold within, by_name.
  split.
  - intros [Hd Hn]. split; [exact Hd|]. intros p -> Hp.
    destruct p as [|x p]; [contradiction|].
    apply orb_true_iff in Hn. rewrite pystr_eqb_eq in Hn. exact Hn.
  - intros [Hd Hn]. split; [exact Hd|].
    destruct participant as [[|x p]|]; try reflexivity.
    apply orb_true_iff. rewrite pystr_eqb_eq.
    apply (Hn (x :: p)); [reflexivity|discriminate].
Qed.

(* ================================================================= *)
(** ** What a match consumes *)

(** A repetition consumes characters of its class, at least [lo] counting
    the [n] it has consumed before, and goes on with the continuation. *)
Lemma rep_match_sound {A : Type} (p : char -> bool) (lo : nat)
    (hi : option nat) (greedy : bool) (k : nat -> pystr -> spans -> option A)
    (s : pystr) (n pos : nat) (cs : spans) (x : A) :
  rep_match p lo hi greedy k n pos s cs = Some x ->
  exists j,
    (lo <= n + j)%nat /\ (j <= length s)%nat
    /\ forallb p (firstn j s) = true
    /\ k (pos + j)%nat (skipn j s) cs = Some x.
Proof.
  assert (Stop : forall n pos s,
             (lo <=? n)%nat = true -> k pos s cs = Some x ->
             exists j,
               (lo <= n + j)%nat /\ (j <= length s)%nat
               /\ forallb p (firstn j s) = true
               /\ k (pos + j)%nat (skipn j s) cs = Some x).
  { intros n0 pos0 s0 Hlo H. exists 0%nat. apply Nat.leb_le in Hlo.
    rewrite !Nat.add_0_r. simpl. repeat split; [lia|lia|exact H]. }
  assert (Next : forall n pos c s,
             p c && below n hi = true ->
             (exists j,
                (lo <= S n + j)%nat /\ (j <= length s)%nat
                /\ forallb p (firstn j s) = true
                /\ k (S pos + j)%nat (skipn j s) cs = Some x) ->
             exists j,
               (lo <= n + j)%nat /\ (j <= length (c :: s))%nat
               /\ forallb p (firstn j (c :: s)) = true
               /\ k (pos + j)%nat (skipn j (c :: s)) cs = Some x).
  { intros n0 pos0 c s0 Hp (j & H1 & H2 & H3 & H4).
    apply andb_true_iff in Hp. exists (S j). simpl.
    rewrite (proj1 Hp), H3. rewrite !Nat.add_succ_r.
    repeat split; [lia|lia|exact H4]. }
  revert n pos. induction s as [|c s IH]; intros n pos; simpl.
  - destruct greedy; destruct (lo <=? n)%nat eqn:Hlo; try discriminate;
      [intros H; exact (Stop n pos [] Hlo H)|].
    destruct (k pos [] cs) eqn:E; [|discriminate].
    intros [= ->]. exact (Stop n pos [] Hlo E).
  - destruct greedy.
    + destruct (p c && below n hi) eqn:Hp.
      * destruct (rep_match p lo hi true k (S n) (S pos) s cs) eqn:E.
        -- intros [= ->]. apply (Next n pos c s Hp). apply IH, E.
        -- destruct (lo <=? n)%nat eqn:Hlo; [|discriminate].
           intros H. exact (Stop n pos (c :: s) Hlo H).
      * destruct (lo <=? n)%nat eqn:Hlo; [|discriminate].
        intros H. exact (Stop n pos (c :: s) Hlo H).
    + destruct (lo <=? n)%nat eqn:Hlo.
      * destruct (k pos (c :: s) cs) eqn:E.
        -- intros [= ->]. exact (Stop n pos (c :: s) Hlo E).
        -- destruct (p c && below n hi) eqn:Hp; [|discriminate].
           intros H. apply (Next n pos c s Hp). apply IH, H.
      * destruct (p c && below n hi) eqn:Hp; [|discriminate].
        intros H. apply (Next n pos c s Hp). apply IH, H.
Qed.

(** A greedy repetition without upper bound, before a continuation that
    accepts whatever follows, is never refused once it has its minimum ... *)
Lemma rep_greedy_some {A : Type} (p : char -> bool) (lo : nat)
    (k : nat -> pystr -> spans -> option A) (s : pystr) (n pos : nat)
    (cs : spans) :
  (forall pos s cs, k pos s cs <> None) ->
  (lo <= n)%nat ->
  rep_match p lo None true k n pos s cs <> None.
Proof.
  intros Hk Hlo. apply Nat.leb_le in Hlo.
  destruct s as [|c s]; simpl; rewrite Hlo.
  - apply Hk.
  - destruct (p c && true);
      [destruct (rep_match p lo None true k (S n) (S pos) s cs);
       [discriminate|]|]; apply Hk.
Qed.

(** ... and consumes every character of its class there is. *)
Lemma rep_greedy_longest {A : Type} (p : char -> bool) (lo : nat)
    (k : nat -> pystr -> spans -> option A) (s : pystr) (n pos : nat)
    (cs : spans) (x : A) :
  (forall pos s cs, k pos s cs <> None) ->
  rep_match p lo None true k n pos s cs = Some x ->
  exists j,
    (lo <= n + j)%nat /\ (j <= length s)%nat
    /\ forallb p (firstn j s) = true
    /\ k (pos + j)%nat (skipn j s) cs = Some x
    /\ match skipn j s with c :: _ => p c = false | [] => True end.
Proof.
  intros Hk. revert n pos. induction s as [|c s IH]; intros n pos; simpl.
  - destruct (lo <=? n)%nat eqn:Hlo; [|discriminate].
    intros H. exists 0%nat. apply Nat.leb_le in Hlo. rewrite !Nat.add_0_r.
    simpl. repeat split; [lia|lia|exact H].
  - destruct (p c) eqn:Hp; simpl.
    + destruct (rep_match p lo None true k (S n) (S pos) s cs) eqn:E.
      * intros [= ->]. apply IH in E.
        destruct E as (j & H1 & H2 & H3 & H4 & H5).
        exists (S j). simpl. rewrite Hp, H3, !Nat.add_succ_r.
        repeat split; [lia|lia|exact H4|exact H5].
      * destruct (lo <=? n)%nat eqn:Hlo; [|discriminate].
        exfalso. apply Nat.leb_le in Hlo.
        apply (@rep_greedy_some A p lo k s (S n) (S pos) cs Hk); [lia|exact E].
    + destruct (lo <=? n)%nat eqn:Hlo; [|discriminate].
      intros H. exists 0%nat. apply Nat.leb_le in Hlo. rewrite !Nat.add_0_r.
      simpl. repeat split; [lia|lia|exact H|exact Hp].
Qed.

(** A match goes on with the continuation further on in the subject. *)
Lemma rmatch_advances {A : Type} (r : regex) :
  forall (k : nat -> pystr -> spans -> option A) (pos : nat) (s : pystr)
         (cs : spans) (x : A),
    rmatch r k pos s cs = Some x ->
    exists j cs',
      (j <= length s)%nat /\ k (pos + j)%nat (skipn j s) cs' = Some x.
Proof.
  induction r as [| |p|p lo hi g|r1 IH1 r2 IH2|r1 IH1 r2 IH2|n r IH];
    intros k pos s cs x; simpl.
  - intros H. exists 0%nat, cs. rewrite !Nat.add_0_r. split; [lia|exact H].
  - destruct (pos =? 0)%nat; [|discriminate].
    intros H. exists 0%nat, cs. rewrite !Nat.add_0_r. split; [lia|exact H].
  - destruct s as [|c s]; [discriminate|].
    destruct (p c); [|discriminate].
    intros H. exists 1%nat, cs. rewrite Nat.add_1_r. simpl. split; [lia|exact H].
  - intros H. apply rep_match_sound in H. destruct H as (j & _ & Hj & _ & H).
    exists j, cs. split; assumption.
  - intros H. apply IH1 in H. destruct H as (j1 & cs1 & Hj1 & H).
    apply IH2 in H. destruct H as (j2 & cs2 & Hj2 & H).
    exists (j1 + j2)%nat, cs2. rewrite length_skipn in Hj2.
    rewrite Nat.add_assoc, Nat.add_comm, <- skipn_skipn.
    rewrite (Nat.add_comm j2). split; [lia|exact H].
  - destruct (rmatch r1 k pos s cs) eqn:E.
    + intros [= ->]. apply (IH1 _ _ _ _ _ E).
    + apply IH2.
  - intros H. apply IH in H. destruct H as (j & cs' & Hj & H).
    exists j, ((n, (pos, (pos + j)%nat)) :: cs'). split; assumption.
Qed.

(** The last pattern of a concatenation is matched somewhere in the
    subject, and the match goes on from there. *)
Lemma cat_last {A : Type} (front : list regex) (r : regex) :
  forall (k : nat -> pystr -> spans -> option A) (pos : nat) (s : pystr)
         (cs : spans) (x : A),
    rmatch (cat (front ++ [r])) k pos s cs = Some x ->
    exists j cs',
      (j <= length s)%nat /\ rmatch r k (pos + j)%nat (skipn j s) cs' = Some x.
Proof.
  induction front as [|r0 front IH]; intros k pos s cs x; simpl.
  - intros H. exists 0%nat, cs. rewrite !Nat.add_0_r. split; [lia|exact H].
  - intros H. apply rmatch_advances in H. destruct H as (j1 & cs1 & Hj1 & H).
    apply IH in H. destruct H as (j2 & cs2 & Hj2 & H).
    exists (j1 + j2)%nat, cs2. rewrite length_skipn in Hj2.
    rewrite Nat.add_assoc, Nat.add_comm, <- skipn_skipn.
    rewrite (Nat.add_comm j2). split; [lia|exact H].
Qed.

Lemma patterns_end_with_spaces (U : Unicode) :
  Forall ends_with_spaces (_PATTERNS U).
Proof.
  repeat constructor.
  - eexists [_; _; _; _; _; _; _]. reflexivity.
  - eexists [_; _; _; _; _; _; _]. reflexivity.
  - eexists [_; _; _; _; _; _; _]. reflexivity.
  - eexists [_; _; _; _; _; _; _]. reflexivity.
Qed.

Lemma first_match_In (patterns : list regex) (index : nat) (line : pystr)
    (pattern : nat) (m : Match) :
  WhatsAppTextParser.first_match patterns index line = Some (pattern, m) ->
  exists r, In r patterns /\ re_match r line = Some m.
Proof.
  revert index. induction patterns as [|r patterns IH]; intros index; simpl;
    [discriminate|].
  destruct (re_match r line) eqn:E.
  - intros [= _ <-]. exists r. split; [left; reflexivity|exact E].
  - intros H. apply IH in H. destruct H as [r' [Hin H]].
    exists r'. split; [right; exact Hin|exact H].
Qed.

(** The match of a pattern that ends with [\s+] ends after a whitespace
    character and before a character that is none. *)
Lemma spaces_match_end (pattern : regex) (line : pystr) (m : Match) :
  ends_with_spaces pattern ->
  re_match pattern line = Some m ->
  exists before spaces,
    line = before ++ spaces ++ skipn (m_end m) line
    /\ m_end m = length (before ++ spaces)
    /\ spaces <> []
    /\ forallb py_isspace spaces = true
    /\ starts_clean (skipn (m_end m) line).
Proof.
  intros [front ->] H. unfold re_match, match_at in H.
  apply cat_last in H. destruct H as (j & cs' & Hj & H).
  simpl in H. apply rep_greedy_longest in H; [|discriminate].
  destruct H as (j2 & Hlo & Hj2 & Hsp & H & Hnext).
  injection H as <-. simpl.
  rewrite length_skipn in Hj2.
  exists (firstn j line), (firstn j2 (skipn j line)).
  rewrite (Nat.add_comm j j2), <- skipn_skipn.
  rewrite !firstn_skipn. repeat split.
  - rewrite length_app, !length_firstn, length_skipn. lia.
  - intros E. apply (f_equal (@length char)) in E.
    rewrite length_firstn, length_skipn in E. simpl in E. lia.
  - exact Hsp.
  - unfold starts_clean. destruct (skipn j2 (skipn j line)); [exact I|].
    exact Hnext.
Qed.

Lemma strip_ends_clean (s : pystr) : ends_clean (strip s).
Proof.
  unfold ends_clean, strip, rstrip. rewrite rev_involutive.
  apply lstrip_starts_clean.
Qed.

(** What ends clean and ends with a given whitespace run goes on after
    the run. *)
Lemma ends_clean_rest (before spaces rest : pystr) :
  ends_clean (before ++ spaces ++ rest) ->
  spaces <> [] -> forallb py_isspace spaces = true ->
  rest <> [] /\ ends_clean rest.
Proof.
  unfold ends_clean. intros H Hne Hsp.
  destruct rest as [|c rest].
  - exfalso. rewrite app_nil_r in H.
    destruct (@exists_last char spaces Hne) as (l' & a & ->).
    rewrite app_assoc, rev_app_distr in H. simpl in H.
    rewrite forallb_app in Hsp. simpl in Hsp.
    rewrite H in Hsp. rewrite andb_false_r in Hsp. discriminate.
  - split; [discriminate|].
    rewrite app_assoc, rev_app_distr in H.
    destruct (rev (c :: rest)) as [|z t] eqn:E.
    + apply (f_equal (@length char)) in E. rewrite length_rev in E.
      discriminate.
    + exact H.
Qed.

(** What is left of a line after the timestamp starts with a character that
    is not whitespace and ends with one. *)
Lemma rest_of_line_clean (U : Unicode) (line rest : pystr) :
  rest_of_line U line = Some rest ->
  rest <> [] /\ starts_clean rest /\ ends_clean rest.
Proof.
  unfold rest_of_line.
  destruct (WhatsAppTextParser.first_match (_PATTERNS U) 0
              (WhatsAppTextParser._clean_line line))
    as [[pattern m]|] eqn:E; [|discriminate].
  intros [= <-]. apply first_match_In in E. destruct E as (r & Hr & E).
  pose proof (patterns_end_with_spaces U) as Hend.
  rewrite Forall_forall in Hend.
  destruct (@spaces_match_end _ _ _ (Hend r Hr) E)
    as (before & spaces & Hline & _ & Hne & Hsp & Hclean).
  pose proof (strip_ends_clean (sub_empty _UNICODE_JUNK line)) as Hends.
  fold (WhatsAppTextParser._clean_line line) in Hends.
  rewrite Hline in Hends.
  destruct (@ends_clean_rest _ _ _ Hends Hne Hsp) as [H1 H2].
  repeat split; assumption.
Qed.

(** *** The sender pattern *)

(** A lazy repetition stops at the first place at which the continuation
    accepts: here after [name], when the continuation refuses whatever
    starts with a character of the class. *)
Lemma rep_lazy_until {A : Type} (p : char -> bool) (lo : nat)
    (k : nat -> pystr -> spans -> option A) (name tail : pystr)
    (cs : spans) (x : A) :
  (forall pos c s, p c = true -> k pos (c :: s) cs = None) ->
  forall n pos,
    (forall c, In c name -> p c = true) ->
    (lo <= n + length name)%nat ->
    k (pos + length name)%nat tail cs = Some x ->
    rep_match p lo None false k n pos (name ++ tail) cs = Some x.
Proof.
  intros Hk. induction name as [|c name IH]; intros n pos Hp Hlo H.
  - simpl in *. rewrite Nat.add_0_r in *. apply Nat.leb_le in Hlo.
    destruct tail as [|c s]; simpl; rewrite Hlo, H; reflexivity.
  - simpl. rewrite (Hk pos c (name ++ tail) (Hp c (or_introl eq_refl))).
    rewrite (Hp c (or_introl eq_refl)). simpl.
    assert (E : rep_match p lo None false k (S n) (S pos) (name ++ tail) cs
                = Some x).
    { apply IH.
      - intros c' Hc'. apply Hp. right. exact Hc'.
      - simpl in Hlo. lia.
      - simpl in H. rewrite Nat.add_succ_r in H. exact H. }
    rewrite E. destruct (lo <=? n)%nat; reflexivity.
Qed.

(** A greedy repetition takes all of a subject that is in its class, when
    the continuation accepts the end. *)
Lemma rep_greedy_all {A : Type} (p : char -> bool) (lo : nat)
    (k : nat -> pystr -> spans -> option A) (s : pystr) (cs : spans) (x : A) :
  forall n pos,
    (forall c, In c s -> p c = true) ->
    (lo <= n + length s)%nat ->
    k (pos + length s)%nat [] cs = Some x ->
    rep_match p lo None true k n pos s cs = Some x.
Proof.
  induction s as [|c s IH]; intros n pos Hp Hlo H.
  - simpl in *. rewrite Nat.add_0_r in *. apply Nat.leb_le in Hlo.
    rewrite Hlo. exact H.
  - simpl. rewrite (Hp c (or_introl eq_refl)). simpl.
    rewrite (IH (S n) (S pos)); [reflexivity| | |].
    + intros c' Hc'. apply Hp. right. exact Hc'.
    + simpl in Hlo. lia.
    + simpl in H. rewrite Nat.add_succ_r in H. exact H.
Qed.

Lemma forallb_not_colon (s : pystr) :
  forallb (fun c => negb (N.eqb c COLON)) s = true <-> ~ In COLON s.
Proof.
  rewrite forallb_forall. split.
  - intros H Hin. apply H in Hin. rewrite N.eqb_refl in Hin. discriminate.
  - intros H c Hc. apply negb_true_iff, N.eqb_neq. intros ->. exact (H Hc).
Qed.

(** What the sender pattern matches, and what its groups are. *)
Lemma sender_match_sound (rest : pystr) (sm : Match) :
  re_match sender_pattern rest = Some sm ->
  exists name w text,
    sender_form rest name text w
    /\ group sm 1 = Some name /\ group sm 2 = Some text.
Proof.
  unfold re_match, match_at, sender_pattern. cbn -[N.eqb]. intros H.
  apply rep_match_sound in H.
  destruct H as (j & Hlo & Hj & Hname & H). cbn -[N.eqb] in H, Hlo.
  destruct (skipn j rest) as [|c [|w text]] eqn:Er; try discriminate.
  { destruct (N.eqb 58 c); discriminate. }
  destruct (N.eqb 58 c) eqn:Ec; [|discriminate].
  apply N.eqb_eq in Ec. subst c.
  destruct (py_isspace w) eqn:Ew; [|discriminate].
  apply rep_greedy_longest in H; [|discriminate].
  destruct H as (j2 & _ & Hj2 & _ & H & Hnext).
  injection H as <-.
  assert (Et : skipn j2 text = []).
  { destruct (skipn j2 text); [reflexivity|discriminate]. }
  assert (Ef : firstn j2 text = text).
  { rewrite <- (firstn_skipn j2 text) at 2. rewrite Et, app_nil_r.
    reflexivity. }
  exists (firstn j rest), w, text. repeat split.
  - rewrite <- (firstn_skipn j rest) at 1. rewrite Er. reflexivity.
  - intros E. apply (f_equal (@length char)) in E.
    rewrite length_firstn in E. simpl in E. lia.
  - apply forallb_not_colon. exact Hname.
  - exact Ew.
  - unfold group. simpl. rewrite Nat.sub_0_r. reflexivity.
  - unfold group. cbn -[skipn firstn Nat.sub].
    replace (S (S (j + j2)) - S (S j))%nat with j2 by lia.
    replace (S (S j)) with (2 + j)%nat by reflexivity.
    rewrite <- skipn_skipn, Er. simpl. rewrite Ef. reflexivity.
Qed.

Lemma sender_match_complete (rest name text : pystr) (w : char) :
  sender_form rest name text w ->
  exists sm,
    re_match sender_pattern rest = Some sm
    /\ group sm 1 = Some name /\ group sm 2 = Some text.
Proof.
  intros (-> & Hne & Hcolon & Hw).
  unfold re_match, match_at, sender_pattern. cbn -[N.eqb].
  eexists. split.
  - apply rep_lazy_until.
    + intros pos c s Hc. cbn -[N.eqb].
      apply negb_true_iff, N.eqb_neq in Hc.
      destruct (N.eqb_spec 58 c) as [E|E]; [|reflexivity].
      exfalso. apply Hc. symmetry. exact E.
    + apply forallb_forall, forallb_not_colon, Hcolon.
    + destruct name; [contradiction|simpl; lia].
    + cbn -[N.eqb]. change (N.eqb 58 COLON) with true. cbv iota.
      rewrite Hw. apply rep_greedy_all; [reflexivity|lia|reflexivity].
  - unfold group. cbn -[skipn firstn Nat.sub]. rewrite Nat.sub_0_r. split.
    + simpl skipn. rewrite firstn_app, firstn_all, Nat.sub_diag. simpl.
      rewrite app_nil_r. reflexivity.
    + replace (S (S (length name + length text)) - S (S (length name)))%nat
        with (length text) by lia.
      replace (S (S (length name))) with (2 + length name)%nat by reflexivity.
      rewrite <- skipn_skipn, skipn_app, skipn_all, Nat.sub_diag. simpl.
      rewrite firstn_all. reflexivity.
Qed.

(** X12.  The text after the timestamp is read as [Sender: text] exactly
    when it starts with a name of at least one character without a colon,
    followed by a colon and a whitespace character. *)
Theorem has_sender_iff :
  forall (rest : pystr),
    has_sender rest = true <->
    exists name w text, sender_form rest name text w.
Proof.
  intros rest. unfold has_sender. split.
  - destruct (re_match sender_pattern rest) as [sm|] eqn:E; [|discriminate].
    intros _. apply sender_match_sound in E.
    destruct E as (name & w & text & H & _). exists name, w, text. exact H.
  - intros (name & w & text & H). apply sender_match_complete in H.
    destruct H as (sm & -> & _). reflexivity.
Qed.

(** *** The sender and the content of a parsed message *)

(** The two shapes of a message that a line starts. *)
Lemma _try_parse_line_shape (U : Unicode) (line : pystr) (m : ChatMessage) :
  WhatsAppTextParser._try_parse_line U line = Some m ->
  exists rest,
    rest_of_line U line = Some rest
    /\ ((exists name w text,
           sender_form rest name text w
           /\ sender m = strip name /\ content m = strip text)
        \/ (has_sender rest = false
            /\ sender m = lit "System" /\ content m = strip rest)).
Proof.
  unfold WhatsAppTextParser._try_parse_line, rest_of_line.
  destruct (WhatsAppTextParser._clean_line line) as [|c l] eqn:Ec;
    [discriminate|].
  destruct (WhatsAppTextParser.first_match (_PATTERNS U) 0 (c :: l))
    as [[pattern match_]|] eqn:Ef; [|discriminate].
  unfold WhatsAppTextParser._extract_message.
  destruct (group match_ 1) as [group1|]; [|discriminate].
  destruct (group match_ 2) as [group2|]; [|discriminate].
  intros H. exists (skipn (m_end match_) (c :: l)).
  split; [reflexivity|]. unfold has_sender.
  destruct (pattern =? _TIME_FIRST_PATTERN)%nat;
    (destruct (_parse_timestamp U _ _) as [ts|]; [|discriminate]);
    (destruct (re_match sender_pattern _) as [sm|] eqn:Es;
     [apply sender_match_sound in Es;
      destruct Es as (name & w & text & Hform & G1 & G2);
      rewrite G1, G2 in H; injection H as <-; left; exists name, w, text; simpl; tauto
     |injection H as <-; right; simpl; tauto]).
Qed.

Lemma lstrip_keeps (s : pystr) (c : char) :
  In c s -> py_isspace c = false -> In c (lstrip s).
Proof.
  intros Hin Hc. induction s as [|x s IH]; [destruct Hin|]. simpl.
  destruct (py_isspace x) eqn:Ex; [|exact Hin].
  destruct Hin as [->|Hin]; [congruence|]. apply IH, Hin.
Qed.

(** [strip] keeps every character that is not whitespace. *)
Lemma strip_keeps (s : pystr) (c : char) :
  In c s -> py_isspace c = false -> In c (strip s).
Proof.
  intros Hin Hc. unfold strip, rstrip. rewrite <- in_rev.
  apply lstrip_keeps; [|exact Hc]. rewrite <- in_rev.
  apply lstrip_keeps; assumption.
Qed.

Lemma starts_clean_keeps (s : pystr) :
  s <> [] -> starts_clean s -> exists c, In c s /\ py_isspace c = false.
Proof.
  destruct s as [|c s]; [contradiction|]. intros _ H.
  exists c. split; [left; reflexivity|exact H].
Qed.

Lemma ends_clean_keeps (s : pystr) :
  s <> [] -> ends_clean s -> exists c, In c s /\ py_isspace c = false.
Proof.
  intros Hne H. destruct (@starts_clean_keeps (rev s)) as (c & Hc & Hs).
  - intros E. apply Hne. apply (f_equal (@rev char)) in E.
    rewrite rev_involutive in E. exact E.
  - exact H.
  - exists c. split; [apply in_rev, Hc|exact Hs].
Qed.


(** What is left of a line is part of the line. *)
Lemma WhatsAppTextParser_clean_rest (U : Unicode) (line rest : pystr)
    (x : char) :
  rest_of_line U line = Some rest -> In x rest -> In x line.
Proof.
  unfold rest_of_line.
  destruct (WhatsAppTextParser.first_match (_PATTERNS U) 0
              (WhatsAppTextParser._clean_line line))
    as [[pattern m]|]; [|discriminate].
  intros [= <-] Hx. apply _clean_line_In. apply skipn_In in Hx. exact Hx.
Qed.

(** A message that a line starts has a sender and a content. *)
Lemma _try_parse_line_fields (U : Unicode) (line : pystr) (m : ChatMessage) :
  WhatsAppTextParser._try_parse_line U line = Some m ->
  sender m <> [] /\ ~ In COLON (sender m) /\ strip (sender m) = sender m
  /\ (In NL (sender m) -> In NL line)
  /\ content m <> [].
Proof.
  intros H. destruct (_try_parse_line_shape _ _ H) as (rest & Hrest & Hm).
  destruct (rest_of_line_clean _ _ Hrest) as (Hne & Hstart & Hend).
  destruct Hm as [(name & w & text & (Er & Hname & Hcolon & Hw) & -> & ->)
                 |(_ & -> & ->)].
  - assert (Hc0 : exists c, In c name /\ py_isspace c = false).
    { apply starts_clean_keeps; [exact Hname|].
      rewrite Er in Hstart. destruct name; [contradiction|exact Hstart]. }
    destruct Hc0 as (c0 & Hc0 & Hs0).
    assert (Ht : text <> [] /\ ends_clean text).
    { rewrite Er in Hend.
      change (name ++ COLON :: w :: text)
        with (name ++ [COLON] ++ [w] ++ text) in Hend.
      rewrite app_assoc in Hend.
      apply (@ends_clean_rest (name ++ [COLON]) [w] text Hend);
        [discriminate|simpl; rewrite Hw; reflexivity]. }
    destruct (ends_clean_keeps (proj1 Ht) (proj2 Ht)) as (c1 & Hc1 & Hs1).
    split; [|split; [|split; [|split]]].
    + intros E. pose proof (strip_keeps _ _ Hc0 Hs0) as Hin.
      rewrite E in Hin. destruct Hin.
    + intros Hin. apply Hcolon. apply strip_In, Hin.
    + apply strip_strip.
    + intros Hx. apply strip_In in Hx.
      apply WhatsAppTextParser_clean_rest with (U := U) (rest := rest);
        [exact Hrest|]. rewrite Er. apply in_or_app. left. exact Hx.
    + intros E. pose proof (strip_keeps _ _ Hc1 Hs1) as Hin.
      rewrite E in Hin. destruct Hin.
  - destruct (starts_clean_keeps Hne Hstart) as (c0 & Hc0 & Hs0).
    split; [discriminate|]. split; [|split; [reflexivity|split]].
    + intros Hin. vm_compute in Hin. intuition discriminate.
    + intros Hx. vm_compute in Hx. intuition discriminate.
    + intros E. pose proof (strip_keeps _ _ Hc0 Hs0) as Hin.
      rewrite E in Hin. destruct Hin.
Qed.

Lemma parsed_message_origin (U : Unicode) (text : pystr) (m : ChatMessage) :
  In m (messages (WhatsAppTextParser.parse_text U text)) ->
  exists line m0 continuation,
    In line (split NL text)
    /\ WhatsAppTextParser._try_parse_line U line = Some m0
    /\ m = with_lines (m0, continuation).
Proof.
  intros Hm. rewrite parse_text_blocks in Hm.
  apply in_map_iff in Hm. destruct Hm as ([m0 continuation] & <- & Hb).
  destruct (proj2 (blocks_lines U (split NL text)) _ Hb)
    as [(line & Hline & Hp) _].
  exists line, m0, continuation. repeat split; assumption.
Qed.

(** X13.  Every message of [parse_text] has a sender that is not empty, has
    no colon and no line break in it and no whitespace at either end, and
    a content that is not empty. *)
Theorem parsed_sender_and_content :
  forall (U : Unicode) (text : pystr) (m : ChatMessage),
    In m (messages (WhatsAppTextParser.parse_text U text)) ->
    sender m <> []
    /\ ~ In COLON (sender m)
    /\ ~ In NL (sender m)
    /\ strip (sender m) = sender m
    /\ content m <> [].
Proof.
  intros U text m Hm.
  destruct (parsed_message_origin _ _ _ Hm)
    as (line & m0 & continuation & Hline & Hp & ->).
  destruct (with_lines_fields m0 continuation) as (_ & -> & _ & _ & ->).
  destruct (_try_parse_line_fields _ _ Hp) as (H1 & H2 & H3 & H4 & H5).
  repeat split; try assumption.
  - intros Hnl. apply (split_no_sep NL text line Hline). apply H4, Hnl.
  - intros E. apply app_eq_nil in E. apply H5, E.
Qed.

Lemma parsed_sender_and_content_witness :
  In msg_media
     (messages (WhatsAppTextParser.parse_text ascii_unicode media_with_sender))
  /\ sender msg_media <> []
  /\ ~ In COLON (sender msg_media)
  /\ ~ In NL (sender msg_media)
  /\ strip (sender msg_media) = sender msg_media
  /\ content msg_media <> [].
Proof.
  assert (H : In msg_media
                 (messages (WhatsAppTextParser.parse_text ascii_unicode
                              media_with_sender))).
  { vm_compute. left. reflexivity. }
  split; [exact H|].
  exact (parsed_sender_and_content ascii_unicode media_with_sender msg_media H).
Defined.

(** *** The timestamp of a parsed message *)

Lemma strptime_valid (U : Unicode) (data_string format : pystr)
    (d : datetime) :
  strptime U data_string format = Some d ->
  valid_datetime (year d) (month d) (day d) (hour d) (minute d) (second d)
  = true
  /\ microsecond d = 0.
Proof.
  unfold strptime.
  destruct (format_regex U false format) as [pattern|]; [|discriminate].
  destruct (re_match pattern data_string) as [found|]; [|discriminate].
  destruct (negb _); [discriminate|].
  destruct (fold_left _ _ _) as [t|]; [|discriminate].
  destruct (valid_datetime _ _ _ _ _ _) eqn:E; [|discriminate].
  intros [= <-]. simpl. split; [exact E|reflexivity].
Qed.

(** X14.  The timestamp of every message of [parse_text] is a date that
    exists, with a time of day, and has no microseconds: the year is
    between 1 and 9999, the month between 1 and 12, the day one of that
    month, the hour at most 23, minute and second at most 59. *)
Theorem parsed_timestamp_valid :
  forall (U : Unicode) (text : pystr) (m : ChatMessage),
    In m (messages (WhatsAppTextParser.parse_text U text)) ->
    let d := timestamp m in
    1 <= year d <= 9999
    /\ 1 <= month d <= 12
    /\ 1 <= day d <= days_in_month (year d) (month d)
    /\ 0 <= hour d <= 23
    /\ 0 <= minute d <= 59
    /\ 0 <= second d <= 59
    /\ microsecond d = 0.
Proof.
  intros U text m Hm.
  destruct (parsed_message_origin _ _ _ Hm)
    as (line & m0 & continuation & _ & Hp & ->).
  destruct (with_lines_fields m0 continuation) as (-> & _).
  apply _try_parse_line_some in Hp.
  destruct Hp as (pattern & match_ & g1 & g2 & rest & _ & _ & _ & Hts & _).
  unfold _parse_timestamp in Hts. apply first_some_spec in Hts.
  destruct Hts as (_ & fmt & _ & _ & Hts & _).
  apply strptime_valid in Hts. destruct Hts as [Hv Hus].
  unfold valid_datetime in Hv.
  repeat (apply andb_true_iff in Hv; destruct Hv as [Hv ?]).
  cbv zeta. lia.
Qed.

Lemma parsed_timestamp_valid_witness :
  In msg_media
     (messages (WhatsAppTextParser.parse_text ascii_unicode media_with_sender))
  /\ 1 <= year (timestamp msg_media) <= 9999
  /\ 1 <= month (timestamp msg_media) <= 12
  /\ 1 <= day (timestamp msg_media)
     <= days_in_month (year (timestamp msg_media))
                      (month (timestamp msg_media))
  /\ 0 <= hour (timestamp msg_media) <= 23
  /\ 0 <= minute (timestamp msg_media) <= 59
  /\ 0 <= second (timestamp msg_media) <= 59
  /\ microsecond (timestamp msg_media) = 0.
Proof.
  assert (H : In msg_media
                 (messages (WhatsAppTextParser.parse_text ascii_unicode
                              media_with_sender))).
  { vm_compute. left. reflexivity. }
  split; [exact H|].
  exact (parsed_timestamp_valid ascii_unicode media_with_sender msg_media H).
Defined.

(** *** Texts put together *)

Lemma split_nonempty (sep : char) (s : pystr) : split sep s <> [].
Proof.
  induction s as [|c s IH]; simpl; [discriminate|].
  destruct (N.eqb c sep); [discriminate|].
  destruct (split sep s); [contradiction|discriminate].
Qed.

Lemma split_app (sep : char) (a b : pystr) :
  split sep (a ++ sep :: b) = split sep a ++ split sep b.
Proof.
  induction a as [|c a IH]; simpl.
  - rewrite N.eqb_refl. reflexivity.
  - destruct (N.eqb c sep); rewrite IH; [reflexivity|].
    pose proof (split_nonempty sep a) as Hne.
    destruct (split sep a); [contradiction|reflexivity].
Qed.

Lemma blocks_app (U : Unicode) (la lb : list pystr) :
  fst (blocks U lb) = [] ->
  blocks U (la ++ lb)
  = (fst (blocks U la), snd (blocks U la) ++ snd (blocks U lb)).
Proof.
  intros Hb. induction la as [|line la IH]; simpl.
  - rewrite <- Hb. destruct (blocks U lb). reflexivity.
  - rewrite IH. destruct (blocks U la) as [continuation bs]. simpl.
    destruct (WhatsAppTextParser._try_parse_line U line); reflexivity.
Qed.

Lemma starts_message_blocks (U : Unicode) (text : pystr) :
  starts_message U text -> fst (blocks U (split NL text)) = [].
Proof.
  intros [m H]. pose proof (split_nonempty NL text) as Hne.
  destruct (split NL text) as [|line lines]; [contradiction|].
  simpl in *. rewrite H. destruct (blocks U lines). reflexivity.
Qed.

Lemma parse_text_app_messages (U : Unicode) (a b : pystr) :
  starts_message U b ->
  messages (WhatsAppTextParser.parse_text U (a ++ NL :: b))
  = messages (WhatsAppTextParser.parse_text U a)
    ++ messages (WhatsAppTextParser.parse_text U b).
Proof.
  intros Hb. rewrite !parse_text_blocks, split_app.
  rewrite (@blocks_app U _ _ (starts_message_blocks Hb)). simpl.
  apply map_app.
Qed.

(** X15.  [parse_text] returns one message for every line of the text
    that starts a message. *)
Theorem parse_text_count :
  forall (U : Unicode) (text : pystr),
    length (messages (WhatsAppTextParser.parse_text U text))
    = length (message_lines U text).
Proof.
  intros U text. rewrite parse_text_blocks, length_map.
  apply blocks_count.
Qed.

(** X16.  When the first line of [b] starts a message, the messages of
    the text [a], a line break and [b] are those of [a] followed by those
    of [b]. *)
Theorem parse_text_app :
  forall (U : Unicode) (a b : pystr),
    starts_message U b ->
    WhatsAppTextParser.parse_text U (a ++ NL :: b)
    = {| messages := messages (WhatsAppTextParser.parse_text U a)
                     ++ messages (WhatsAppTextParser.parse_text U b) |}.
Proof.
  intros U a b Hb. apply Conversation_ext. simpl.
  apply parse_text_app_messages, Hb.
Qed.

Lemma parse_text_app_witness :
  starts_message ascii_unicode (lit "12/01/2024, 09:02 - Bob: Hi Alice!")
  /\ WhatsAppTextParser.parse_text ascii_unicode
       (lit "12/01/2024, 09:01 - Alice: Hey everyone!" ++ NL
        :: lit "12/01/2024, 09:02 - Bob: Hi Alice!")
     = {| messages :=
            messages (WhatsAppTextParser.parse_text ascii_unicode
                        (lit "12/01/2024, 09:01 - Alice: Hey everyone!"))
            ++ messages (WhatsAppTextParser.parse_text ascii_unicode
                           (lit "12/01/2024, 09:02 - Bob: Hi Alice!")) |}.
Proof.
  assert (H : starts_message ascii_unicode
                (lit "12/01/2024, 09:02 - Bob: Hi Alice!")).
  { eexists. vm_compute. reflexivity. }
  split; [exact H|].
  exact (@parse_text_app ascii_unicode
           (lit "12/01/2024, 09:01 - Alice: Hey everyone!") _ H).
Defined.

Lemma hd_split_app (a b : pystr) :
  hd [] (split NL (a ++ NL :: b)) = hd [] (split NL a).
Proof.
  rewrite split_app. pose proof (split_nonempty NL a) as Hne.
  destruct (split NL a); [contradiction|reflexivity].
Qed.

Lemma parse_join_pages (U : Unicode) (pages : list pystr) :
  Forall (starts_message U) pages ->
  messages (WhatsAppTextParser.parse_text U (join NL pages))
  = concat (map (fun page => messages (WhatsAppTextParser.parse_text U page))
                pages).
Proof.
  induction 1 as [|page pages Hp Hps IH]; [reflexivity|].
  destruct pages as [|page' pages].
  - simpl. rewrite app_nil_r. reflexivity.
  - change (join NL (page :: page' :: pages))
      with (page ++ NL :: join NL (page' :: pages)).
    rewrite parse_text_app_messages, IH; [reflexivity|].
    inversion Hps as [|? ? [m Hm] _]; subst. exists m.
    destruct pages as [|page'' pages]; [exact Hm|].
    change (join NL (page' :: page'' :: pages))
      with (page' ++ NL :: join NL (page'' :: pages)).
    rewrite hd_split_app. exact Hm.
Qed.

Lemma concat_map_nonempty {A : Type} (f : pystr -> list A)
    (pages : list pystr) :
  f [] = [] ->
  concat (map f (filter nonempty_str pages)) = concat (map f pages).
Proof.
  intros Hf. induction pages as [|page pages IH]; [reflexivity|].
  destruct page as [|c page].
  - cbn [filter nonempty_str map concat]. rewrite Hf. exact IH.
  - cbn [filter nonempty_str map concat]. rewrite IH. reflexivity.
Qed.

(** X17.  When every page of a PDF that has text starts with a line that
    starts a message, [PDFParser.parse] returns the messages of the pages
    one after the other. *)
Theorem pdf_parse_pages :
  forall (E : Env) (U : Unicode) (source : pystr) (pages : list pystr),
    pdf_pages E source = Ok pages ->
    (forall page, In page pages -> page <> [] -> starts_message U page) ->
    PDFParser.parse E U source
    = Ok {| messages :=
              concat (map (fun page =>
                             messages (WhatsAppTextParser.parse_text U page))
                          pages) |}.
Proof.
  intros E U source pages Hpages Hstart.
  unfold PDFParser.parse. rewrite Hpages. f_equal. apply Conversation_ext.
  cbv zeta. rewrite parse_join_pages.
  - apply (concat_map_nonempty
             (fun page => messages (WhatsAppTextParser.parse_text U page))).
    reflexivity.
  - apply Forall_forall. intros page Hin. apply filter_In in Hin.
    destruct Hin as [Hin Hne]. apply Hstart; [exact Hin|].
    intros ->. discriminate.
Qed.

Lemma pdf_parse_pages_witness :
  PDFParser.parse pdf_file ascii_unicode (lit "chat.pdf")
  = Ok {| messages :=
            concat (map (fun page =>
                           messages (WhatsAppTextParser.parse_text
                                       ascii_unicode page))
                        three_pages) |}.
Proof.
  apply (@pdf_parse_pages pdf_file ascii_unicode (lit "chat.pdf") three_pages).
  - reflexivity.
  - intros page [<-|[<-|[<-|[]]]] Hne.
    + eexists. vm_compute. reflexivity.
    + contradiction.
    + eexists. vm_compute. reflexivity.
Defined.

(** *** Raw text is recognised by its beginning *)

Lemma patterns_need_first (U : Unicode) (c : char) (s : pystr)
    (pattern : regex) :
  c <> key "[" -> decimal U c = None ->
  In pattern (_PATTERNS U) -> re_match pattern (c :: s) = None.
Proof.
  intros Hb Hd Hin.
  assert (Eb : N.eqb 91 c = false).
  { apply N.eqb_neq. intros E. apply Hb. symmetry. exact E. }
  assert (Ed : digit U c = false).
  { unfold digit. rewrite Hd. reflexivity. }
  unfold re_match, match_at.
  destruct Hin as [<-|[<-|[<-|[<-|[]]]]]; cbn -[N.eqb digit];
    rewrite ?Eb, ?Ed; reflexivity.
Qed.

(** X18.  Raw text is recognised by its first character: a source that
    starts with a character that is neither a decimal digit nor an opening
    bracket nor one of the invisible marks, and for which [Path.exists]
    returns [False] where its suffix is a handled extension, is refused by
    [WhatsAppTextParser.can_handle], and [ChatAnalyzer.parse] raises
    [ValueError] for it. *)
Theorem raw_text_first_character :
  forall (E : Env) (U : Unicode) (c : char) (source : pystr),
    (handled_extension U (path_suffix E (c :: source)) = true ->
     path_exists E (c :: source) = Ok false) ->
    _UNICODE_JUNK c = false ->
    c <> key "[" ->
    decimal U c = None ->
    WhatsAppTextParser.can_handle E U (c :: source) = Ok false
    /\ ChatAnalyzer.parse E U (c :: source) = Raise ValueError.
Proof.
  intros E U c source Hpath Hjunk Hb Hd.
  destruct (file_parsers_refuse E U (c :: source) Hpath)
    as (Hpdf & Hdocx & Himage & Htxt).
  assert (H : WhatsAppTextParser.can_handle E U (c :: source) = Ok false).
  { apply text_can_handle_false; [|exact Htxt].
    intros pattern Hin. rewrite (@patterns_search U _ _ Hin).
    change (firstn 1000 (c :: source)) with (c :: firstn 999 source).
    unfold sub_empty. simpl filter. rewrite Hjunk. simpl negb. cbv iota.
    apply (@patterns_need_first U); assumption. }
  split; [exact H|].
  unfold ChatAnalyzer.parse, ChatAnalyzer._parsers, ChatAnalyzer.dispatch.
  unfold PDFParser.parser, DocxParser.parser, ImageParser.parser,
    WhatsAppTextParser.parser. cbn [can_handle parse].
  rewrite Hpdf, Hdocx, Himage, H. reflexivity.
Qed.

(** The transcript of the parser example after an empty line. *)
Lemma raw_text_first_character_witness :
  WhatsAppTextParser.can_handle no_files ascii_unicode (NL :: two_lines)
  = Ok false
  /\ ChatAnalyzer.parse no_files ascii_unicode (NL :: two_lines)
     = Raise ValueError.
Proof.
  apply (@raw_text_first_character no_files ascii_unicode NL two_lines).
  - reflexivity.
  - reflexivity.
  - discriminate.
  - reflexivity.
Defined.

(* ================================================================= *)
(** ** Lists in the answers of the model *)

Lemma nonempty_str_iff (s : pystr) : nonempty_str s = true <-> s <> [].
Proof. destruct s; simpl; split; congruence. Qed.





(** *** The list read back *)

Lemma strip_id (s : pystr) : starts_clean s -> ends_clean s -> strip s = s.
Proof.
  intros Hs He. unfold strip, rstrip.
  rewrite (lstrip_of_clean _ Hs), (lstrip_of_clean _ He).
  apply rev_involutive.
Qed.

Lemma strip_id_iff (s : pystr) :
  strip s = s <-> starts_clean s /\ ends_clean s.
Proof.
  split; [|intros [? ?]; apply strip_id; assumption].
  intros <-. split; [apply strip_starts_clean|apply strip_ends_clean].
Qed.

Lemma ends_clean_app (a b : pystr) :
  b <> [] -> ends_clean b -> ends_clean (a ++ b).
Proof.
  unfold ends_clean. intros Hne H. rewrite rev_app_distr.
  destruct (rev b) as [|c r] eqn:E; [|exact H].
  exfalso. apply Hne. apply (f_equal (@rev char)) in E.
  rewrite rev_involutive in E. exact E.
Qed.

Lemma startswith_app (prefix s : pystr) :
  startswith (prefix ++ s) prefix = true.
Proof.
  induction prefix as [|c prefix IH]; simpl; [destruct s; reflexivity|].
  rewrite N.eqb_refl. exact IH.
Qed.

(** A dash, a blank and an item make a line that [list_step] reads as the
    item. *)
Lemma list_step_bullet (isdigit : char -> bool) (items : list pystr)
    (s : pystr) :
  list_item s ->
  list_step isdigit items (lit "- " ++ s) = items ++ [s].
Proof.
  intros (Hne & Hs & _). apply strip_id_iff in Hs. destruct Hs as [Hs He].
  unfold list_step.
  rewrite (@strip_id (lit "- " ++ s));
    [|reflexivity|apply ends_clean_app; assumption].
  unfold without_marker. rewrite startswith_app.
  change (skipn 2 (lit "- " ++ s)) with s.
  rewrite (@strip_id s Hs He).
  apply nonempty_str_iff in Hne. rewrite Hne. reflexivity.
Qed.

Lemma split_join (lines : list pystr) :
  lines <> [] -> (forall l, In l lines -> ~ In NL l) ->
  split NL (join NL lines) = lines.
Proof.
  induction lines as [|l lines IH]; intros Hne Hnl; [contradiction|].
  destruct lines as [|l' lines].
  - simpl. apply split_without_sep, Hnl. left. reflexivity.
  - change (join NL (l :: l' :: lines))
      with (l ++ NL :: join NL (l' :: lines)).
    rewrite split_app_sep; [|apply Hnl; left; reflexivity].
    rewrite IH; [reflexivity|discriminate|].
    intros x Hx. apply Hnl. right. exact Hx.
Qed.

Lemma join_starts_clean (lines : list pystr) (l : pystr) :
  l <> [] -> starts_clean l -> starts_clean (join NL (l :: lines)).
Proof.
  intros Hne H. destruct l as [|c l]; [contradiction|].
  destruct lines; exact H.
Qed.

Lemma join_ends_clean (lines : list pystr) :
  lines <> [] ->
  (forall l, In l lines -> l <> [] /\ ends_clean l) ->
  ends_clean (join NL lines).
Proof.
  induction lines as [|l lines IH]; intros Hne H; [contradiction|].
  destruct lines as [|l' lines].
  - simpl. apply H. left. reflexivity.
  - change (join NL (l :: l' :: lines))
      with (l ++ [NL] ++ join NL (l' :: lines)).
    rewrite app_assoc. apply ends_clean_app.
    + destruct l' as [|c l'].
      * destruct (H [] (or_intror (or_introl eq_refl))) as [Hl' _].
        contradiction.
      * destruct lines; discriminate.
    + apply IH; [discriminate|]. intros x Hx. apply H. right. exact Hx.
Qed.

Lemma fold_bullets (isdigit : char -> bool) (items : list pystr) :
  Forall list_item items ->
  forall acc,
    fold_left (list_step isdigit) (map (fun s => lit "- " ++ s) items) acc
    = acc ++ items.
Proof.
  induction 1 as [|x l Hx _ IH]; intros acc; cbn [map fold_left];
    [rewrite app_nil_r; reflexivity|].
  rewrite list_step_bullet; [|exact Hx].
  rewrite IH, <- app_assoc. reflexivity.
Qed.

(** A list of bullets has no whitespace at either end. *)
Lemma bullets_stripped (items : list pystr) :
  Forall list_item items -> strip (bullets items) = bullets items.
Proof.
  intros Hitems. unfold bullets.
  destruct items as [|s items]; [reflexivity|].
  rewrite Forall_forall in Hitems. apply strip_id.
  - apply join_starts_clean; [discriminate|reflexivity].
  - apply join_ends_clean; [discriminate|].
    intros l Hl. apply in_map_iff in Hl. destruct Hl as (x & <- & Hx).
    split; [discriminate|].
    destruct (Hitems x Hx) as (Hne & Hs & _). apply strip_id_iff in Hs.
    apply ends_clean_app; tauto.
Qed.

(** What [_parse_list] makes of a text that is a list of bullets once it
    is stripped. *)
Lemma parse_list_stripped (isdigit : char -> bool) (raw : pystr)
    (items : list pystr) :
  Forall list_item items ->
  strip raw = bullets items ->
  _parse_list isdigit raw = items.
Proof.
  intros Hitems Hraw. unfold _parse_list. rewrite Hraw. unfold bullets.
  destruct items as [|s items]; [reflexivity|].
  rewrite split_join.
  - apply (fold_bullets isdigit Hitems []).
  - discriminate.
  - rewrite Forall_forall in Hitems.
    intros l Hl Hin. apply in_map_iff in Hl. destruct Hl as (x & <- & Hx).
    apply in_app_or in Hin. destruct Hin as [Hin|Hin].
    + vm_compute in Hin. intuition discriminate.
    + destruct (Hitems x Hx) as (_ & _ & Hnl). exact (Hnl Hin).
Qed.

(** X20.  A list written with a dash and a blank before each item, one
    item on a line, is read back by [_parse_list] as its items, when no
    item is empty or has a line break in it or whitespace at either end. *)
Theorem _parse_list_bullets :
  forall (isdigit : char -> bool) (items : list pystr),
    Forall list_item items ->
    _parse_list isdigit (bullets items) = items.
Proof.
  intros isdigit items Hitems.
  apply parse_list_stripped; [exact Hitems|].
  apply bullets_stripped, Hitems.
Qed.

Lemma _parse_list_bullets_witness :
  Forall list_item [lit "Project timeline"; lit "Backend API setup"]
  /\ _parse_list ascii_isdigit
       (bullets [lit "Project timeline"; lit "Backend API setup"])
     = [lit "Project timeline"; lit "Backend API setup"].
Proof.
  assert (H : Forall list_item
                [lit "Project timeline"; lit "Backend API setup"]).
  { repeat constructor; try discriminate; try reflexivity;
      intros Hin; vm_compute in Hin; intuition discriminate. }
  split; [exact H|].
  exact (@_parse_list_bullets ascii_isdigit _ H).
Defined.
(* ================================================================= *)
(** ** The answer of the model in sections *)

Lemma pystr_eqb_refl (s : pystr) : pystr_eqb s s = true.
Proof. apply pystr_eqb_eq. reflexivity. Qed.

Lemma dict_has_set (d : dict) (key value key' : pystr) :
  dict_has d key = true ->
  dict_has (dict_set d key value) key' = dict_has d key'.
Proof.
  induction d as [|[k v] d IH]; simpl; [discriminate|].
  destruct (pystr_eqb k key) eqn:E; simpl; [reflexivity|].
  intros H. rewrite IH; [reflexivity|exact H].
Qed.

Lemma dict_get_set (d : dict) (key value : pystr) :
  dict_get (dict_set d key value) key = value.
Proof.
  induction d as [|[k v] d IH]; simpl.
  - rewrite pystr_eqb_refl. reflexivity.
  - destruct (pystr_eqb k key) eqn:E; simpl; rewrite E; [reflexivity|exact IH].
Qed.

Lemma dict_set_set (d : dict) (key value value' : pystr) :
  dict_set (dict_set d key value) key value' = dict_set d key value'.
Proof.
  induction d as [|[k v] d IH]; simpl.
  - rewrite pystr_eqb_refl. reflexivity.
  - destruct (pystr_eqb k key) eqn:E; simpl; rewrite E; [reflexivity|].
    rewrite IH. reflexivity.
Qed.

Lemma dict_set_get (d : dict) (key : pystr) :
  dict_has d key = true -> dict_set d key (dict_get d key) = d.
Proof.
  induction d as [|[k v] d IH]; simpl; [discriminate|].
  destruct (pystr_eqb k key) eqn:E; simpl; [reflexivity|].
  intros H. rewrite IH; [reflexivity|exact H].
Qed.

(** The lines of a section are added to its text, a line break after
    each. *)
Lemma fold_body (U : Unicode) (body : list pystr) :
  forall (d : dict) (current : pystr),
    dict_has d current = true ->
    (forall line, In line body -> dict_has d (line_lower U line) = false) ->
    fold_left (sections_step U) body
              {| sections := d; current_section := Some current |}
    = {| sections :=
           dict_set d current (dict_get d current ++ with_breaks body);
         current_section := Some current |}.
Proof.
  induction body as [|line body IH]; intros d current Hc Hb.
  - simpl. unfold with_breaks. simpl. rewrite app_nil_r, dict_set_get;
      [reflexivity|exact Hc].
  - simpl fold_left. unfold sections_step at 2. cbn [sections].
    rewrite (Hb line (or_introl eq_refl)). cbn [current_section].
    rewrite IH.
    + rewrite dict_set_set, dict_get_set. unfold with_breaks. simpl.
      rewrite <- !app_assoc. reflexivity.
    + rewrite dict_has_set; assumption.
    + intros l Hl. rewrite dict_has_set; [|exact Hc]. apply Hb. right.
      exact Hl.
Qed.

(** Lines before the first heading are skipped. *)
Lemma fold_preamble (U : Unicode) (preamble : list pystr) (d : dict) :
  (forall line, In line preamble -> dict_has d (line_lower U line) = false) ->
  fold_left (sections_step U) preamble
            {| sections := d; current_section := None |}
  = {| sections := d; current_section := None |}.
Proof.
  induction preamble as [|line preamble IH]; intros Hb; [reflexivity|].
  simpl fold_left. unfold sections_step at 2. cbn [sections].
  rewrite (Hb line (or_introl eq_refl)). cbn [current_section].
  apply IH. intros l Hl. apply Hb. right. exact Hl.
Qed.

Lemma headings_lower (U : Unicode) :
  agrees_on_ascii U ->
  line_lower U (lit "SUMMARY:") = lit "summary"
  /\ line_lower U (lit "TOPICS:") = lit "topics"
  /\ line_lower U (lit "ACTION ITEMS:") = lit "action items"
  /\ line_lower U (lit "PARTICIPANTS:") = lit "participants"
  /\ line_lower U [] = [].
Proof.
  intros [_ HU]. unfold line_lower.
  repeat split;
    (rewrite HU; [reflexivity|apply ascii_textb_spec; reflexivity]).
Qed.

(** The four sections of an answer in the format of the prompt. *)
Lemma answer_sections (U : Unicode)
    (preamble summary_lines topic_lines action_lines people_lines
       : list pystr) :
  agrees_on_ascii U ->
  Forall (fun line => is_header U line = false)
         (preamble ++ summary_lines ++ topic_lines ++ action_lines
          ++ people_lines) ->
  fold_left (sections_step U)
            (preamble
             ++ [lit "SUMMARY:"] ++ summary_lines ++ [[]]
             ++ [lit "TOPICS:"] ++ topic_lines ++ [[]]
             ++ [lit "ACTION ITEMS:"] ++ action_lines ++ [[]]
             ++ [lit "PARTICIPANTS:"] ++ people_lines)
            {| sections := new_sections; current_section := None |}
  = {| sections :=
         four_sections (with_breaks (summary_lines ++ [[]]))
                       (with_breaks (topic_lines ++ [[]]))
                       (with_breaks (action_lines ++ [[]]))
                       (with_breaks people_lines);
       current_section := Some (lit "participants") |}.
Proof.
  intros HU Hall.
  destruct (headings_lower HU) as (Hs & Ht & Ha & Hp & Hnil).
  rewrite !Forall_app in Hall.
  destruct Hall as (Hpre & Hsum & Htop & Hact & Hpeo).
  rewrite Forall_forall in Hpre, Hsum, Htop, Hact, Hpeo.
  assert (Hblank : forall lines line,
             (forall l, In l lines -> is_header U l = false) ->
             In line (lines ++ [[]]) ->
             dict_has new_sections (line_lower U line) = false).
  { intros lines line H Hin. apply in_app_or in Hin.
    destruct Hin as [Hin|[<-|[]]]; [apply H, Hin|].
    rewrite Hnil. reflexivity. }
  rewrite fold_left_app, fold_preamble; [|exact Hpre].
  (* SUMMARY *)
  rewrite fold_left_app. simpl fold_left at 2.
  unfold sections_step at 2. cbn [sections current_section]. rewrite Hs. simpl dict_has.
  cbv iota. rewrite app_assoc, fold_left_app.
  rewrite fold_body;
    [|reflexivity|intros line Hin; apply (Hblank summary_lines); assumption].
  (* TOPICS *)
  rewrite fold_left_app. simpl fold_left at 2.
  unfold sections_step at 2. cbn [sections current_section]. rewrite Ht. simpl dict_has.
  cbv iota. rewrite app_assoc, fold_left_app.
  rewrite fold_body;
    [|reflexivity|intros line Hin; apply (Hblank topic_lines); assumption].
  (* ACTION ITEMS *)
  rewrite fold_left_app. simpl fold_left at 2.
  unfold sections_step at 2. cbn [sections current_section]. rewrite Ha. simpl dict_has.
  cbv iota. rewrite app_assoc, fold_left_app.
  rewrite fold_body;
    [|reflexivity|intros line Hin; apply (Hblank action_lines); assumption].
  (* PARTICIPANTS *)
  rewrite fold_left_app. simpl fold_left at 2.
  unfold sections_step at 2. cbn [sections current_section]. rewrite Hp. simpl dict_has.
  cbv iota.
  rewrite fold_body; [|reflexivity|intros line Hin; apply Hpeo, Hin].
  reflexivity.
Qed.

(** *** What [strip] does to whitespace at the end *)

Lemma lstrip_spaces (a b : pystr) :
  forallb py_isspace a = true -> lstrip (a ++ b) = lstrip b.
Proof.
  induction a as [|c a IH]; simpl; [reflexivity|].
  intros H. apply andb_true_iff in H. destruct H as [-> H]. apply IH, H.
Qed.

Lemma lstrip_app (s t : pystr) :
  lstrip s <> [] -> lstrip (s ++ t) = lstrip s ++ t.
Proof.
  induction s as [|c s IH]; simpl; [contradiction|].
  destruct (py_isspace c); [exact IH|reflexivity].
Qed.

Lemma lstrip_all_spaces (s : pystr) :
  lstrip s = [] -> forallb py_isspace s = true.
Proof.
  induction s as [|c s IH]; simpl; [reflexivity|].
  destruct (py_isspace c); [exact IH|discriminate].
Qed.

Lemma strip_app_spaces (s ws : pystr) :
  forallb py_isspace ws = true -> strip (s ++ ws) = strip s.
Proof.
  intros Hws. unfold strip, rstrip. f_equal.
  destruct (lstrip s) as [|c t] eqn:E.
  - rewrite lstrip_spaces; [|apply lstrip_all_spaces, E].
    rewrite <- (app_nil_r ws), lstrip_spaces; [reflexivity|exact Hws].
  - rewrite lstrip_app; [|rewrite E; discriminate]. rewrite E.
    rewrite rev_app_distr. apply lstrip_spaces.
    rewrite forallb_forall in *. intros x Hx. apply Hws, in_rev, Hx.
Qed.

Lemma with_breaks_join (lines : list pystr) :
  exists ws,
    forallb py_isspace ws = true
    /\ with_breaks lines = join NL lines ++ ws.
Proof.
  unfold with_breaks. induction lines as [|l lines (ws & Hws & IH)].
  - exists []. split; reflexivity.
  - destruct lines as [|l' lines].
    + exists [NL]. split; [reflexivity|]. simpl. rewrite app_nil_r.
      reflexivity.
    + exists ws. split; [exact Hws|].
      change (join NL (l :: l' :: lines))
        with (l ++ [NL] ++ join NL (l' :: lines)).
      change (concat (map (fun line => line ++ [NL]) (l :: l' :: lines)))
        with ((l ++ [NL])
              ++ concat (map (fun line => line ++ [NL]) (l' :: lines))).
      rewrite IH, <- !app_assoc. reflexivity.
Qed.

Lemma join_blank (lines : list pystr) :
  exists ws,
    forallb py_isspace ws = true
    /\ join NL (lines ++ [[]]) = join NL lines ++ ws.
Proof.
  induction lines as [|l lines (ws & Hws & IH)].
  - exists []. split; reflexivity.
  - destruct lines as [|l' lines].
    + exists [NL]. split; reflexivity.
    + exists ws. split; [exact Hws|].
      change (join NL ((l :: l' :: lines) ++ [[]]))
        with (l ++ [NL] ++ join NL ((l' :: lines) ++ [[]])).
      change (join NL (l :: l' :: lines))
        with (l ++ [NL] ++ join NL (l' :: lines)).
      rewrite IH, <- !app_assoc. reflexivity.
Qed.

(** The text of a section, stripped, is its lines joined, stripped. *)
Lemma strip_with_breaks (lines : list pystr) :
  strip (with_breaks lines) = strip (join NL lines).
Proof.
  destruct (with_breaks_join lines) as (ws & Hws & ->).
  apply strip_app_spaces, Hws.
Qed.

Lemma strip_with_breaks_blank (lines : list pystr) :
  strip (with_breaks (lines ++ [[]])) = strip (join NL lines).
Proof.
  rewrite strip_with_breaks.
  destruct (join_blank lines) as (ws & Hws & ->).
  apply strip_app_spaces, Hws.
Qed.

(** *** The lines of the participants *)

Lemma contains_unfold (hay needle : pystr) :
  contains hay needle
  = startswith hay needle
    || match hay with
       | [] => false
       | _ :: hay' => contains hay' needle
       end.
Proof. destruct hay; reflexivity. Qed.

Lemma contains_middle (a sep b : pystr) : contains (a ++ sep ++ b) sep = true.
Proof.
  induction a as [|c a IH].
  - simpl app. rewrite contains_unfold, startswith_app. reflexivity.
  - simpl. rewrite IH. apply orb_true_r.
Qed.

Lemma split_once_first (name text : pystr) :
  contains name (lit ": ") = false ->
  split_once (lit ": ") (name ++ lit ": " ++ text) = (name, text).
Proof.
  induction name as [|c name IH]; intros H.
  - simpl. destruct text; reflexivity.
  - rewrite contains_unfold in H. apply orb_false_iff in H.
    destruct H as [Hs Hc].
    change ((c :: name) ++ lit ": " ++ text)
      with (c :: (name ++ lit ": " ++ text)).
    unfold split_once; fold split_once.
    assert (E : startswith (c :: (name ++ lit ": " ++ text)) (lit ": ")
                = false).
    { cbn -[N.eqb] in Hs |- *.
      destruct (N.eqb 58 c); [|reflexivity]. cbn [andb] in *.
      destruct name as [|d name]; [reflexivity|].
      cbn -[N.eqb] in Hs |- *.
      destruct (N.eqb 32 d); [|reflexivity]. cbn [andb] in *.
      destruct name; discriminate. }
    rewrite E, (IH Hc). reflexivity.
Qed.

Lemma participant_line_clean (entry : pystr * pystr) :
  participant_entry entry ->
  strip (participant_line entry) = participant_line entry
  /\ ~ In NL (participant_line entry)
  /\ participant_line entry <> [].
Proof.
  destruct entry as [name text].
  intros ((_ & _ & Hn) & (Hne & Hs & Ht) & _). unfold participant_line.
  cbn [fst snd]. apply strip_id_iff in Hs. repeat split.
  - apply strip_id; [reflexivity|].
    rewrite !app_assoc. apply ends_clean_app; tauto.
  - intros Hin. apply in_app_or in Hin.
    destruct Hin as [[E|[E|[]]]|Hin]; try discriminate.
    apply in_app_or in Hin. destruct Hin as [Hin|Hin]; [tauto|].
    apply in_app_or in Hin. destruct Hin as [[E|[E|[]]]|Hin];
      try discriminate; tauto.
  - discriminate.
Qed.

Lemma participant_step_entry (d : dict) (entry : pystr * pystr) :
  participant_entry entry ->
  participant_step d (participant_line entry)
  = dict_set d (fst entry) (snd entry).
Proof.
  intros H. unfold participant_step.
  rewrite (proj1 (@participant_line_clean entry H)).
  destruct entry as [name text].
  destruct H as ((_ & Hn & _) & (_ & Ht & _) & _ & Hc).
  unfold participant_line. cbn [fst snd].
  rewrite startswith_app.
  change (skipn 2 (lit "- " ++ name ++ lit ": " ++ text))
    with (name ++ lit ": " ++ text).
  rewrite contains_middle, (@split_once_first name text Hc), Hn, Ht. reflexivity.
Qed.

Lemma fold_participants (people : dict) :
  Forall participant_entry people ->
  forall d,
    fold_left participant_step (map participant_line people) d
    = assign_all d people.
Proof.
  unfold assign_all. induction 1 as [|entry people He _ IH]; intros d;
    [reflexivity|].
  cbn [map fold_left]. rewrite (@participant_step_entry d entry He). apply IH.
Qed.

Lemma participants_section (people : dict) (d : dict) :
  Forall participant_entry people ->
  fold_left participant_step
            (split NL (strip (with_breaks (map participant_line people)))) d
  = assign_all d people.
Proof.
  intros H. rewrite strip_with_breaks.
  destruct people as [|entry people]; [reflexivity|].
  rewrite Forall_forall in H.
  assert (Hl : forall l, In l (map participant_line (entry :: people)) ->
                 strip l = l /\ ~ In NL l /\ l <> []).
  { intros l Hl. apply in_map_iff in Hl. destruct Hl as (e & <- & He).
    apply participant_line_clean, H, He. }
  rewrite strip_id.
  - rewrite split_join; [|discriminate|intros l Hin; apply (Hl l Hin)].
    apply fold_participants, Forall_forall, H.
  - destruct (Hl _ (or_introl eq_refl)) as (Hs & _ & Hne).
    apply join_starts_clean; [exact Hne|]. apply strip_id_iff in Hs. tauto.
  - apply join_ends_clean; [discriminate|].
    intros l Hin. destruct (Hl l Hin) as (Hs & _ & Hne).
    apply strip_id_iff in Hs. tauto.
Qed.

(** X21.  An answer in the format the prompt asks for is read back as its
    parts.  The answer: any lines, the heading SUMMARY: and the lines of
    the summary, an empty line, TOPICS: and the topics with a dash before
    each, an empty line, ACTION ITEMS: and the action items likewise, an
    empty line, PARTICIPANTS: and a line [- name: text] for each
    participant.  No line but the headings reads as a heading, the summary
    has no whitespace at either end, and topics, action items, names and
    texts are items as [_parse_list] returns them.  Then the summary, the
    topics and the action items are those of the answer, and each
    participant is assigned its text, in the order of the answer; the
    lines before the first heading are ignored. *)
Theorem _parse_combined_response_answer :
  forall (U : Unicode) (isdigit : char -> bool)
         (preamble summary_lines topics actions : list pystr)
         (people : dict) (result : AnalysisResult),
    agrees_on_ascii U ->
    Forall (body_line U)
           (preamble ++ summary_lines
            ++ map (fun s => lit "- " ++ s) topics
            ++ map (fun s => lit "- " ++ s) actions
            ++ map participant_line people) ->
    strip (join NL summary_lines) = join NL summary_lines ->
    Forall list_item topics ->
    Forall list_item actions ->
    Forall participant_entry people ->
    _parse_combined_response U isdigit
      (join NL (preamble
                ++ answer_lines summary_lines topics actions people))
      result
    = {| summary := join NL summary_lines;
         topics := topics;
         action_items := actions;
         participant_summaries :=
           assign_all (participant_summaries result) people;
         message_count := message_count result;
         participant_count := participant_count result;
         date_range := date_range result |}.
Proof.
  intros U isdigit preamble summary_lines topics actions people result
         HU Hbody Hsum Htopics Hactions Hpeople.
  unfold _parse_combined_response. cbv zeta.
  assert (Hhead : Forall (fun line => is_header U line = false)
                    (preamble ++ summary_lines
                     ++ map (fun s => lit "- " ++ s) topics
                     ++ map (fun s => lit "- " ++ s) actions
                     ++ map participant_line people)).
  { apply Forall_forall. rewrite Forall_forall in Hbody.
    intros l Hl. apply (Hbody l Hl). }
  rewrite split_join.
  - pose proof (@answer_sections U preamble summary_lines
                  (map (fun s => lit "- " ++ s) topics)
                  (map (fun s => lit "- " ++ s) actions)
                  (map participant_line people) HU Hhead) as Hsec.
    change (fold_left (sections_step U)
              (preamble ++ answer_lines summary_lines topics actions people)
              {| sections := new_sections; current_section := None |}
            = {| sections :=
                   four_sections
                     (with_breaks (summary_lines ++ [[]]))
                     (with_breaks (map (fun s => lit "- " ++ s) topics
                                   ++ [[]]))
                     (with_breaks (map (fun s => lit "- " ++ s) actions
                                   ++ [[]]))
                     (with_breaks (map participant_line people));
                 current_section := Some (lit "participants") |}) in Hsec.
    rewrite Hsec. cbn [sections]. unfold four_sections. cbn [dict_get].
    change (pystr_eqb (lit "summary") (lit "summary")) with true.
    change (pystr_eqb (lit "summary") (lit "topics")) with false.
    change (pystr_eqb (lit "topics") (lit "topics")) with true.
    change (pystr_eqb (lit "summary") (lit "action items")) with false.
    change (pystr_eqb (lit "topics") (lit "action items")) with false.
    change (pystr_eqb (lit "action items") (lit "action items")) with true.
    change (pystr_eqb (lit "summary") (lit "participants")) with false.
    change (pystr_eqb (lit "topics") (lit "participants")) with false.
    change (pystr_eqb (lit "action items") (lit "participants")) with false.
    change (pystr_eqb (lit "participants") (lit "participants")) with true.
    cbv iota. f_equal.
    + rewrite strip_with_breaks_blank. exact Hsum.
    + apply parse_list_stripped; [exact Htopics|].
      rewrite <- (bullets_stripped Htopics). apply strip_with_breaks_blank.
    + apply parse_list_stripped; [exact Hactions|].
      rewrite <- (bullets_stripped Hactions). apply strip_with_breaks_blank.
    + apply participants_section, Hpeople.
  - destruct preamble; discriminate.
  - rewrite Forall_forall in Hbody. intros l Hl.
    unfold answer_lines in Hl.
    repeat (apply in_app_or in Hl; destruct Hl as [Hl|Hl]);
      try (apply Hbody; repeat (apply in_or_app; (left + right));
           exact Hl);
      try (destruct Hl as [<-|[]]; intros Hin; vm_compute in Hin;
           intuition discriminate).
Qed.

Ltac no_line_break :=
  let H := fresh in intros H; vm_compute in H; intuition discriminate.

Ltac is_list_item :=
  split; [discriminate|split; [vm_compute; reflexivity|no_line_break]].

Ltac for_each tac := repeat (apply Forall_cons; [tac|]); apply Forall_nil.

(** The sample answer, read into a new result. *)
Lemma _parse_combined_response_answer_witness :
  _parse_combined_response ascii_unicode ascii_isdigit sample_answer
    (new_AnalysisResult [])
  = {| summary := lit "The team planned the release." ++ NL
                  :: lit "Bob will set up CI.";
       topics := [lit "Release plan"; lit "CI setup"];
       action_items := [lit "Bob: set up CI"];
       participant_summaries :=
         [(lit "Alice", lit "Led the planning.");
          (lit "Bob", lit "Took the CI task.")];
       message_count := 0;
       participant_count := 0;
       date_range := [] |}.
Proof.
  apply (@_parse_combined_response_answer ascii_unicode ascii_isdigit
           [lit "Here is the analysis."; []]
           [lit "The team planned the release."; lit "Bob will set up CI."]
           [lit "Release plan"; lit "CI setup"]
           [lit "Bob: set up CI"]
           [(lit "Alice", lit "Led the planning.");
            (lit "Bob", lit "Took the CI task.")]
           (new_AnalysisResult [])).
  - apply ascii_unicode_agrees.
  - for_each ltac:(split; [vm_compute; reflexivity|no_line_break]).
  - vm_compute. reflexivity.
  - for_each is_list_item.
  - for_each is_list_item.
  - for_each ltac:(split; [is_list_item|split; [is_list_item|split;
                                                  reflexivity]]).
Defined.

(** X22.  An answer in which no line reads as a heading gives nothing: the
    summary is empty, there are no topics and no action items, and the
    summaries of the participants are as they were. *)
Theorem _parse_combined_response_no_heading :
  forall (U : Unicode) (isdigit : char -> bool) (raw : pystr)
         (result : AnalysisResult),
    (forall line, In line (split NL raw) -> is_header U line = false) ->
    _parse_combined_response U isdigit raw result
    = {| summary := [];
         topics := [];
         action_items := [];
         participant_summaries := participant_summaries result;
         message_count := message_count result;
         participant_count := participant_count result;
         date_range := date_range result |}.
Proof.
  intros U isdigit raw result H.
  unfold _parse_combined_response. cbv zeta.
  rewrite fold_preamble; [reflexivity|exact H].
Qed.

Lemma _parse_combined_response_no_heading_witness :
  _parse_combined_response ascii_unicode ascii_isdigit
    (lit "I cannot analyze this chat." ++ NL :: lit "Summary: none")
    (new_AnalysisResult [])
  = new_AnalysisResult [].
Proof.
  apply (@_parse_combined_response_no_heading ascii_unicode ascii_isdigit
           (lit "I cannot analyze this chat." ++ NL :: lit "Summary: none")
           (new_AnalysisResult [])).
  intros line [<-|[<-|[]]]; vm_compute; reflexivity.
Defined.

(* ================================================================= *)
(** ** The analysis *)



Lemma apply_filters_nil (U : Unicode) (c : Conversation)
    (participant : option pystr) (start_date end_date : option datetime) :
  messages c = [] ->
  messages (apply_filters U c participant start_date end_date) = [].
Proof.
  intros H. unfold apply_filters.
  assert (Hd : messages (if is_some start_date || is_some end_date
                         then Conversation_.filter_by_date_range
                                c start_date end_date
                         else c) = []).
  { destruct (is_some start_date || is_some end_date); [|exact H].
    rewrite filter_by_date_range_filter, H. reflexivity. }
  destruct (truthy_str participant); [|exact Hd].
  destruct participant as [p|]; [|exact Hd].
  rewrite filter_by_participant_filter, Hd. reflexivity.
Qed.

(** *** When the model is asked *)

Lemma ret_sends_more (S A : Type) (a : A) : sends_more (@ret S A a).
Proof. intros w. exists []. symmetry. apply app_nil_r. Qed.

Lemma call_sends_first (S : Type)
    (generate : S -> pystr -> option pystr * S) (prompt : pystr) :
  sends_first (call generate prompt) prompt.
Proof.
  intros w. exists []. unfold call.
  destruct (generate (client w) prompt) as [[text|] s']; reflexivity.
Qed.

Lemma sends_first_more (S A : Type) (m : M S A) (prompt : pystr) :
  sends_first m prompt -> sends_more m.
Proof.
  intros H w. destruct (H w) as (more & E). exists (prompt :: more). exact E.
Qed.

Lemma bind_sends_more (S A B : Type) (m : M S A) (k : A -> M S B) :
  sends_more m -> (forall a, sends_more (k a)) -> sends_more (bind m k).
Proof.
  intros Hm Hk w. unfold bind. destruct (Hm w) as (more & E).
  destruct (m w) as [[a|e] w']; simpl in E.
  - destruct (Hk a w') as (more' & E'). exists (more ++ more').
    rewrite E', E. symmetry. apply app_assoc.
  - exists more. exact E.
Qed.

Lemma bind_sends_first (S A B : Type) (m : M S A) (k : A -> M S B)
    (prompt : pystr) :
  sends_first m prompt -> (forall a, sends_more (k a)) ->
  sends_first (bind m k) prompt.
Proof.
  intros Hm Hk w. unfold bind. destruct (Hm w) as (more & E).
  destruct (m w) as [[a|e] w']; simpl in E.
  - destruct (Hk a w') as (more' & E'). exists (more ++ more').
    rewrite E', E, <- app_assoc. reflexivity.
  - exists more. exact E.
Qed.

Lemma each_chunk_sends_more (S : Type)
    (generate : S -> pystr -> option pystr * S) (chunks : list Conversation) :
  forall acc, sends_more (each_chunk generate chunks acc).
Proof.
  induction chunks as [|chunk chunks IH]; intros acc.
  - apply ret_sends_more.
  - cbn [each_chunk].
    repeat (apply bind_sends_more;
            [exact (sends_first_more (call_sends_first generate _))|intros ?]).
    apply IH.
Qed.

(** What follows the loop of [_analyze_multi_combined] sends the prompt
    that merges the summaries first. *)
Lemma merge_sends_first (S : Type) (isdigit : char -> bool)
    (generate : S -> pystr -> option pystr * S) (result : AnalysisResult)
    (acc : partials) :
  sends_first
    (summary <- call generate
                  (MERGE_SUMMARIES
                     (join_str SUMMARY_SEPARATOR (partial_summaries acc))) ;;
     merged_topics <- call generate
                        (MERGE_TOPICS (join NL (partial_topics acc))) ;;
     merged_actions <- call generate
                         (MERGE_ACTION_ITEMS
                            (join NL (partial_actions acc))) ;;
     ret {| summary := summary;
            topics := _parse_list isdigit merged_topics;
            action_items := _parse_list isdigit merged_actions;
            participant_summaries := participant_summaries result;
            message_count := message_count result;
            participant_count := participant_count result;
            date_range := date_range result |})
    (MERGE_SUMMARIES (join_str SUMMARY_SEPARATOR (partial_summaries acc))).
Proof.
  apply bind_sends_first; [apply call_sends_first|intros summary].
  repeat (apply bind_sends_more;
          [exact (sends_first_more (call_sends_first generate _))|intros ?]).
  apply ret_sends_more.
Qed.

(** Whatever the chunks are, the analysis of them starts with a prompt. *)
Lemma chunks_send_first (S : Type) (U : Unicode) (isdigit : char -> bool)
    (generate : S -> pystr -> option pystr * S)
    (chunks : list Conversation) (result : AnalysisResult) :
  exists prompt,
    sends_first
      match chunks with
      | [chunk] => _analyze_combined U isdigit generate chunk result
      | _ => _analyze_multi_combined isdigit generate chunks result
      end
      prompt.
Proof.
  destruct chunks as [|chunk [|chunk' chunks]].
  - eexists. intros w. unfold _analyze_multi_combined.
    unfold bind at 1. cbn [each_chunk ret].
    apply (merge_sends_first isdigit generate result).
  - eexists. unfold _analyze_combined.
    apply bind_sends_first; [apply call_sends_first|intros raw].
    apply ret_sends_more.
  - eexists. unfold _analyze_multi_combined.
    apply bind_sends_first.
    + cbn [each_chunk].
      apply bind_sends_first; [apply call_sends_first|intros s].
      repeat (apply bind_sends_more;
              [exact (sends_first_more (call_sends_first generate _))
              |intros ?]).
      apply each_chunk_sends_more.
    + intros acc.
      exact (sends_first_more (merge_sends_first isdigit generate result acc)).
Qed.

(** X23.  For a source that parses, the model is asked exactly when a
    message passes the filters.  When none does, [analyze] returns a result
    that has its summary only, which says that no messages were found when
    the source has none and that none match the filters otherwise, and the
    client is as it was.  When one does, [analyze] sends a prompt, whatever
    the client answers and whether it raises or not, and nothing that has
    been sent before is taken back. *)
Theorem analyze_asks_iff_messages :
  forall (S : Type) (E : Env) (U : Unicode) (isdigit : char -> bool)
         (generate : S -> pystr -> option pystr * S)
         (source : pystr) (participant : option pystr)
         (start_date end_date : option datetime) (w : llm S)
         (c : Conversation),
    ChatAnalyzer.parse E U source = Ok c ->
    let filtered := apply_filters U c participant start_date end_date in
    let run :=
      analyze E U isdigit generate source participant start_date end_date w
    in
    (messages filtered = [] ->
     run = (Returned
              (new_AnalysisResult
                 match messages c with
                 | [] => lit "No messages found in the input."
                 | _ :: _ => lit "No messages match the given filters."
                 end),
            w))
    /\ (messages filtered <> [] ->
        exists prompt more, asked (snd run) = asked w ++ prompt :: more)
    /\ (asked (snd run) = asked w <-> messages filtered = []).
Proof.
  intros S E U isdigit generate source participant start_date end_date w
         c Hparse filtered run.
  assert (Hnone : messages filtered = [] ->
                  run = (Returned
                           (new_AnalysisResult
                              match messages c with
                              | [] => lit "No messages found in the input."
                              | _ :: _ =>
                                  lit "No messages match the given filters."
                              end),
                         w)).
  { intros Hf. unfold run, analyze. rewrite Hparse.
    destruct (messages c); [reflexivity|].
    fold filtered. rewrite Hf. reflexivity. }
  assert (Hsome : messages filtered <> [] ->
                  exists prompt more,
                    asked (snd run) = asked w ++ prompt :: more).
  { intros Hne. unfold run, analyze. rewrite Hparse.
    destruct (messages c) eqn:Ec.
    { exfalso. apply Hne. apply apply_filters_nil, Ec. }
    fold filtered. destruct (messages filtered); [contradiction|].
    destruct (chunks_send_first U isdigit generate
                (ConversationChunker.chunk _chunker filtered)
                (metadata filtered)) as (prompt & Hfirst).
    exists prompt. apply Hfirst. }
  split; [exact Hnone|]. split; [exact Hsome|]. split.
  - intros Hlog. destruct (messages filtered) eqn:Ef; [reflexivity|].
    destruct Hsome as (prompt & more & Hmore); [discriminate|].
    rewrite Hlog in Hmore. rewrite <- (app_nil_r (asked w)) in Hmore at 1.
    apply app_inv_head in Hmore. discriminate.
  - intros Hf. rewrite (Hnone Hf). reflexivity.
Qed.

(** The two-line transcript: with the filter of a participant who is not
    in it nothing is sent, and without a filter something is, also by a
    client that raises. *)
Lemma analyze_asks_iff_messages_witness :
  analyze no_files ascii_unicode ascii_isdigit (echo []) two_lines
          (Some (lit "Zoe")) None None fresh
  = (Returned
       (new_AnalysisResult (lit "No messages match the given filters.")),
     fresh)
  /\ exists prompt more,
       asked (snd (analyze no_files ascii_unicode ascii_isdigit broken
                     two_lines None None None fresh))
       = prompt :: more.
Proof.
  split.
  - apply (proj1 (@analyze_asks_iff_messages unit no_files ascii_unicode
                    ascii_isdigit (echo []) two_lines
                    (Some (lit "Zoe")) None None fresh
                    (WhatsAppTextParser.parse_text ascii_unicode two_lines)
                    eq_refl)).
    vm_compute. reflexivity.
  - apply (proj1 (proj2 (@analyze_asks_iff_messages unit no_files
                           ascii_unicode ascii_isdigit broken two_lines
                           None None None fresh
                           (WhatsAppTextParser.parse_text ascii_unicode
                              two_lines)
                           eq_refl))).
    vm_compute. discriminate.
Defined.

(** X24.  A conversation that, filtered, fits into one chunk or is one
    message, is analyzed with one prompt: [ANALYZE_ALL] with the text of all
    its messages and a line for each of its first ten participants.  The
    result is the answer as [_parse_combined_response] reads it, with the
    numbers of messages and participants and the dates of the filtered
    conversation. *)
Theorem analyze_one_prompt :
  forall (S : Type) (E : Env) (U : Unicode) (isdigit : char -> bool)
         (generate : S -> pystr -> option pystr * S)
         (source : pystr) (participant : option pystr)
         (start_date end_date : option datetime) (w : llm S)
         (c : Conversation) (raw : pystr) (s' : S),
    ChatAnalyzer.parse E U source = Ok c ->
    let filtered := apply_filters U c participant start_date end_date in
    let prompt :=
      ANALYZE_ALL
        (Conversation_.to_text filtered)
        (join NL (map PARTICIPANT_LINE
                      (firstn 10 (ConversationProps.participants filtered))))
    in
    messages filtered <> [] ->
    ConversationChunker.needs_chunking _chunker filtered = false
    \/ length (messages filtered) = 1%nat ->
    generate (client w) prompt = (Some raw, s') ->
    analyze E U isdigit generate source participant start_date end_date w
    = (Returned (_parse_combined_response U isdigit raw (metadata filtered)),
       {| client := s'; asked := asked w ++ [prompt] |}).
Proof.
  intros S E U isdigit generate source participant start_date end_date w
         c raw s' Hparse filtered prompt Hne Hfit Hgen.
  pose proof (chunk_fitting_or_single _chunker filtered Hne Hfit) as Hone.
  unfold analyze. rewrite Hparse.
  destruct (messages c) eqn:Ec.
  { exfalso. apply Hne. apply apply_filters_nil, Ec. }
  fold filtered. destruct (messages filtered) eqn:Ef; [contradiction|].
  rewrite Hone.
  unfold _analyze_combined, bind, call. fold prompt.
  change (firstn MAX_PARTICIPANTS_FOR_ANALYSIS
            (ConversationProps.participants filtered))
    with (firstn 10 (ConversationProps.participants filtered)).
  fold prompt. rewrite Hgen. reflexivity.
Qed.

Lemma analyze_one_prompt_witness :
  exists prompt,
    analyze no_files ascii_unicode ascii_isdigit (echo sample_answer)
            two_lines None None None fresh
    = (Returned
         (_parse_combined_response ascii_unicode ascii_isdigit sample_answer
            (metadata (WhatsAppTextParser.parse_text ascii_unicode
                         two_lines))),
       {| client := tt; asked := [prompt] |}).
Proof.
  eexists.
  apply (@analyze_one_prompt unit no_files ascii_unicode ascii_isdigit
           (echo sample_answer) two_lines None None None fresh
           (WhatsAppTextParser.parse_text ascii_unicode two_lines)
           sample_answer tt).
  - vm_compute. reflexivity.
  - vm_compute. discriminate.
  - left. vm_compute. reflexivity.
  - reflexivity.
Defined.



(** X26.  When the client raises at the first prompt, [analyze] raises, and
    that prompt is the only one that has been sent. *)
Theorem analyze_generate_raises :
  forall (S : Type) (E : Env) (U : Unicode) (isdigit : char -> bool)
         (generate : S -> pystr -> option pystr * S)
         (source : pystr) (participant : option pystr)
         (start_date end_date : option datetime) (w : llm S)
         (c : Conversation),
    ChatAnalyzer.parse E U source = Ok c ->
    messages (apply_filters U c participant start_date end_date) <> [] ->
    (forall prompt, fst (generate (client w) prompt) = None) ->
    exists prompt s',
      analyze E U isdigit generate source participant start_date end_date w
      = (Raises GenerateRaised,
         {| client := s'; asked := asked w ++ [prompt] |}).
Proof.
  intros S E U isdigit generate source participant start_date end_date w
         c Hparse Hne Hgen.
  assert (Hcall : forall prompt,
             exists s',
               call generate prompt w
               = (Raises GenerateRaised,
                  {| client := s'; asked := asked w ++ [prompt] |})).
  { intros prompt. unfold call. specialize (Hgen prompt).
    destruct (generate (client w) prompt) as [[text|] s']; simpl in Hgen;
      [discriminate|]. exists s'. reflexivity. }
  unfold analyze. rewrite Hparse.
  destruct (messages c) eqn:Ec.
  { exfalso. apply Hne. apply apply_filters_nil, Ec. }
  destruct (messages (apply_filters U c participant start_date end_date))
    eqn:Ef; [contradiction|].
  destruct (ConversationChunker.chunk _chunker
              (apply_filters U c participant start_date end_date))
    as [|ch [|ch' chs]].
  - unfold _analyze_multi_combined, bind. cbn [each_chunk ret].
    match goal with
    | |- context [call generate ?p w] =>
        destruct (Hcall p) as (s' & ->); exists p, s'
    end. reflexivity.
  - unfold _analyze_combined, bind.
    match goal with
    | |- context [call generate ?p w] =>
        destruct (Hcall p) as (s' & ->); exists p, s'
    end. reflexivity.
  - unfold _analyze_multi_combined. unfold bind at 1. cbn [each_chunk].
    unfold bind at 1.
    match goal with
    | |- context [call generate ?p w] =>
        destruct (Hcall p) as (s' & ->); exists p, s'
    end. reflexivity.
Qed.

Lemma analyze_generate_raises_witness :
  exists prompt s',
    analyze no_files ascii_unicode ascii_isdigit broken two_lines
            None None None fresh
    = (Raises GenerateRaised,
       {| client := s'; asked := asked fresh ++ [prompt] |}).
Proof.
  apply (@analyze_generate_raises unit no_files ascii_unicode ascii_isdigit
           broken two_lines None None None fresh
           (WhatsAppTextParser.parse_text ascii_unicode two_lines)).
  - vm_compute. reflexivity.
  - vm_compute. discriminate.
  - reflexivity.
Defined.

(* ================================================================= *)
(** ** System messages *)

Lemma _is_system_message_iff (U : Unicode) (text : pystr) :
  _is_system_message U text = true <-> has_indicator U text.
Proof.
  unfold _is_system_message, has_indicator. rewrite existsb_exists.
  reflexivity.
Qed.

(** X27.  A message of [parse_text] comes from one line that
    [_try_parse_line] accepts, followed by its continuation lines, and it
    is a system message exactly when the rest of that line, after the
    timestamp, has no sender, or the first line of its content, which is
    the content taken from that line, contains, lower-cased, one of the
    phrases of [_SYSTEM_INDICATORS]: the lines that follow do not count,
    and a message of a participant that contains such a phrase counts as a
    system message. *)
Theorem is_system_of_first_line :
  forall (U : Unicode) (text : pystr) (m : ChatMessage),
    In m (messages (WhatsAppTextParser.parse_text U text)) ->
    exists line m0 rest continuation,
      In line (split NL text)
      /\ WhatsAppTextParser._try_parse_line U line = Some m0
      /\ rest_of_line U line = Some rest
      /\ m = with_lines (m0, continuation)
      /\ hd [] (split NL (content m)) = content m0
      /\ (is_system m = true <->
          has_sender rest = false
          \/ has_indicator U (hd [] (split NL (content m)))).
Proof.
  intros U text m Hm.
  destruct (parsed_message_origin _ _ _ Hm)
    as (line & m0 & continuation & Hline & Hp & Hm0).
  destruct (with_lines_fields m0 continuation)
    as (_ & _ & Hsystem & _ & Hcontent).
  assert (Hfirst : hd [] (split NL (content m)) = content m0).
  { rewrite Hm0, Hcontent. apply first_line_of_content. intros Hnl.
    apply (split_no_sep NL text line Hline). apply _clean_line_In.
    exact (proj2 (_try_parse_line_content _ _ Hp) _ Hnl). }
  destruct (_try_parse_line_some _ _ Hp)
    as (pattern & match_ & g1 & g2 & rest & _ & _ & _ & _ & Hrest
        & _ & Hno & Hyes).
  exists line, m0, rest, continuation.
  split; [exact Hline|]. split; [exact Hp|]. split; [exact Hrest|].
  split; [exact Hm0|]. split; [exact Hfirst|].
  rewrite Hfirst, Hm0, Hsystem, <- _is_system_message_iff.
  destruct (has_sender rest) eqn:Es.
  - rewrite (Hyes eq_refl). split; [intros H; right; exact H|].
    intros [H|H]; [discriminate|exact H].
  - destruct (Hno eq_refl) as (_ & _ & ->). split; [left|]; reflexivity.
Qed.

(** A message of Alice that says she left her keys. *)
Lemma is_system_of_first_line_witness :
  exists line m0 rest continuation,
    In line (split NL (lit "12/01/2024, 09:01 - Alice: I left my keys"))
    /\ WhatsAppTextParser._try_parse_line ascii_unicode line = Some m0
    /\ rest_of_line ascii_unicode line = Some rest
    /\ {| timestamp := jan12 9 1; sender := lit "Alice";
          content := lit "I left my keys";
          is_system := true; is_media := false |}
       = with_lines (m0, continuation)
    /\ hd [] (split NL (lit "I left my keys")) = content m0
    /\ (is_system
          {| timestamp := jan12 9 1; sender := lit "Alice";
             content := lit "I left my keys";
             is_system := true; is_media := false |} = true <->
        has_sender rest = false
        \/ has_indicator ascii_unicode
             (hd [] (split NL (lit "I left my keys")))).
Proof.
  apply (@is_system_of_first_line ascii_unicode
           (lit "12/01/2024, 09:01 - Alice: I left my keys")
           {| timestamp := jan12 9 1; sender := lit "Alice";
              content := lit "I left my keys";
              is_system := true; is_media := false |}).
  vm_compute. left. reflexivity.
Defined.

(* ================================================================= *)
(** ** The text of a conversation is not a transcript *)

Lemma digit_char_plain (n : Z) : plain (digit_char n).
Proof.
  unfold digit_char.
  assert (H : 0 <= n mod 10 < 10) by (apply Z.mod_pos_bound; lia).
  assert (E : exists k, (k < 10)%nat /\ n mod 10 = Z.of_nat k).
  { exists (Z.to_nat (n mod 10)). split; lia. }
  destruct E as (k & Hk & ->).
  do 10 (destruct k as [|k]; [repeat split; discriminate|]). lia.
Qed.

Lemma dash_plain : plain (key "-").
Proof. repeat split; discriminate. Qed.

(** The first three characters of a formatted timestamp. *)
Lemma format_timestamp_prefix (d : datetime) :
  exists c0 c1 c2 rest,
    format_timestamp d = c0 :: c1 :: c2 :: rest
    /\ plain c0 /\ plain c1 /\ plain c2.
Proof.
  unfold format_timestamp, year_digits, pad2.
  destruct (year d <? 10); [|destruct (year d <? 100);
                             [|destruct (year d <? 1000)]];
    cbn [app lit list_ascii_of_string map];
    do 4 eexists; (split; [reflexivity|]);
    repeat split; try apply digit_char_plain; try apply dash_plain.
Qed.

Lemma rstrip_cons (x : char) (s : pystr) :
  py_isspace x = false -> rstrip (x :: s) = x :: rstrip s.
Proof.
  intros Hx. unfold rstrip. simpl rev.
  destruct (lstrip (rev s)) as [|c t] eqn:E.
  - rewrite lstrip_spaces; [|apply lstrip_all_spaces, E].
    simpl. rewrite Hx. reflexivity.
  - rewrite lstrip_app; [|rewrite E; discriminate].
    rewrite E, rev_app_distr. reflexivity.
Qed.

Lemma _clean_line_prefix (a b c d : char) (s : pystr) :
  py_isspace a = false -> _UNICODE_JUNK a = false ->
  py_isspace b = false -> _UNICODE_JUNK b = false ->
  py_isspace c = false -> _UNICODE_JUNK c = false ->
  py_isspace d = false -> _UNICODE_JUNK d = false ->
  exists s', WhatsAppTextParser._clean_line (a :: b :: c :: d :: s)
             = a :: b :: c :: d :: s'.
Proof.
  intros Ha Ja Hb Jb Hc Jc Hd Jd.
  unfold WhatsAppTextParser._clean_line, sub_empty.
  cbn [filter]. rewrite Ja, Jb, Jc, Jd. cbn [negb].
  unfold strip. cbn [lstrip]. rewrite Ha.
  rewrite (@rstrip_cons a _ Ha), (@rstrip_cons b _ Hb),
    (@rstrip_cons c _ Hc), (@rstrip_cons d _ Hd).
  eexists. reflexivity.
Qed.

(** No timestamp pattern matches a line of four characters of which the
    second, third and fourth are plain, and more. *)
Lemma patterns_need_separator (U : Unicode) (a b c d : char) (s : pystr)
    (pattern : regex) :
  plain b -> plain c -> plain d ->
  In pattern (_PATTERNS U) -> re_match pattern (a :: b :: c :: d :: s) = None.
Proof.
  intros (Hb1 & Hb2 & _) (Hc1 & Hc2 & _) (Hd1 & Hd2 & _) Hin.
  assert (Eb1 : N.eqb 58 b = false)
    by (apply N.eqb_neq; intros E; apply Hb1; symmetry; exact E).
  assert (Eb2 : N.eqb 47 b = false)
    by (apply N.eqb_neq; intros E; apply Hb2; symmetry; exact E).
  assert (Ec1 : N.eqb 58 c = false)
    by (apply N.eqb_neq; intros E; apply Hc1; symmetry; exact E).
  assert (Ec2 : N.eqb 47 c = false)
    by (apply N.eqb_neq; intros E; apply Hc2; symmetry; exact E).
  assert (Ed1 : N.eqb 58 d = false)
    by (apply N.eqb_neq; intros E; apply Hd1; symmetry; exact E).
  assert (Ed2 : N.eqb 47 d = false)
    by (apply N.eqb_neq; intros E; apply Hd2; symmetry; exact E).
  unfold re_match, match_at.
  destruct Hin as [<-|[<-|[<-|[<-|[]]]]]; cbn -[N.eqb digit];
    destruct (N.eqb 91 a), (digit U a), (digit U b), (digit U c);
    repeat first
      [ reflexivity
      | progress (cbn -[N.eqb digit])
      | progress (rewrite ?andb_false_r, ?Eb1, ?Eb2, ?Ec1, ?Ec2, ?Ed1, ?Ed2) ].
Qed.

(** The line [str] makes of a message starts no message. *)
Lemma ChatMessage_str_not_parsed (U : Unicode) (m : ChatMessage) :
  WhatsAppTextParser._try_parse_line U (ChatMessage_str m) = None.
Proof.
  destruct (format_timestamp_prefix (timestamp m))
    as (c0 & c1 & c2 & rest & E & H0 & H1 & H2).
  assert (Hline : exists s, ChatMessage_str m
                            = key "[" :: c0 :: c1 :: c2 :: s).
  { unfold ChatMessage_str. destruct (is_system m); rewrite E;
      eexists; reflexivity. }
  destruct Hline as (s & ->).
  destruct (@_clean_line_prefix (key "[") c0 c1 c2 s) as (s' & Hclean);
    try reflexivity; try apply H0; try apply H1; try apply H2.
  assert (Hnone : forall patterns index,
             incl patterns (_PATTERNS U) ->
             WhatsAppTextParser.first_match patterns index
               (key "[" :: c0 :: c1 :: c2 :: s') = None).
  { induction patterns as [|p patterns IH]; intros index Hincl;
      [reflexivity|].
    cbn [WhatsAppTextParser.first_match].
    rewrite (@patterns_need_separator U _ _ _ _ s' p H0 H1 H2);
      [|apply Hincl; left; reflexivity].
    apply IH. intros x Hx. apply Hincl. right. exact Hx. }
  assert (Hgoal : forall line,
             line = key "[" :: c0 :: c1 :: c2 :: s' ->
             match line with
             | [] => None
             | _ :: _ =>
                 match WhatsAppTextParser.first_match (_PATTERNS U) 0 line with
                 | Some (pattern, match_) =>
                     WhatsAppTextParser._extract_message U match_ line pattern
                 | None => None
                 end
             end = None).
  { intros line ->. rewrite Hnone; [reflexivity|apply incl_refl]. }
  exact (Hgoal _ Hclean).
Qed.

Lemma filter_none {A : Type} (f : A -> bool) (l : list A) :
  (forall x, In x l -> f x = false) -> filter f l = [].
Proof.
  induction l as [|x l IH]; intros H; [reflexivity|]. simpl.
  rewrite (H x (or_introl eq_refl)). apply IH.
  intros y Hy. apply H. right. exact Hy.
Qed.

(** X28.  [parse_text] reads nothing back from [to_text]: the text of a
    conversation in which no message has a line break in its line has no
    line that starts a message, so that parsing it gives no messages. *)
Theorem to_text_not_parsed :
  forall (U : Unicode) (c : Conversation),
    (forall m, In m (messages c) -> ~ In NL (ChatMessage_str m)) ->
    WhatsAppTextParser.parse_text U (Conversation_.to_text c)
    = {| messages := [] |}.
Proof.
  intros U c Hnl. apply Conversation_ext. rewrite parse_text_blocks.
  cbn [messages].
  assert (Hlines : forall line,
             In line (split NL (Conversation_.to_text c)) ->
             WhatsAppTextParser._try_parse_line U line = None).
  { intros line Hline. unfold Conversation_.to_text in Hline.
    destruct (messages c) as [|m ms] eqn:E.
    - destruct Hline as [<-|[]]. reflexivity.
    - rewrite split_join in Hline.
      + apply in_map_iff in Hline. destruct Hline as (m' & <- & _).
        apply ChatMessage_str_not_parsed.
      + discriminate.
      + intros l Hl. apply in_map_iff in Hl. destruct Hl as (m' & <- & Hm').
        apply Hnl, Hm'. }
  pose proof (blocks_count U (split NL (Conversation_.to_text c))) as Hcount.
  rewrite filter_none in Hcount.
  - destruct (snd (blocks U (split NL (Conversation_.to_text c))));
      [reflexivity|discriminate].
  - intros line Hline. rewrite (Hlines line Hline). reflexivity.
Qed.

Lemma to_text_not_parsed_witness :
  WhatsAppTextParser.parse_text ascii_unicode
    (Conversation_.to_text sample_conversation)
  = {| messages := [] |}.
Proof.
  apply (@to_text_not_parsed ascii_unicode sample_conversation).
  intros m [<-|[<-|[<-|[<-|[]]]]] Hin; vm_compute in Hin;
    intuition discriminate.
Defined.

(* ================================================================= *)
(** ** Files are parsed by their suffix *)

Lemma pystr_eqb_neq (a b : pystr) : a <> b -> pystr_eqb a b = false.
Proof.
  intros H. destruct (pystr_eqb a b) eqn:E; [|reflexivity].
  apply pystr_eqb_eq in E. contradiction.
Qed.

(** X29.  [ChatAnalyzer.parse] gives a path that exists to the parser of
    its suffix: lower-cased [.pdf] to [PDFParser], [.docx] to [DocxParser],
    one of the six image suffixes to [ImageParser], whatever the file
    holds; and [.txt], in lower case as it is written, to
    [WhatsAppTextParser], which reads the file. *)
Theorem parse_by_suffix :
  forall (E : Env) (U : Unicode) (source : pystr),
    path_exists E source = Ok true ->
    let suffix := str_lower U (path_suffix E source) in
    (suffix = lit ".pdf" ->
     ChatAnalyzer.parse E U source = PDFParser.parse E U source)
    /\ (suffix = lit ".docx" ->
        ChatAnalyzer.parse E U source = DocxParser.parse E U source)
    /\ (In suffix ImageParser._IMAGE_EXTENSIONS ->
        ChatAnalyzer.parse E U source = ImageParser.parse E U source)
    /\ (agrees_on_ascii U ->
        path_suffix E source = lit ".txt" ->
        ChatAnalyzer.parse E U source = WhatsAppTextParser.parse E U source).
Proof.
  intros E U source Hexists suffix.
  unfold ChatAnalyzer.parse, ChatAnalyzer._parsers, ChatAnalyzer.dispatch.
  unfold PDFParser.parser, DocxParser.parser, ImageParser.parser,
    WhatsAppTextParser.parser. cbn [can_handle parse].
  unfold PDFParser.can_handle, DocxParser.can_handle, ImageParser.can_handle,
    WhatsAppTextParser.can_handle, and_then.
  rewrite Hexists. fold suffix.
  split; [|split; [|split]].
  - intros ->. reflexivity.
  - intros ->. reflexivity.
  - intros Himg.
    assert (E1 : pystr_eqb suffix (lit ".pdf") = false).
    { apply pystr_eqb_neq. intros E'. rewrite E' in Himg.
      vm_compute in Himg. intuition discriminate. }
    assert (E2 : pystr_eqb suffix (lit ".docx") = false).
    { apply pystr_eqb_neq. intros E'. rewrite E' in Himg.
      vm_compute in Himg. intuition discriminate. }
    rewrite E1, E2.
    apply existsb_pystr_eqb in Himg. rewrite Himg. reflexivity.
  - intros [_ Hlower] Htxt.
    assert (Es : suffix = lit ".txt").
    { unfold suffix. rewrite Htxt, Hlower; [reflexivity|].
      apply ascii_textb_spec. reflexivity. }
    rewrite Es, Htxt. reflexivity.
Qed.

Lemma parse_by_suffix_witness :
  ChatAnalyzer.parse pdf_file ascii_unicode (lit "chat.pdf")
  = PDFParser.parse pdf_file ascii_unicode (lit "chat.pdf").
Proof.
  apply (@parse_by_suffix pdf_file ascii_unicode (lit "chat.pdf")
           eq_refl).
  reflexivity.
Defined.

(** X30.  When every paragraph of a DOCX document that is not blank
    starts with a line that starts a message, [DocxParser.parse] returns
    the messages of those paragraphs one after the other; blank paragraphs
    are left out. *)
Theorem docx_parse_paragraphs :
  forall (E : Env) (U : Unicode) (source : pystr) (paragraphs : list pystr),
    docx_paragraphs E source = Ok paragraphs ->
    (forall text, In text paragraphs -> strip text <> [] ->
       starts_message U text) ->
    DocxParser.parse E U source
    = Ok {| messages :=
              concat (map (fun text =>
                             messages (WhatsAppTextParser.parse_text U text))
                          (filter (fun text => nonempty_str (strip text))
                                  paragraphs)) |}.
Proof.
  intros E U source paragraphs Hdoc Hstart.
  unfold DocxParser.parse. rewrite Hdoc. f_equal. apply Conversation_ext.
  cbv zeta. apply parse_join_pages.
  apply Forall_forall. intros text Hin. apply filter_In in Hin.
  destruct Hin as [Hin Hne]. apply Hstart; [exact Hin|].
  apply nonempty_str_iff, Hne.
Qed.

Lemma docx_parse_paragraphs_witness :
  DocxParser.parse docx_file ascii_unicode (lit "chat.docx")
  = Ok {| messages :=
            concat (map (fun text =>
                           messages (WhatsAppTextParser.parse_text
                                       ascii_unicode text))
                        (filter (fun text => nonempty_str (strip text))
                                three_paragraphs)) |}.
Proof.
  apply (@docx_parse_paragraphs docx_file ascii_unicode (lit "chat.docx")
           three_paragraphs).
  - reflexivity.
  - intros text [<-|[<-|[<-|[]]]] Hne.
    + eexists. vm_compute. reflexivity.
    + exfalso. apply Hne. reflexivity.
    + eexists. vm_compute. reflexivity.
Defined.
